(** * Datadog service hooks for Azure DevOps: a model of [setup-hooks.py]

    The script installs or removes webhook subscriptions ("service hooks") on
    the projects of an Azure DevOps organization.  The development embeds the
    script in Rocq: the module constants and the pure helpers as plain
    definitions, the [Client] methods as computations in a small monad that
    threads the remote world, collects the observable events of a run (HTTP
    requests, prompts, prints) and propagates Python exceptions. *)

From Stdlib Require Import ZArith String Ascii List Bool Lia.
From Stdlib Require Import DecimalString.
From stdpp Require Import base option list gmap strings.

Local Open Scope Z_scope.
Local Open Scope string_scope.
Local Open Scope list_scope.

(** ** Module constants *)

(** [EVENT_TYPES]: the event types the integration requires. *)
Definition EVENT_TYPES : list string :=
  [ "git.pullrequest.created";
    "git.pullrequest.updated";
    "git.push";
    "ms.vss-pipelines.run-state-changed-event";
    "ms.vss-pipelines.stage-state-changed-event";
    "ms.vss-pipelines.job-state-changed-event";
    "ms.vss-pipelinechecks-events.approval-pending";
    "ms.vss-pipelinechecks-events.approval-completed";
    "build.complete" ].

Definition VERSION_1_0 : string := "1.0".

Definition DEFAULT_RESOURCE_VERSION : string := "latest".

(** [EVENT_TYPE_VERSIONS]: a dict from event type to resource version. *)
Definition EVENT_TYPE_VERSIONS : gmap string string :=
  <["git.push" := VERSION_1_0]>
    (<["git.pullrequest.updated" := VERSION_1_0]>
       (<["git.pullrequest.created" := VERSION_1_0]> ∅)).

(** ** Python values *)

(** [str(x)] of an optional string, as an f-string renders it. *)
Definition py_str (o : option string) : string :=
  match o with
  | Some s => s
  | None => "None"
  end.

Definition str_nat (n : nat) : string := NilZero.string_of_uint (Nat.to_uint n).

Definition str_Z (z : Z) : string := NilZero.string_of_int (Z.to_int z).

(** [s.startswith(p)]. *)
Definition startswith (s p : string) : bool := String.prefix p s.

(** [c.lower()] on an ASCII letter; every other byte is left alone. *)
Definition lower_ascii (c : ascii) : ascii :=
  let n := nat_of_ascii c in
  if (Nat.leb 65 n && Nat.leb n 90)%bool then ascii_of_nat (n + 32) else c.

(** [s.lower()].  Strings are byte strings here; no character outside ASCII
    lowers to one of the letters of "yes", so membership in ["yes", "y"] is
    decided as in Python. *)
Fixpoint lower (s : string) : string :=
  match s with
  | EmptyString => EmptyString
  | String c s' => String (lower_ascii c) (lower s')
  end.

(** [yesno.lower() in ["yes", "y"]]. *)
Definition confirms (yesno : string) : bool :=
  bool_decide (lower yesno ∈ ["yes"; "y"]).

(** Truth value of an optional string: [None] and [""] are false. *)
Definition truthy (o : option string) : bool :=
  match o with
  | Some s => negb (String.eqb s "")
  | None => false
  end.

(** ** Remote records *)

(** A project as the listing returns it: [project["id"]], [project["name"]]. *)
Record Project := mkProject {
  project_id : string;
  project_name : string
}.

(** An existing subscription: [hook["id"]],
    [hook["publisherInputs"]["projectId"]] and [hook["eventType"]]. *)
Record Hook := mkHook {
  hook_id : string;
  hook_projectId : string;
  hook_eventType : string
}.

(** The decoded body of a project-listing response: [data["value"]] and
    [data.get("continuation_token")]. *)
Record ProjectsPage := mkPage {
  page_value : list Project;
  page_continuation_token : option string
}.

(** The body posted to create a subscription. *)
Record Subscription := mkSubscription {
  publisherId : string;
  eventType : string;
  resourceVersion : string;
  consumerId : string;
  consumerActionId : string;
  publisherInputs_projectId : string;
  consumerInputs_url : string;
  consumerInputs_httpHeaders : string
}.

#[global] Instance Project_eq_dec : EqDecision Project.
Proof. solve_decision. Defined.

#[global] Instance Hook_eq_dec : EqDecision Hook.
Proof. solve_decision. Defined.

(** ** The client *)

Record Client := mkClient {
  az_devops_org : option string;
  az_devops_token : string;
  dd_site : option string;
  dd_api_key : option string;
  verbose : bool;
  project : option string
}.

Definition _az_auth_headers (self : Client) : list (string * string) :=
  [("Authorization", "Bearer " +:+ az_devops_token self)].

Definition _az_base_url (self : Client) : string :=
  "https://dev.azure.com/" +:+ py_str (az_devops_org self).

Definition _webhook_url (self : Client) : string :=
  "https://webhook-intake." +:+ py_str (dd_site self) +:+ "/api/v2/webhook".

(** [Client._get_publisher_id]. *)
Definition _get_publisher_id (event_type : string) : string :=
  if (startswith event_type "ms.vss-pipelines."
      || startswith event_type "ms.vss-pipelinechecks-events.")%bool
  then "pipelines"
  else "tfs".

(** [EVENT_TYPE_VERSIONS.get(event_type, DEFAULT_RESOURCE_VERSION)]. *)
Definition resource_version_of (event_type : string) : string :=
  default DEFAULT_RESOURCE_VERSION (EVENT_TYPE_VERSIONS !! event_type).

(** ** HTTP requests and their outcomes *)

(** The filter posted to [subscriptionsquery]. *)
Record SubscriptionsQuery := mkSubscriptionsQuery {
  query_consumerId : string;
  query_inputId : string;
  query_inputValue : string;
  query_operator : string
}.

Inductive Payload :=
| NoPayload
| QueryPayload (q : SubscriptionsQuery)
| SubscriptionPayload (s : Subscription).

(** A [urllib.request.Request].  [req_params] are the parameters that
    [urlencode] appends to [req_url] after a question mark (only the project
    listing has some); the other URLs carry their query string literally. *)
Record Request := mkRequest {
  req_method : string;
  req_url : string;
  req_params : list (string * string);
  req_headers : list (string * string);
  req_data : Payload
}.

(** What [urlopen] does with a request: it returns a response object, whose
    status, text and decoded body are given, or it raises
    [urllib.error.HTTPError]. *)
Inductive HttpResult (A : Type) : Type :=
| Response (status : Z) (text : string) (data : A)
| HTTPError (code : Z) (text : string).

Arguments Response {A} status text data.
Arguments HTTPError {A} code text.

(** The response object an [AzureDevOpsException] carries: what [urlopen]
    returned or raised, an [http.client.HTTPResponse] or a
    [urllib.error.HTTPError], with its status (or code) and the text it
    would read.  Neither class has an attribute [status_code] or [text]. *)
Record ResponseObj := mkResponseObj {
  response_status : Z;
  response_body : string
}.

Inductive Exc :=
| SystemExit (code : Z)
| AzureDevOpsException (message : string) (response : ResponseObj)
| Exception (message : string)
| TypeError
| RecursionError
| AttributeError (name : string).

Inductive Result (A : Type) : Type :=
| Return (a : A)
| Raise (e : Exc).

Arguments Return {A} a.
Arguments Raise {A} e.

(** How a [urlopen] call ended, as recorded in the trace. *)
Inductive Outcome :=
| Returned (status : Z)
| Failed (code : Z).

Definition outcome_of {A} (r : HttpResult A) : Outcome :=
  match r with
  | Response status _ _ => Returned status
  | HTTPError code _ => Failed code
  end.

(** The five endpoints the script calls. *)
Inductive Endpoint :=
| ApiValidate
| ApiProjects
| ApiSubscriptionsQuery
| ApiSubscriptions
| ApiDelete.

#[global] Instance Endpoint_eq_dec : EqDecision Endpoint.
Proof. solve_decision. Defined.

(** The observable events of a run, in order. *)
Inductive Event :=
| EvUrlopen (endpoint : Endpoint) (req : Request) (out : Outcome)
| EvInput (prompt answer : string)
| EvPrint (line : string)
| EvProgress (iteration total : nat) (prefix suffix : string).

(** ** The remote world

    The servers and the terminal are an arbitrary state machine: one
    transition per endpoint the script calls, each answering with a body of
    the shape the script decodes, and one for [input]. *)
Class Remote := {
  world : Type;
  urlopen_validate : Request → world → HttpResult unit * world;
  urlopen_projects : Request → world → HttpResult ProjectsPage * world;
  urlopen_subscriptionsquery : Request → world → HttpResult (list Hook) * world;
  urlopen_subscriptions : Request → world → HttpResult unit * world;
  urlopen_delete : Request → world → HttpResult unit * world;
  input : string → world → string * world
}.

(** ** The monad of runs *)

Record Ran {W : Type} (A : Type) := mkRan {
  result : Result A;
  trace : list Event;
  final : W
}.

Arguments mkRan {W A} result trace final.
Arguments result {W A} r.
Arguments trace {W A} r.
Arguments final {W A} r.

Section Script.

Context {R : Remote}.

Definition M (A : Type) : Type := world → @Ran world A.

Definition ret {A} (a : A) : M A := λ w, mkRan (Return a) [] w.

Definition raise {A} (e : Exc) : M A := λ w, mkRan (Raise e) [] w.

Definition bind {A B} (m : M A) (k : A → M B) : M B := λ w,
  let r := m w in
  match result r with
  | Return a =>
      let r' := k a (final r) in
      mkRan (result r') (trace r ++ trace r') (final r')
  | Raise e => mkRan (Raise e) (trace r) (final r)
  end.

Notation "x <- m ;; k" := (bind m (λ x, k))
  (at level 100, m at next level, right associativity).
Notation "m ;; k" := (bind m (λ _, k))
  (at level 100, right associativity).

(** [try: m except AzureDevOpsException as e: handler e]. *)
Definition try_except {A} (m : M A) (handler : string → ResponseObj → M A) : M A := λ w,
  let r := m w in
  match result r with
  | Raise (AzureDevOpsException message response) =>
      let r' := handler message response (final r) in
      mkRan (result r') (trace r ++ trace r') (final r')
  | _ => r
  end.

Definition emit (ev : Event) : M unit := λ w, mkRan (Return tt) [ev] w.

Definition print (line : string) : M unit := emit (EvPrint line).

(** [exit(code)] raises [SystemExit]. *)
Definition exit {A} (code : Z) : M A := raise (SystemExit code).

(** [input(prompt)]. *)
Definition py_input (prompt : string) : M string := λ w,
  let '(answer, w') := input prompt w in
  mkRan (Return answer) [EvInput prompt answer] w'.

(** [urlopen(req)] against one endpoint of the world, served by [server]. *)
Definition urlopen {A} (endpoint : Endpoint) (server : Request → world → HttpResult A * world)
    (req : Request) : M (HttpResult A) := λ w,
  let '(r, w') := server req w in
  mkRan (Return r) [EvUrlopen endpoint req (outcome_of r)] w'.

(** [for x in l: s = body x s]. *)
Fixpoint for_each {A S} (l : list A) (body : A → S → M S) (s : S) : M S :=
  match l with
  | [] => ret s
  | x :: l' => s' <- body x s ;; for_each l' body s'
  end.

(** [for i, x in enumerate(l): body i x], counting from [i]. *)
Fixpoint for_enumerate {A} (i : nat) (l : list A) (body : nat → A → M unit) : M unit :=
  match l with
  | [] => ret tt
  | x :: l' => body i x ;; for_enumerate (S i) l' body
  end.

Definition nl : string := String (ascii_of_nat 10) EmptyString.

(** [progress(iteration, total, prefix, suffix)] writes one progress bar. *)
Definition progress (iteration total : nat) (prefix suffix : string) : M unit :=
  emit (EvProgress iteration total prefix suffix).

(** ** Client methods *)

Definition verbose_print (self : Client) (line : string) : M unit :=
  if verbose self then print line else ret tt.

(** [Client.validate_dd_api_key].  A header value of [None] makes the
    request fail with a [TypeError]. *)
Definition validate_dd_api_key (self : Client) : M unit :=
  match dd_api_key self with
  | None => raise TypeError
  | Some key =>
      let url := "https://api." +:+ py_str (dd_site self) +:+ "/api/v1/validate" in
      let req := mkRequest "GET" url [] [("DD-API-KEY", key)] NoPayload in
      r <- urlopen ApiValidate urlopen_validate req ;;
      match r with
      | Response status body _ =>
          if negb (status =? 200)%Z
          then raise (Exception
                 ("Invalid Datadog API key! Please check your Datadog site and API key."
                  +:+ nl +:+ str_Z status +:+ " " +:+ body))
          else ret tt
      | HTTPError code body =>
          raise (Exception
            ("Error validating Datadog API key! " +:+ nl +:+ str_Z code +:+ " " +:+ body))
      end
  end.

(** The request [list_projects] builds: with a continuation token the
    parameters are replaced by the token alone. *)
Definition projects_request (self : Client) (continuation_token : option string) : Request :=
  let base_url := _az_base_url self +:+ "/_apis/projects" in
  let params :=
    if truthy continuation_token
    then [("continuationToken", py_str continuation_token)]
    else [("api-version", "7.1")] in
  mkRequest "GET" base_url params (_az_auth_headers self) NoPayload.

(** [Client.list_projects].  [depth] is the recursion depth the interpreter
    still allows; the call raises [RecursionError] when it is used up. *)
Fixpoint list_projects (depth : nat) (self : Client) (continuation_token : option string)
    : M (list Project) :=
  match depth with
  | O => raise RecursionError
  | S depth' =>
      let req := projects_request self continuation_token in
      r <- urlopen ApiProjects urlopen_projects req ;;
      match r with
      | Response status body data =>
          if negb (status =? 200)%Z
          then raise (AzureDevOpsException "Error listing Azure DevOps projects"
                        (mkResponseObj status body))
          else
            let projects := page_value data in
            let continuation_token := page_continuation_token data in
            if truthy continuation_token
            then
              more <- list_projects depth' self continuation_token ;;
              ret (projects ++ more)
            else ret projects
      | HTTPError code body =>
          raise (AzureDevOpsException "Error listing Azure DevOps projects"
                   (mkResponseObj code body))
      end
  end.

(** [Client.get_existing_hooks]. *)
Definition get_existing_hooks (self : Client) : M (list Hook) :=
  let url := _az_base_url self +:+ "/_apis/hooks/subscriptionsquery?api-version=7.1" in
  let payload := QueryPayload (mkSubscriptionsQuery "webHooks" "url" (_webhook_url self) "equals") in
  let headers := _az_auth_headers self ++ [("Content-Type", "application/json")] in
  let req := mkRequest "POST" url [] headers payload in
  r <- urlopen ApiSubscriptionsQuery urlopen_subscriptionsquery req ;;
  match r with
  | Response status body data =>
      if negb (status =? 200)%Z
      then raise (AzureDevOpsException "Error listing service hooks" (mkResponseObj status body))
      else ret data
  | HTTPError code body =>
      raise (AzureDevOpsException "Error listing service hooks" (mkResponseObj code body))
  end.

(** The JSON body [configure_service_hook] posts. *)
Definition subscription_payload (self : Client) (key : string) (project : Project)
    (event_type : string) : Subscription :=
  let publisher_id := _get_publisher_id event_type in
  let resource_version := resource_version_of event_type in
  {| publisherId := publisher_id;
     eventType := event_type;
     resourceVersion := resource_version;
     consumerId := "webHooks";
     consumerActionId := "httpRequest";
     publisherInputs_projectId := project_id project;
     consumerInputs_url := _webhook_url self;
     consumerInputs_httpHeaders := "dd-api-key: " +:+ key |}.

Definition subscriptions_request (self : Client) (key : string) (project : Project)
    (event_type : string) : Request :=
  mkRequest "POST" (_az_base_url self +:+ "/_apis/hooks/subscriptions?api-version=7.1") []
    (_az_auth_headers self ++ [("Content-Type", "application/json")])
    (SubscriptionPayload (subscription_payload self key project event_type)).

(** [Client.configure_service_hook].  Concatenating the header prefix with a
    key that is [None] raises [TypeError]. *)
Definition configure_service_hook (self : Client) (project : Project) (event_type : string)
    : M unit :=
  verbose_print self
    ("Configuring " +:+ event_type +:+ " service hook for project "
     +:+ project_name project +:+ "...") ;;
  match dd_api_key self with
  | None => raise TypeError
  | Some key =>
      let req := subscriptions_request self key project event_type in
      let message := "Error configuring service hook for project " +:+ project_name project in
      r <- urlopen ApiSubscriptions urlopen_subscriptions req ;;
      match r with
      | Response status body _ =>
          if negb (status =? 200)%Z
          then raise (AzureDevOpsException message (mkResponseObj status body))
          else ret tt
      | HTTPError code body =>
          raise (AzureDevOpsException message (mkResponseObj code body))
      end
  end.

Definition delete_request (self : Client) (hook : Hook) : Request :=
  mkRequest "DELETE"
    (_az_base_url self +:+ "/_apis/hooks/subscriptions/" +:+ hook_id hook +:+ "?api-version=7.1")
    [] (_az_auth_headers self) NoPayload.

(** [Client.delete_service_hook]. *)
Definition delete_service_hook (self : Client) (hook : Hook) : M unit :=
  verbose_print self
    ("Removing " +:+ hook_eventType hook +:+ " service hook for project "
     +:+ hook_projectId hook +:+ "...") ;;
  let message := "Error deleting service hook " +:+ hook_id hook in
  r <- urlopen ApiDelete urlopen_delete (delete_request self hook) ;;
  match r with
  | Response status body _ =>
      if negb (status =? 204)%Z
      then raise (AzureDevOpsException message (mkResponseObj status body))
      else ret tt
  | HTTPError code body =>
      if negb (code =? 204)%Z
      then raise (AzureDevOpsException message (mkResponseObj code body))
      else ret tt
  end.

(** The dict [existing_hooks_by_project_type]: a later hook with the same
    key replaces an earlier one. *)
Definition existing_hooks_by_project_type (hooks : list Hook)
    : gmap (string * string) Hook :=
  foldl (λ d hook, <[(hook_projectId hook, hook_eventType hook) := hook]> d) ∅ hooks.

(** The reconciliation loop of [Client.install_hooks]: it returns [toProcess]
    and [numProjectsMissingAtLeastOne]. *)
Definition find_missing (self : Client) (projects : list Project)
    (existing : gmap (string * string) Hook) : M (list (Project * string) * nat) :=
  for_each projects
    (λ project '(toProcess, numProjectsMissingAtLeastOne),
       r <- for_each EVENT_TYPES
              (λ event_type '(toProcess, missingAtLeastOne),
                 if bool_decide (existing !! (project_id project, event_type) = None)
                 then ret (toProcess ++ [(project, event_type)], true)
                 else
                   verbose_print self
                     (event_type +:+ " service hook is already configured for project "
                      +:+ project_name project) ;;
                   ret (toProcess, missingAtLeastOne))
              (toProcess, false) ;;
       let '(toProcess, missingAtLeastOne) := r in
       ret (toProcess,
            if missingAtLeastOne : bool
            then S numProjectsMissingAtLeastOne
            else numProjectsMissingAtLeastOne))
    ([], 0%nat).

(** The creation loop of [Client.install_hooks], [total] being
    [len(toProcess)] and [i] the index [enumerate] starts from. *)
Definition configure_all (self : Client) (total : nat) (i : nat)
    (toProcess : list (Project * string)) : M unit :=
  for_enumerate i toProcess
    (λ i '(project, event_type),
       progress (i + 1) total "Configuring service hooks"
         (project_name project +:+ " - " +:+ event_type) ;;
       configure_service_hook self project event_type).

(** The deletion loop of [Client.uninstall_hooks]. *)
Definition delete_all (self : Client) (total : nat) (i : nat) (hooks : list Hook) : M unit :=
  for_enumerate i hooks
    (λ i hook,
       progress (i + 1) total "Uninstalling service hooks"
         (hook_projectId hook +:+ " - " +:+ hook_eventType hook) ;;
       delete_service_hook self hook).

(** [Client.install_hooks] after the reconciliation loop: the report when
    nothing is missing, else the confirmation and the creations. *)
Definition install_missing (self : Client) (projects : list Project)
    (toProcess : list (Project * string)) (numProjectsMissingAtLeastOne : nat) : M unit :=
  if (length toProcess =? 0)%nat
  then
    match project self with
    | None =>
        print ("All " +:+ str_nat (length projects) +:+ " projects in "
               +:+ py_str (az_devops_org self)
               +:+ " already have Datadog service hooks correctly configured!")
    | Some name =>
        print ("The project " +:+ name
               +:+ " already has Datadog service hooks correctly configured!")
    end
  else
    match project self with
    | None =>
        yesno <- py_input
          (str_nat numProjectsMissingAtLeastOne +:+ " of " +:+ str_nat (length projects)
           +:+ " projects in " +:+ py_str (az_devops_org self)
           +:+ " are missing at least one service hook." +:+ nl
           +:+ "Please confirm that you want to configure service hooks for these "
           +:+ str_nat numProjectsMissingAtLeastOne +:+ " projects (yes/no): ") ;;
        if negb (confirms yesno)
        then print "Exiting." ;; exit 1
        else ret tt
    | Some _ => ret tt
    end ;;
    configure_all self (length toProcess) 0 toProcess ;;
    match project self with
    | None =>
        print (nl +:+ "Successfully configured " +:+ str_nat (length toProcess)
               +:+ " service hooks among " +:+ str_nat numProjectsMissingAtLeastOne
               +:+ " projects in " +:+ py_str (az_devops_org self) +:+ "!")
    | Some name =>
        print (nl +:+ "Successfully configured " +:+ str_nat (length toProcess)
               +:+ " service hooks in project " +:+ name +:+ "!")
    end.

(** [Client.install_hooks] from the point where the projects in scope and the
    existing hooks have been fetched. *)
Definition install_reconciled (self : Client) (projects : list Project) (hooks : list Hook)
    : M unit :=
  let existing_hooks_by_project_type := existing_hooks_by_project_type hooks in
  r <- find_missing self projects existing_hooks_by_project_type ;;
  let '(toProcess, numProjectsMissingAtLeastOne) := r in
  install_missing self projects toProcess numProjectsMissingAtLeastOne.

(** The projects in scope: all of them, or those named [self.project]. *)
Definition in_scope (self : Client) (projects : list Project) : list Project :=
  match project self with
  | Some name => List.filter (λ p, String.eqb (project_name p) name) projects
  | None => projects
  end.

(** [Client.install_hooks]. *)
Definition install_hooks (depth : nat) (self : Client) : M unit :=
  validate_dd_api_key self ;;
  projects <- list_projects depth self None ;;
  let projects := in_scope self projects in
  if (length projects =? 0)%nat
  then
    match project self with
    | None => print ("No projects found in " +:+ py_str (az_devops_org self) +:+ ".")
    | Some name =>
        print ("Project " +:+ name +:+ " not found in " +:+ py_str (az_devops_org self))
    end
  else
    hooks <- get_existing_hooks self ;;
    install_reconciled self projects hooks.

(** [Client.uninstall_hooks]. *)
Definition uninstall_hooks (self : Client) : M unit :=
  match project self with
  | Some _ =>
      print "Specifying a single project is not supported for the uninstallation command."
  | None =>
      hooks <- get_existing_hooks self ;;
      if (length hooks =? 0)%nat
      then print "No Datadog service hooks found."
      else
        let project_count := size (list_to_set (hook_projectId <$> hooks) : gset string) in
        print ("Found " +:+ str_nat (length hooks) +:+ " Datadog service hooks among "
               +:+ str_nat project_count +:+ " projects in "
               +:+ py_str (az_devops_org self) +:+ ".") ;;
        (yesno <- py_input
           ("Are you sure you want to uninstall these " +:+ str_nat project_count
            +:+ " Datadog service hooks ? This will break the integration with Datadog. (yes/no): ") ;;
         if negb (confirms yesno)
         then print "Exiting." ;; exit 1
         else ret tt) ;;
        delete_all self (length hooks) 0 hooks ;;
        print (nl +:+ "Successfully uninstalled " +:+ str_nat (length hooks)
               +:+ " Datadog service hooks among " +:+ str_nat project_count
               +:+ " projects in " +:+ py_str (az_devops_org self) +:+ "!")
  end.

(** ** The entry point *)

(** The two environment variables [main] reads. *)
Record Environ := mkEnviron {
  AZURE_DEVOPS_TOKEN : option string;
  DD_API_KEY : option string
}.

(** The namespace [parser.parse_args()] returns. *)
Record Args := mkArgs {
  args_dd_site : option string;
  args_az_devops_org : option string;
  args_verbose : bool;
  args_uninstall : bool;
  args_project : option string
}.

(** [v is None or v == ""]. *)
Definition not_set (v : option string) : bool :=
  match v with
  | None => true
  | Some s => String.eqb s ""
  end.

(** The [Client] that [main] builds. *)
Definition make_client (environ : Environ) (args : Args) : Client :=
  mkClient (args_az_devops_org args) (py_str (AZURE_DEVOPS_TOKEN environ)) (args_dd_site args)
    (DD_API_KEY environ) (args_verbose args) (args_project args).

(** [response.status_code] and [response.text], as the handler of [main]
    reads them.  The object is urllib's, which has [status], [code] and
    [read()] but neither of these attributes: the read raises
    [AttributeError]. *)
Definition status_code (response : ResponseObj) : M Z :=
  raise (AttributeError "status_code").

Definition text (response : ResponseObj) : M string :=
  raise (AttributeError "text").

(** [main], from the parsed arguments on.  The handler compares
    [e.response.status_code] with 401, 403 and 203, reading the attribute
    for each comparison; the model reads it once, to the same effect.  As
    the read raises, the handler prints nothing and the [AttributeError]
    leaves [main] in place of the [AzureDevOpsException]. *)
Definition main (depth : nat) (environ : Environ) (args : Args) : M unit :=
  let az_devops_token := AZURE_DEVOPS_TOKEN environ in
  if not_set az_devops_token
  then print "AZURE_DEVOPS_TOKEN is not set in your environment." ;; exit 1
  else
    let dd_api_key := DD_API_KEY environ in
    if (negb (args_uninstall args) && not_set dd_api_key)%bool
    then print "DD_API_KEY is not set in your environment." ;; exit 1
    else
      let client := make_client environ args in
      try_except
        (if args_uninstall args
         then uninstall_hooks client
         else install_hooks depth client)
        (λ _ response,
           code <- status_code response ;;
           (if ((code =? 401)%Z || (code =? 403)%Z || (code =? 203)%Z)%bool
            then print "Invalid Azure DevOps token! Please check that your Azure DevOps token is valid and has admin access to the organization."
            else
              body <- text response ;;
              print (str_Z code +:+ " error from Azure DevOps API: " +:+ body)) ;;
           exit 1).

End Script.

(** The exit status of the process: [0] when [main] returns, the code of a
    [SystemExit], and [1] for any other exception that reaches the top. *)
Definition exit_status {A} (r : Result A) : Z :=
  match r with
  | Return _ => 0
  | Raise (SystemExit code) => code
  | Raise _ => 1
  end.

(** ** Reading a trace *)

Definition is_print (ev : Event) : bool :=
  match ev with EvPrint _ => true | _ => false end.

Definition is_input (ev : Event) : bool :=
  match ev with EvInput _ _ => true | _ => false end.

Definition is_urlopen (ev : Event) : bool :=
  match ev with EvUrlopen _ _ _ => true | _ => false end.

Definition is_creation (ev : Event) : bool :=
  match ev with EvUrlopen ApiSubscriptions _ _ => true | _ => false end.

(** The requests a trace sends to one endpoint, in order. *)
Fixpoint requests_to (endpoint : Endpoint) (tr : list Event) : list Request :=
  match tr with
  | [] => []
  | EvUrlopen ep req _ :: tr' =>
      if bool_decide (ep = endpoint)
      then req :: requests_to endpoint tr'
      else requests_to endpoint tr'
  | _ :: tr' => requests_to endpoint tr'
  end.

(** A call that makes the gateway method raise: the deletion wants status
    204, every other endpoint a returned response of status 200. *)
Definition call_failed (endpoint : Endpoint) (out : Outcome) : bool :=
  match endpoint, out with
  | ApiDelete, Returned status => negb (status =? 204)%Z
  | ApiDelete, Failed code => negb (code =? 204)%Z
  | _, Returned status => negb (status =? 200)%Z
  | _, Failed _ => true
  end.

Definition status_of (out : Outcome) : Z :=
  match out with
  | Returned status => status
  | Failed code => code
  end.

(** The user answered a prompt with something other than yes. *)
Definition declined (tr : list Event) : bool :=
  existsb (λ ev, match ev with EvInput _ answer => negb (confirms answer) | _ => false end) tr.

(** A call to the Azure DevOps API failed. *)
Definition remote_error (tr : list Event) : bool :=
  existsb (λ ev, match ev with
                 | EvUrlopen ApiValidate _ _ => false
                 | EvUrlopen ep _ out => call_failed ep out
                 | _ => false
                 end) tr.

(** The Datadog API key did not validate, or Azure DevOps turned the token
    down (401, 403, or the 203 of the login redirect). *)
Definition invalid_credential (tr : list Event) : bool :=
  existsb (λ ev, match ev with
                 | EvUrlopen ApiValidate _ out => call_failed ApiValidate out
                 | EvUrlopen ep _ out =>
                     call_failed ep out
                     && bool_decide (status_of out ∈ [401; 403; 203]%Z)
                 | _ => false
                 end) tr.

(** A required environment variable is not set: the token always, the API
    key unless uninstalling. *)
Definition missing_environment (environ : Environ) (args : Args) : bool :=
  not_set (AZURE_DEVOPS_TOKEN environ)
  || (negb (args_uninstall args) && not_set (DD_API_KEY environ)).

(** ** The reconciliation, as a function *)

(** The key under which the dict files a hook. *)
Definition hook_key (hook : Hook) : string * string :=
  (hook_projectId hook, hook_eventType hook).

(** The key of a desired pair is not a key of an existing hook. *)
Definition missing (hooks : list Hook) (pair : Project * string) : bool :=
  bool_decide ((project_id pair.1, pair.2) ∉ hook_key <$> hooks).

(** The desired pairs in iteration order, without those already present. *)
Definition to_process (projects : list Project) (hooks : list Hook)
    : list (Project * string) :=
  List.filter (missing hooks) (list_prod projects EVENT_TYPES).

(** ** A simulated organization

    A small server and terminal to run the script against: the validation,
    creation and deletion endpoints answer with a fixed result, the project
    listing serves its pages one per request, the subscription query returns
    the stored hooks, a creation that answers 200 stores the new hook, and
    the terminal reads its answers from a list.  The first listing request
    gets the first page and each continuation the page after the last one
    served. *)
Record Sim := mkSim {
  sim_validate : HttpResult unit;
  sim_pages : list (HttpResult ProjectsPage);
  sim_cursor : nat;
  sim_query_status : Z;
  sim_hooks : list Hook;
  sim_create : HttpResult unit;
  sim_delete : HttpResult unit;
  sim_answers : list string
}.

Definition sim_list_projects (req : Request) (w : Sim) : HttpResult ProjectsPage * Sim :=
  let cursor :=
    if bool_decide (req_params req = [("api-version", "7.1")]) then 0%nat else sim_cursor w in
  (nth cursor (sim_pages w) (Response 200 "" (mkPage [] None)),
   mkSim (sim_validate w) (sim_pages w) (S cursor) (sim_query_status w) (sim_hooks w)
     (sim_create w) (sim_delete w) (sim_answers w)).

Definition sim_create_hook (req : Request) (w : Sim) : HttpResult unit * Sim :=
  match sim_create w, req_data req with
  | Response 200 _ _, SubscriptionPayload s =>
      let hook := mkHook ("hook-" +:+ str_nat (length (sim_hooks w)))
                    (publisherInputs_projectId s) (eventType s) in
      (sim_create w,
       mkSim (sim_validate w) (sim_pages w) (sim_cursor w) (sim_query_status w)
         (sim_hooks w ++ [hook])
         (sim_create w) (sim_delete w) (sim_answers w))
  | _, _ => (sim_create w, w)
  end.

Definition sim_input (prompt : string) (w : Sim) : string * Sim :=
  match sim_answers w with
  | [] => ("", w)
  | answer :: answers =>
      (answer, mkSim (sim_validate w) (sim_pages w) (sim_cursor w) (sim_query_status w)
                 (sim_hooks w) (sim_create w) (sim_delete w) answers)
  end.

Definition SimRemote : Remote := {|
  world := Sim;
  urlopen_validate := λ _ w, (sim_validate w, w);
  urlopen_projects := sim_list_projects;
  urlopen_subscriptionsquery := λ _ w, (Response (sim_query_status w) "" (sim_hooks w), w);
  urlopen_subscriptions := sim_create_hook;
  urlopen_delete := λ _ w, (sim_delete w, w);
  input := sim_input
|}.

(** Sample data. *)
Definition alpha : Project := mkProject "id-alpha" "Alpha".
Definition beta : Project := mkProject "id-beta" "Beta".
Definition alpha_twin : Project := mkProject "id-alpha-2" "Alpha".

Definition sample_client (proj : option string) : Client :=
  mkClient (Some "org") "token" (Some "datadoghq.com") (Some "key") false proj.

Definition sample_environ : Environ := mkEnviron (Some "token") (Some "key").

Definition sample_world (pages : list (HttpResult ProjectsPage)) (hooks : list Hook)
    (answers : list string) : Sim :=
  mkSim (Response 200 "" tt) pages 0 200 hooks (Response 200 "" tt) (Response 204 "" tt) answers.

Definition sample_args (uninstall : bool) (proj : option string) : Args :=
  mkArgs (Some "datadoghq.com") (Some "org") false uninstall proj.

(** Two pages of one project each; the first carries a token. *)
Definition two_pages : list ProjectsPage :=
  [mkPage [alpha] (Some "t1"); mkPage [beta] None].

(** Hooks for seven of the nine event types of [alpha]: "git.push" and the
    run-state event are missing. *)
Definition alpha_hooks : list Hook :=
  map (λ e, mkHook ("h-" +:+ e) "id-alpha" e)
    [ "git.pullrequest.created";
      "git.pullrequest.updated";
      "ms.vss-pipelines.stage-state-changed-event";
      "ms.vss-pipelines.job-state-changed-event";
      "ms.vss-pipelinechecks-events.approval-pending";
      "ms.vss-pipelinechecks-events.approval-completed";
      "build.complete" ].

(** An organization of [alpha] and [beta] with [alpha_hooks], whose user
    answers yes. *)
Definition two_project_world : Sim :=
  sample_world (Response 200 "" <$> two_pages) alpha_hooks ["yes"].

(** An organization whose creation endpoint answers [created]. *)
Definition world_creating (created : HttpResult unit) : Sim :=
  mkSim (Response 200 "" tt) (Response 200 "" <$> two_pages) 0 200 alpha_hooks
    created (Response 204 "" tt) ["yes"].

(** ** How a run may end

    A method that returns has seen no failed call and no declined prompt; a
    [SystemExit] carries code 1 and follows a declined prompt; an
    [AzureDevOpsException] follows a failed Azure DevOps call; the plain
    [Exception] follows a failed key validation; a [RecursionError] comes
    with none of these; the two workflows raise nothing else. *)
Definition classified {A} (r : Result A) (tr : list Event) : Prop :=
  match r with
  | Return _ => declined tr = false ∧ remote_error tr = false ∧ invalid_credential tr = false
  | Raise (SystemExit code) => code = 1 ∧ declined tr = true
  | Raise (AzureDevOpsException _ _) => remote_error tr = true
  | Raise (Exception _) => invalid_credential tr = true
  | Raise TypeError => False
  | Raise RecursionError =>
      declined tr = false ∧ remote_error tr = false ∧ invalid_credential tr = false
  | Raise (AttributeError _) => False
  end.

(** An event that is no prompt and, if it is a call, goes to one of the
    listed endpoints. *)
Definition only (endpoints : list Endpoint) (ev : Event) : bool :=
  match ev with
  | EvUrlopen ep _ _ => bool_decide (ep ∈ endpoints)
  | EvInput _ _ => false
  | EvPrint _ | EvProgress _ _ _ _ => true
  end.

(** Every creation call of a trace comes after a prompt that was answered
    with yes. *)
Definition creations_confirmed (tr : list Event) : Prop :=
  ∀ pre req out post,
    tr = pre ++ EvUrlopen ApiSubscriptions req out :: post →
    ∃ prompt answer, EvInput prompt answer ∈ pre ∧ confirms answer = true.

Definition sound {R : Remote} {A} (m : M A) : Prop :=
  ∀ w, classified (result (m w)) (trace (m w)).

(** Every event a computation emits satisfies [P]. *)
Definition emits {R : Remote} {A} (P : Event → bool) (m : M A) : Prop :=
  ∀ w, forallb P (trace (m w)) = true.

(** A computation that never raises [RecursionError]. *)
Definition no_recursion_error {R : Remote} {A} (m : M A) : Prop :=
  ∀ w, result (m w) ≠ Raise RecursionError.

(** The server answers the listing that starts with [token] at [w] with
    exactly the pages [pages], each with status 200: every page but the last
    carries a continuation token, which the next request presents, the last
    carries none, and the world is [w_end] afterwards. *)
Fixpoint serves {R : Remote} (self : Client) (token : option string) (w : world)
    (pages : list ProjectsPage) (w_end : world) : Prop :=
  match pages with
  | [] => False
  | page :: rest =>
      ∃ body w',
        urlopen_projects (projects_request self token) w = (Response 200 body page, w')
        ∧ match rest with
          | [] => truthy (page_continuation_token page) = false ∧ w' = w_end
          | _ :: _ =>
              truthy (page_continuation_token page) = true
              ∧ serves self (page_continuation_token page) w' rest w_end
          end
  end.

(** ** More readings of a run *)

(** The projects in scope that lack at least one hook. *)
Definition projects_missing (projects : list Project) (hooks : list Hook) : list Project :=
  List.filter (λ p, existsb (λ e, missing hooks (p, e)) EVENT_TYPES) projects.

Definition is_deletion (ev : Event) : bool :=
  match ev with EvUrlopen ApiDelete _ _ => true | _ => false end.

(** A call after which the gateway method raises. *)
Definition is_failed_call (ev : Event) : bool :=
  match ev with EvUrlopen ep _ out => call_failed ep out | _ => false end.

(** After a failed call a trace holds nothing but prints. *)
Definition fail_fast (tr : list Event) : Prop :=
  ∀ pre ev post,
    tr = pre ++ ev :: post → is_failed_call ev = true → forallb is_print post = true.

(** A computation stops at its first failed call, and has seen none when
    it returns. *)
Definition fails_fast {R : Remote} {A} (m : M A) : Prop :=
  ∀ w, fail_fast (trace (m w))
       ∧ (∀ a, result (m w) = Return a →
            forallb (λ ev, negb (is_failed_call ev)) (trace (m w)) = true).

(** Every deletion call of a trace comes after a prompt that was answered
    with yes. *)
Definition deletions_confirmed (tr : list Event) : Prop :=
  ∀ pre req out post,
    tr = pre ++ EvUrlopen ApiDelete req out :: post →
    ∃ prompt answer, EvInput prompt answer ∈ pre ∧ confirms answer = true.

(** An event that, if it is a call, goes to one of the listed endpoints. *)
Definition calls_only (endpoints : list Endpoint) (ev : Event) : bool :=
  match ev with
  | EvUrlopen ep _ _ => bool_decide (ep ∈ endpoints)
  | _ => true
  end.

(** A trace without its prints. *)
Definition quiet (tr : list Event) : list Event :=
  List.filter (λ ev, negb (is_print ev)) tr.

(** Two computations that differ in what they print at most. *)
Definition quietly_equal {R : Remote} {A} (m1 m2 : M A) : Prop :=
  ∀ w, result (m1 w) = result (m2 w)
       ∧ final (m1 w) = final (m2 w)
       ∧ quiet (trace (m1 w)) = quiet (trace (m2 w)).

(** The same client with another [verbose] flag. *)
Definition with_verbose (flag : bool) (self : Client) : Client :=
  mkClient (az_devops_org self) (az_devops_token self) (dd_site self) (dd_api_key self)
    flag (project self).

(** The same arguments with another [--verbose] flag. *)
Definition args_with_verbose (flag : bool) (args : Args) : Args :=
  mkArgs (args_dd_site args) (args_az_devops_org args) flag (args_uninstall args)
    (args_project args).

(** A call of [self] is addressed as its endpoint wants: the key validation
    goes to the Datadog site with the API key as its only header; every other
    call goes to a URL of the organization and carries the bearer token. *)
Definition well_addressed (self : Client) (ev : Event) : bool :=
  match ev with
  | EvUrlopen ApiValidate req _ =>
      bool_decide (req_url req = "https://api." +:+ py_str (dd_site self) +:+ "/api/v1/validate")
      && bool_decide (req_headers req = [("DD-API-KEY", py_str (dd_api_key self))])
  | EvUrlopen _ req _ =>
      startswith (req_url req) (_az_base_url self +:+ "/_apis/")
      && bool_decide (("Authorization", "Bearer " +:+ az_devops_token self) ∈ req_headers req)
  | _ => true
  end.

(** A progress event whose step lies between 1 and its total. *)
Definition progress_in_range (ev : Event) : bool :=
  match ev with
  | EvProgress iteration total _ _ => Nat.leb 1 iteration && Nat.leb iteration total
  | _ => true
  end.

(** ** The progress bar *)

(** [s * n]: the string repeated, empty when [n] is not positive. *)
Definition repeat_string (s : string) (n : Z) : string :=
  Nat.iter (Z.to_nat n) (String.append s) EmptyString.

(** [filled_length] of [progress]: [int(length * iteration // total)]. *)
Definition filled_length (iteration total length : Z) : Z :=
  (length * iteration) `div` total.

(** [bar] of [progress]. *)
Definition progress_bar (iteration total length : Z) (fill : string) : string :=
  repeat_string fill (filled_length iteration total length)
  +:+ repeat_string "-" (length - filled_length iteration total length).

(** * Properties *)

Section Properties.

Context {R : Remote}.

(** ** Runs *)

Lemma bind_run {A B} (m : M A) (k : A → M B) (w : world) :
  bind m k w =
  match result (m w) with
  | Return a =>
      mkRan (result (k a (final (m w)))) (trace (m w) ++ trace (k a (final (m w))))
        (final (k a (final (m w))))
  | Raise e => mkRan (Raise e) (trace (m w)) (final (m w))
  end.
Proof. reflexivity. Qed.

Lemma for_each_cons {A S} (x : A) (l : list A) (body : A → S → M S) (s : S) :
  for_each (x :: l) body s = bind (body x s) (λ s', for_each l body s').
Proof. reflexivity. Qed.

Lemma for_enumerate_cons {A} (i : nat) (x : A) (l : list A) (body : nat → A → M unit) :
  for_enumerate i (x :: l) body = bind (body i x) (λ _, for_enumerate (S i) l body).
Proof. reflexivity. Qed.

Lemma emits_ret {A} P (a : A) : emits P (ret a).
Proof. by intros w. Qed.

Lemma emits_raise {A} P e : emits P (raise (A:=A) e).
Proof. by intros w. Qed.

Lemma emits_bind {A B} P (m : M A) (k : A → M B) :
  emits P m → (∀ a, emits P (k a)) → emits P (bind m k).
Proof.
  intros Hm Hk w. rewrite bind_run. specialize (Hm w).
  destruct (result (m w)) as [a|e]; simpl; [|done].
  rewrite forallb_app, Hm. apply Hk.
Qed.

Lemma emits_emit P ev : P ev = true → emits P (emit ev).
Proof. intros HP w. simpl. by rewrite HP. Qed.

Lemma emits_urlopen {A} P ep (server : Request → world → HttpResult A * world) req :
  (∀ out, P (EvUrlopen ep req out) = true) → emits P (urlopen ep server req).
Proof. intros HP w. unfold urlopen. destruct (server req w). simpl. by rewrite HP. Qed.

Lemma emits_for_enumerate {A} P (l : list A) (body : nat → A → M unit) :
  (∀ i x, emits P (body i x)) → ∀ i, emits P (for_enumerate i l body).
Proof.
  intros Hbody. induction l as [|x l IH]; intros i; simpl.
  - apply emits_ret.
  - apply emits_bind; auto.
Qed.

Lemma emits_weaken {A} (P Q : Event → bool) (m : M A) :
  (∀ ev, P ev = true → Q ev = true) → emits P m → emits Q m.
Proof.
  intros HPQ Hm w. specialize (Hm w). rewrite forallb_forall in *. auto.
Qed.

Lemma classified_app {A} (r : Result A) (tr1 tr2 : list Event) :
  declined tr1 = false → remote_error tr1 = false → invalid_credential tr1 = false →
  classified r tr2 → classified r (tr1 ++ tr2).
Proof.
  intros H1 H2 H3. unfold classified, declined, remote_error, invalid_credential in *.
  rewrite !existsb_app, H1, H2, H3. done.
Qed.

Lemma sound_ret {A} (a : A) : sound (ret a).
Proof. by intros w. Qed.

Lemma sound_bind {A B} (m : M A) (k : A → M B) :
  sound m → (∀ a, sound (k a)) → sound (bind m k).
Proof.
  intros Hm Hk w. rewrite bind_run. specialize (Hm w).
  destruct (result (m w)) as [a|e]; simpl; [|done].
  destruct Hm as (H1 & H2 & H3). apply classified_app; auto. apply Hk.
Qed.

Lemma sound_emit ev : only [] ev = true → sound (emit ev).
Proof. intros Hev w. by destruct ev. Qed.

Lemma sound_for_enumerate {A} (l : list A) (body : nat → A → M unit) :
  (∀ i x, sound (body i x)) → ∀ i, sound (for_enumerate i l body).
Proof.
  intros Hbody. induction l as [|x l IH]; intros i; simpl.
  - apply sound_ret.
  - apply sound_bind; auto.
Qed.

(** ** Strings *)

Lemma append_String (c : ascii) (p rest : string) :
  String c p +:+ rest = String c (p +:+ rest).
Proof. reflexivity. Qed.

Lemma startswith_spec (s p : string) :
  startswith s p = true ↔ ∃ rest, s = p +:+ rest.
Proof.
  unfold startswith. revert s. induction p as [|c p IH]; intros s; simpl.
  - split; [intros _; by exists s | by destruct s].
  - destruct s as [|d s]; simpl.
    + split; [done | intros [rest Hrest]; rewrite append_String in Hrest; discriminate].
    + destruct (Ascii.ascii_dec c d) as [->|Hne].
      * rewrite IH. split; intros [rest Hrest]; exists rest;
          rewrite append_String in *; congruence.
      * split; [done | intros [rest Hrest]; rewrite append_String in Hrest; congruence].
Qed.

(** ** The gateway *)

Lemma configure_service_hook_requests (self : Client) (key : string) (project : Project)
    (event_type : string) (w : world) :
  dd_api_key self = Some key →
  requests_to ApiSubscriptions (trace (configure_service_hook self project event_type w))
  = [subscriptions_request self key project event_type].
Proof.
  intros Hkey. unfold configure_service_hook, bind, verbose_print, urlopen.
  rewrite Hkey. destruct (verbose self); simpl;
    destruct (urlopen_subscriptions _ w) as [[status body []|code body] w']; simpl;
    try destruct (status =? 200)%Z; reflexivity.
Qed.

(** C5 (publisher and resource version of a creation request): the one
    request [configure_service_hook] sends posts the event type with the
    publisher "pipelines" exactly when the event type starts with
    "ms.vss-pipelines." or "ms.vss-pipelinechecks-events." and "tfs"
    otherwise, and with the resource version of [EVENT_TYPE_VERSIONS] when the
    table has one and "latest" otherwise; so "pipelines" and "latest" for the
    run-state event, "tfs" and "1.0" for "git.push". *)
Theorem creation_request_publisher_and_version
    (self : Client) (project : Project) (event_type : string) (w : world) :
  (∀ req, req ∈ requests_to ApiSubscriptions
                  (trace (configure_service_hook self project event_type w)) →
     ∃ s, req_data req = SubscriptionPayload s
          ∧ eventType s = event_type
          ∧ publisherInputs_projectId s = project_id project
          ∧ publisherId s = _get_publisher_id event_type
          ∧ resourceVersion s = resource_version_of event_type)
  ∧ (∀ key, dd_api_key self = Some key →
       requests_to ApiSubscriptions
         (trace (configure_service_hook self project event_type w))
       = [subscriptions_request self key project event_type])
  ∧ (_get_publisher_id event_type = "pipelines"
     ↔ (∃ rest, event_type = "ms.vss-pipelines." +:+ rest)
       ∨ (∃ rest, event_type = "ms.vss-pipelinechecks-events." +:+ rest))
  ∧ (_get_publisher_id event_type = "pipelines" ∨ _get_publisher_id event_type = "tfs")
  ∧ (∀ version, EVENT_TYPE_VERSIONS !! event_type = Some version →
       resource_version_of event_type = version)
  ∧ (EVENT_TYPE_VERSIONS !! event_type = None →
       resource_version_of event_type = "latest")
  ∧ _get_publisher_id "ms.vss-pipelines.run-state-changed-event" = "pipelines"
  ∧ resource_version_of "ms.vss-pipelines.run-state-changed-event" = "latest"
  ∧ _get_publisher_id "git.push" = "tfs"
  ∧ resource_version_of "git.push" = "1.0".
Proof.
  split_and!.
  - intros req Hreq. destruct (dd_api_key self) as [key|] eqn:Hkey.
    + rewrite (configure_service_hook_requests _ key) in Hreq by done. apply list_elem_of_singleton in Hreq as ->.
      by eexists.
    + exfalso. revert Hreq.
      unfold configure_service_hook, bind, verbose_print. rewrite Hkey.
      destruct (verbose self); simpl; by intros ?%elem_of_nil.
  - intros key Hkey. by apply configure_service_hook_requests.
  - unfold _get_publisher_id. rewrite <- !startswith_spec.
    destruct (startswith event_type "ms.vss-pipelines.");
      destruct (startswith event_type "ms.vss-pipelinechecks-events."); simpl;
      intuition discriminate.
  - unfold _get_publisher_id. destruct (_ || _)%bool; auto.
  - intros version Hv. unfold resource_version_of. by rewrite Hv.
  - intros Hv. unfold resource_version_of. by rewrite Hv.
  - reflexivity.
  - by vm_compute.
  - reflexivity.
  - by vm_compute.
Qed.

(** C2, as the code has it: [configure_service_hook] returns exactly when
    [urlopen] hands back a response of status 200; for every other returned
    status (201 included) and for every [HTTPError] it raises an
    [AzureDevOpsException] that carries the status. *)
Theorem configure_service_hook_succeeds_on_200_only
    (self : Client) (key : string) (project : Project) (event_type : string) (w : world) :
  dd_api_key self = Some key →
  let served := (urlopen_subscriptions (subscriptions_request self key project event_type) w).1 in
  let r := configure_service_hook self project event_type w in
  (result r = Return tt ↔ ∃ body, served = Response 200 body tt)
  ∧ (result r ≠ Return tt →
     ∃ body,
       result r = Raise (AzureDevOpsException
                    ("Error configuring service hook for project " +:+ project_name project)
                    (mkResponseObj (status_of (outcome_of served)) body))).
Proof.
  intros Hkey. simpl.
  unfold configure_service_hook, bind, verbose_print, urlopen. rewrite Hkey.
  destruct (verbose self); simpl;
    destruct (urlopen_subscriptions _ w) as [[status body []|code body] w']; simpl;
    try (destruct (Z.eqb_spec status 200) as [->|Hne]; simpl);
    (split; [split; [intros ?; try done; eauto | intros [? ?]; congruence]
            | intros ?; try done; eauto]).
Qed.

(** C6 (deletion succeeds exactly on 204): whether [urlopen] returns a
    response or raises an [HTTPError], [delete_service_hook] returns when the
    status code is 204 and raises an [AzureDevOpsException] carrying the
    status for every other code. *)
Theorem delete_service_hook_succeeds_iff_204
    (self : Client) (hook : Hook) (w : world) :
  let served := (urlopen_delete (delete_request self hook) w).1 in
  let r := delete_service_hook self hook w in
  (result r = Return tt ↔ status_of (outcome_of served) = 204)
  ∧ (status_of (outcome_of served) ≠ 204 →
     ∃ body,
       result r = Raise (AzureDevOpsException
                    ("Error deleting service hook " +:+ hook_id hook)
                    (mkResponseObj (status_of (outcome_of served)) body)))
  ∧ requests_to ApiDelete (trace r) = [delete_request self hook].
Proof.
  simpl. unfold delete_service_hook, bind, verbose_print, urlopen.
  destruct (verbose self); simpl;
    destruct (urlopen_delete _ w) as [[status body []|status body] w']; simpl;
    (destruct (Z.eqb_spec status 204) as [->|Hne]; simpl);
    (split_and!; [split; [intros ?; try done; eauto | intros ?; congruence]
                 | intros ?; try done; eauto | reflexivity]).
Qed.

(** ** What each method emits, and how it ends *)

Lemma emits_verbose_print P self line :
  (∀ l, P (EvPrint l) = true) → emits P (verbose_print self line).
Proof.
  intros HP. unfold verbose_print. destruct (verbose self).
  - by apply emits_emit.
  - apply emits_ret.
Qed.

Lemma sound_verbose_print self line : sound (verbose_print self line).
Proof. unfold verbose_print. by destruct (verbose self). Qed.

Lemma emits_validate_dd_api_key self :
  emits (only [ApiValidate]) (validate_dd_api_key self).
Proof.
  unfold validate_dd_api_key. destruct (dd_api_key self); [|apply emits_raise].
  apply emits_bind; [by apply emits_urlopen|].
  intros [status body []|code body]; [destruct (negb _)|]; by intros w.
Qed.

Lemma sound_validate_dd_api_key self key :
  dd_api_key self = Some key → sound (validate_dd_api_key self).
Proof.
  intros Hkey w. unfold validate_dd_api_key, bind, urlopen. rewrite Hkey.
  destruct (urlopen_validate _ w) as [[status body []|code body] w']; simpl; [|done].
  destruct (Z.eqb_spec status 200) as [->|Hne]; simpl; [done|].
  apply Z.eqb_neq in Hne. by rewrite Hne.
Qed.

Lemma emits_list_projects depth self token :
  emits (only [ApiProjects]) (list_projects depth self token).
Proof.
  revert token. induction depth as [|depth IH]; intros token; simpl; [apply emits_raise|].
  apply emits_bind; [by apply emits_urlopen|].
  intros [status body data|code body]; [|apply emits_raise].
  destruct (negb _); [apply emits_raise|].
  destruct (truthy _); [|apply emits_ret].
  apply emits_bind; [apply IH | intros; apply emits_ret].
Qed.

Lemma sound_urlopen_check {A B} ep (server : Request → world → HttpResult A * world) req
    (k : HttpResult A → M B) message :
  ep ≠ ApiValidate → ep ≠ ApiDelete →
  (∀ status body data, status ≠ 200 →
     k (Response status body data)
     = raise (AzureDevOpsException message (mkResponseObj status body))) →
  (∀ code body,
     k (HTTPError code body) = raise (AzureDevOpsException message (mkResponseObj code body))) →
  (∀ body data, sound (k (Response 200 body data))) →
  sound (bind (urlopen ep server req) k).
Proof.
  intros Hv Hd Hbad Herr Hok w. unfold bind, urlopen.
  destruct (server req w) as [[status body data|code body] w']; simpl.
  - destruct (decide (status = 200)) as [->|Hne].
    + apply (classified_app _ [_]); [done| |by destruct ep|apply Hok];
        destruct ep; simpl; done.
    + rewrite (Hbad _ _ _ Hne). simpl. apply Z.eqb_neq in Hne.
      destruct ep; simpl; rewrite ?Hne; done.
  - rewrite Herr. simpl. destruct ep; simpl; done.
Qed.

Lemma sound_list_projects depth self token : sound (list_projects depth self token).
Proof.
  revert token. induction depth as [|depth IH]; intros token; simpl; [done|].
  eapply sound_urlopen_check; try done.
  - intros status body data Hne. apply Z.eqb_neq in Hne. by rewrite Hne.
  - intros body data. simpl. destruct (truthy _); [|apply sound_ret].
    apply sound_bind; [apply IH | intros; apply sound_ret].
Qed.

Lemma emits_get_existing_hooks self :
  emits (only [ApiSubscriptionsQuery]) (get_existing_hooks self).
Proof.
  unfold get_existing_hooks. apply emits_bind; [by apply emits_urlopen|].
  intros [status body data|code body]; [destruct (negb _)|]; by intros w.
Qed.

Lemma sound_get_existing_hooks self : sound (get_existing_hooks self).
Proof.
  unfold get_existing_hooks. eapply sound_urlopen_check; try done.
  intros status body data Hne. apply Z.eqb_neq in Hne. by rewrite Hne.
Qed.

Lemma emits_configure_service_hook self project event_type :
  emits (only [ApiSubscriptions]) (configure_service_hook self project event_type).
Proof.
  unfold configure_service_hook. apply emits_bind; [by apply emits_verbose_print|].
  intros _. destruct (dd_api_key self); [|apply emits_raise].
  apply emits_bind; [by apply emits_urlopen|].
  intros [status body []|code body]; [destruct (negb _)|]; by intros w.
Qed.

Lemma sound_configure_service_hook self key project event_type :
  dd_api_key self = Some key → sound (configure_service_hook self project event_type).
Proof.
  intros Hkey. unfold configure_service_hook. rewrite Hkey.
  apply sound_bind; [apply sound_verbose_print|]. intros _.
  eapply sound_urlopen_check; try done.
  intros status body [] Hne. apply Z.eqb_neq in Hne. by rewrite Hne.
Qed.

Lemma sound_delete_service_hook self hook : sound (delete_service_hook self hook).
Proof.
  unfold delete_service_hook.
  apply sound_bind; [apply sound_verbose_print|]. intros _ w.
  unfold bind, urlopen.
  destruct (urlopen_delete _ w) as [[status body []|status body] w']; simpl;
    destruct (Z.eqb_spec status 204) as [->|Hne]; simpl; try done;
    apply Z.eqb_neq in Hne; by rewrite Hne.
Qed.

(** ** The reconciliation *)

Lemma existing_hooks_lookup_None (hooks : list Hook) (k : string * string) :
  existing_hooks_by_project_type hooks !! k = None ↔ k ∉ hook_key <$> hooks.
Proof.
  unfold existing_hooks_by_project_type.
  assert (Hgen : ∀ d : gmap (string * string) Hook,
            foldl (λ d hook, <[(hook_projectId hook, hook_eventType hook) := hook]> d) d hooks
              !! k = None
            ↔ d !! k = None ∧ k ∉ hook_key <$> hooks).
  { induction hooks as [|hook hooks IH]; intros d; simpl.
    - rewrite elem_of_nil. tauto.
    - rewrite IH, lookup_insert_None, not_elem_of_cons. unfold hook_key.
      intuition congruence. }
  rewrite Hgen, lookup_empty. tauto.
Qed.

Lemma not_in_dict_missing (hooks : list Hook) (project : Project) (event_type : string) :
  bool_decide (existing_hooks_by_project_type hooks !! (project_id project, event_type) = None)
  = missing hooks (project, event_type).
Proof. unfold missing. apply bool_decide_ext, existing_hooks_lookup_None. Qed.

Lemma bind_Return_run {A B} (m : M A) (k : A → M B) (w : world) a tr w' :
  m w = mkRan (Return a) tr w' →
  bind m k w = mkRan (result (k a w')) (tr ++ trace (k a w')) (final (k a w')).
Proof. intros Hm. rewrite bind_run, Hm. reflexivity. Qed.

Lemma verbose_print_run (self : Client) (line : string) (w : world) :
  ∃ prints, verbose_print self line w = mkRan (Return tt) prints w
            ∧ forallb is_print prints = true.
Proof. unfold verbose_print. destruct (verbose self); by eexists. Qed.

(** The loop computes [to_process], prints at most, and leaves the world
    alone. *)
Lemma find_missing_run (self : Client) (projects : list Project) (hooks : list Hook)
    (w : world) :
  ∃ num prints,
    find_missing self projects (existing_hooks_by_project_type hooks) w
    = mkRan (Return (to_process projects hooks, num)) prints w
    ∧ forallb is_print prints = true.
Proof.
  unfold find_missing, to_process. generalize EVENT_TYPES as types. intros types.
  match goal with |- context [for_each projects ?body _ _] => set (outer := body) end.
  assert (Hinner : ∀ project events acc flag,
            ∃ flag' prints,
              for_each events
                (λ event_type '(toProcess, missingAtLeastOne),
                   if bool_decide (existing_hooks_by_project_type hooks
                                     !! (project_id project, event_type) = None)
                   then ret (toProcess ++ [(project, event_type)], true)
                   else
                     bind (verbose_print self
                             (event_type +:+ " service hook is already configured for project "
                              +:+ project_name project))
                       (λ _, ret (toProcess, missingAtLeastOne)))
                (acc, flag) w
              = mkRan (Return (acc ++ List.filter (missing hooks) (map (pair project) events),
                               flag')) prints w
              ∧ forallb is_print prints = true).
  { intros project. induction events as [|event events IHe]; intros acc flag.
    - exists flag, []. simpl. by rewrite app_nil_r.
    - rewrite for_each_cons. cbv beta iota. rewrite not_in_dict_missing.
      simpl map. simpl List.filter.
      destruct (missing hooks (project, event)) eqn:Hm.
      + destruct (IHe (acc ++ [(project, event)]) true) as (flag' & prints & Hrun & Hp).
        erewrite bind_Return_run by reflexivity. rewrite Hrun.
        exists flag', prints. simpl. by rewrite <- app_assoc.
      + destruct (verbose_print_run self
                    (event +:+ " service hook is already configured for project "
                     +:+ project_name project) w) as (prints0 & Hrun0 & Hp0).
        destruct (IHe acc flag) as (flag' & prints & Hrun & Hp).
        erewrite bind_Return_run; [|erewrite bind_Return_run by exact Hrun0; reflexivity].
        cbv beta. simpl (final (ret _ _)). rewrite Hrun. eexists _, _. split; [reflexivity|].
        simpl. by rewrite ?forallb_app, Hp0, Hp. }
  assert (Hgen : ∀ projects acc n,
            ∃ num prints,
              for_each projects outer (acc, n) w
              = mkRan (Return (acc ++ List.filter (missing hooks) (list_prod projects types),
                               num)) prints w
              ∧ forallb is_print prints = true).
  { clear projects. induction projects as [|project projects IH]; intros acc n.
    - exists n, []. simpl. by rewrite app_nil_r.
    - rewrite for_each_cons.
      destruct (Hinner project types acc false) as (flag' & prints & Hrun & Hp).
      destruct (IH (acc ++ List.filter (missing hooks) (map (pair project) types))
                  (if flag' then S n else n)) as (num & prints' & Hrun' & Hp').
      erewrite bind_Return_run;
        [|unfold outer; erewrite bind_Return_run by exact Hrun; reflexivity].
      cbv beta. simpl (final (ret _ _)). rewrite Hrun'. simpl list_prod. rewrite List.filter_app, app_assoc.
      eexists _, _. split; [reflexivity|].
      simpl. by rewrite ?forallb_app, Hp, Hp'. }
  apply (Hgen projects [] 0%nat).
Qed.

Lemma missing_spec (hooks : list Hook) (p : Project) (e : string) :
  missing hooks (p, e) = true
  ↔ ¬ ∃ hook, hook ∈ hooks ∧ hook_projectId hook = project_id p ∧ hook_eventType hook = e.
Proof.
  unfold missing. rewrite bool_decide_eq_true, list_elem_of_fmap. unfold hook_key. simpl.
  split; intros Hn.
  - intros (hook & Hin & H1 & H2). apply Hn. exists hook. by rewrite H1, H2.
  - intros (hook & [= H1 H2] & Hin). apply Hn. by exists hook.
Qed.

Lemma to_process_spec (projects : list Project) (hooks : list Hook) (p : Project) (e : string) :
  (p, e) ∈ to_process projects hooks
  ↔ p ∈ projects ∧ e ∈ EVENT_TYPES
    ∧ ¬ ∃ hook, hook ∈ hooks ∧ hook_projectId hook = project_id p ∧ hook_eventType hook = e.
Proof.
  unfold to_process.
  rewrite list_elem_of_In, filter_In, in_prod_iff, missing_spec, <- !list_elem_of_In. tauto.
Qed.

Lemma filter_map_pair (hooks : list Hook) (p : Project) (events : list string) :
  List.filter (missing hooks) (map (pair p) events)
  = map (pair p) (List.filter (λ e, missing hooks (p, e)) events).
Proof.
  induction events as [|e events IH]; simpl; [done|].
  destruct (missing hooks (p, e)); simpl; by rewrite IH.
Qed.

Lemma to_process_in_order (projects : list Project) (hooks : list Hook) :
  to_process projects hooks
  = flat_map (λ p, map (pair p) (List.filter (λ e, missing hooks (p, e)) EVENT_TYPES)) projects.
Proof.
  unfold to_process. generalize EVENT_TYPES as types. intros types.
  induction projects as [|p projects IH]; [done|].
  simpl list_prod. simpl flat_map. by rewrite List.filter_app, IH, filter_map_pair.
Qed.

(** C1 (install selects the set difference, in order): over the fetched
    hooks, the reconciliation loop of [install_hooks] returns [to_process];
    a pair of a project and an event type is in it exactly when the project is
    in scope, the event type is one of the nine of [EVENT_TYPES] and no
    existing hook has that project id and event type; and its order is the
    loop's, projects in listing order and, within a project, event types in
    declared order. *)
Theorem install_selects_missing_pairs
    (self : Client) (projects : list Project) (hooks : list Hook) (w : world) :
  (∃ num, result (find_missing self projects (existing_hooks_by_project_type hooks) w)
          = Return (to_process projects hooks, num))
  ∧ (∀ p e, (p, e) ∈ to_process projects hooks
            ↔ p ∈ projects ∧ e ∈ EVENT_TYPES
              ∧ ¬ ∃ hook, hook ∈ hooks ∧ hook_projectId hook = project_id p
                          ∧ hook_eventType hook = e)
  ∧ to_process projects hooks
    = flat_map (λ p, map (pair p) (List.filter (λ e, missing hooks (p, e)) EVENT_TYPES))
        projects
  ∧ length EVENT_TYPES = 9%nat
  ∧ NoDup EVENT_TYPES.
Proof.
  split_and!.
  - destruct (find_missing_run self projects hooks w) as (num & prints & -> & _). by exists num.
  - apply to_process_spec.
  - apply to_process_in_order.
  - reflexivity.
  - compute_done.
Qed.


(** ** The install workflow *)

Lemma install_reconciled_run (self : Client) (projects : list Project) (hooks : list Hook)
    (w : world) :
  ∃ num prints,
    forallb is_print prints = true
    ∧ install_reconciled self projects hooks w
      = mkRan (result (install_missing self projects (to_process projects hooks) num w))
          (prints ++ trace (install_missing self projects (to_process projects hooks) num w))
          (final (install_missing self projects (to_process projects hooks) num w)).
Proof.
  destruct (find_missing_run self projects hooks w) as (num & prints & Hrun & Hp).
  exists num, prints. split; [done|].
  unfold install_reconciled. by erewrite bind_Return_run by exact Hrun.
Qed.

Lemma requests_to_app (ep : Endpoint) (tr1 tr2 : list Event) :
  requests_to ep (tr1 ++ tr2) = requests_to ep tr1 ++ requests_to ep tr2.
Proof.
  induction tr1 as [|ev tr1 IH]; [done|].
  destruct ev; simpl; try done. case_bool_decide; simpl; by rewrite IH.
Qed.

Lemma requests_to_only (ep : Endpoint) (eps : list Endpoint) (tr : list Event) :
  ep ∉ eps → forallb (only eps) tr = true → requests_to ep tr = [].
Proof.
  intros Hep. induction tr as [|ev tr IH]; [done|]. simpl.
  intros [Hev Htr]%andb_true_iff.
  destruct ev as [ep' req out| | |]; simpl in *; try done; auto.
  apply bool_decide_eq_true in Hev. case_bool_decide as Heq; [|auto]. by subst.
Qed.

Lemma forallb_is_print_only (eps : list Endpoint) (tr : list Event) :
  forallb is_print tr = true → forallb (only eps) tr = true.
Proof. rewrite !forallb_forall. intros H ev Hev. specialize (H ev Hev). by destruct ev. Qed.

Lemma emits_configure_all self total i toProcess :
  emits (only [ApiSubscriptions]) (configure_all self total i toProcess).
Proof.
  apply emits_for_enumerate. intros j [project event_type].
  apply emits_bind; [by apply emits_emit|]. intros _. apply emits_configure_service_hook.
Qed.

Lemma sound_configure_all self key total i toProcess :
  dd_api_key self = Some key → sound (configure_all self total i toProcess).
Proof.
  intros Hkey. apply sound_for_enumerate. intros j [project event_type].
  apply sound_bind; [by apply sound_emit|]. intros _.
  by eapply sound_configure_service_hook.
Qed.

Lemma configure_all_requests self key total i toProcess w :
  dd_api_key self = Some key →
  result (configure_all self total i toProcess w) = Return tt →
  requests_to ApiSubscriptions (trace (configure_all self total i toProcess w))
  = map (λ pair, subscriptions_request self key pair.1 pair.2) toProcess.
Proof.
  intros Hkey. unfold configure_all. revert i w.
  induction toProcess as [|[project event_type] toProcess IH]; intros i w; [done|].
  rewrite for_enumerate_cons, bind_run.
  match goal with |- context [result (?m w)] => set (body := m) end.
  pose proof (configure_service_hook_requests self key project event_type w Hkey) as Hreq.
  assert (Hbody : requests_to ApiSubscriptions (trace (body w))
                  = [subscriptions_request self key project event_type]).
  { unfold body. rewrite bind_run. simpl. exact Hreq. }
  destruct (result (body w)) as [[]|e] eqn:Hres; cbn [result trace final]; [|done].
  intros Hrest. rewrite requests_to_app, Hbody, (IH _ _ Hrest). done.
Qed.

Lemma creations_confirmed_cons (ev : Event) (tr : list Event) :
  is_creation ev = false → creations_confirmed tr → creations_confirmed (ev :: tr).
Proof.
  intros Hev Htr [|ev' pre] req out post; simpl; intros [= -> Heq]; [done|].
  destruct (Htr pre req out post Heq) as (prompt & answer & Hin & Hc).
  exists prompt, answer. split; [by right|done].
Qed.

Lemma creations_confirmed_after_yes (prompt answer : string) (tr : list Event) :
  confirms answer = true → creations_confirmed (EvInput prompt answer :: tr).
Proof.
  intros Hc [|ev' pre] req out post; simpl; intros [= <- Heq].
  exists prompt, answer. split; [by left|done].
Qed.

Lemma only_not_creation (eps : list Endpoint) (ev : Event) :
  ApiSubscriptions ∉ eps → only eps ev = true → is_creation ev = false.
Proof.
  intros Hep Hev. destruct ev as [[] req out| | |]; try done.
  by apply bool_decide_eq_true in Hev.
Qed.

Lemma forallb_only_not_creation (eps : list Endpoint) (tr : list Event) :
  ApiSubscriptions ∉ eps → forallb (only eps) tr = true →
  forallb (λ ev, negb (is_creation ev)) tr = true.
Proof.
  intros Hep. rewrite !forallb_forall. intros H ev Hev.
  by rewrite (only_not_creation eps ev Hep (H ev Hev)).
Qed.

Lemma creations_confirmed_app (tr1 tr2 : list Event) :
  forallb (λ ev, negb (is_creation ev)) tr1 = true →
  creations_confirmed tr2 → creations_confirmed (tr1 ++ tr2).
Proof.
  induction tr1 as [|ev tr1 IH]; simpl; [done|].
  intros [Hev Htr1]%andb_true_iff Htr2.
  apply creations_confirmed_cons; [by apply negb_true_iff | auto].
Qed.

Lemma creations_confirmed_none (tr : list Event) :
  forallb (λ ev, negb (is_creation ev)) tr = true → creations_confirmed tr.
Proof.
  intros Htr. rewrite <- (app_nil_r tr).
  apply creations_confirmed_app; [done|].
  intros [|? ?] ? ? ? ?; discriminate.
Qed.

Lemma creations_confirmed_bind {A B} (eps : list Endpoint) (m : M A) (k : A → M B) w :
  ApiSubscriptions ∉ eps → emits (only eps) m →
  (∀ a w', creations_confirmed (trace (k a w'))) →
  creations_confirmed (trace (bind m k w)).
Proof.
  intros Hep Hm Hk. rewrite bind_run.
  pose proof (forallb_only_not_creation eps _ Hep (Hm w)) as Hn.
  destruct (result (m w)); cbn [trace].
  - by apply creations_confirmed_app.
  - by apply creations_confirmed_none.
Qed.

(** A prompt that goes on after yes and exits with status 1 otherwise. *)
Lemma confirm_run (prompt : string) (w : world) :
  bind (py_input prompt)
    (λ yesno, if negb (confirms yesno)
              then bind (print "Exiting.") (λ _, exit (A:=unit) 1)
              else ret tt) w
  = let '(answer, w') := input prompt w in
    if confirms answer
    then mkRan (Return tt) [EvInput prompt answer] w'
    else mkRan (Raise (SystemExit 1)) [EvInput prompt answer; EvPrint "Exiting."] w'.
Proof.
  unfold bind, py_input. destruct (input prompt w) as [answer w']. simpl.
  by destruct (confirms answer).
Qed.

(** The message [install_hooks] prints when nothing is missing. *)
Lemma install_missing_nothing (self : Client) (projects : list Project) (num : nat) (w : world) :
  install_missing self projects [] num w
  = mkRan (Return tt)
      [EvPrint match project self with
               | None =>
                   "All " +:+ str_nat (length projects) +:+ " projects in "
                   +:+ py_str (az_devops_org self)
                   +:+ " already have Datadog service hooks correctly configured!"
               | Some name =>
                   "The project " +:+ name
                   +:+ " already has Datadog service hooks correctly configured!"
               end] w.
Proof. unfold install_missing. simpl. by destruct (project self). Qed.

Lemma length_eqb_cons {A} (x : A) (l : list A) : (length (x :: l) =? 0)%nat = false.
Proof. reflexivity. Qed.

Lemma emits_install_missing self name projects toProcess num :
  project self = Some name →
  emits (only [ApiSubscriptions]) (install_missing self projects toProcess num).
Proof.
  intros Hproj. unfold install_missing. rewrite Hproj.
  destruct (length toProcess =? 0)%nat; [by apply emits_emit|].
  apply emits_bind; [apply emits_ret|]. intros _.
  apply emits_bind; [apply emits_configure_all|]. intros _. by apply emits_emit.
Qed.

Lemma creations_confirmed_install_missing self projects toProcess num w :
  project self = None →
  creations_confirmed (trace (install_missing self projects toProcess num w)).
Proof.
  intros Hproj. unfold install_missing. rewrite Hproj.
  destruct (length toProcess =? 0)%nat; [by apply creations_confirmed_none|].
  rewrite bind_run, confirm_run.
  destruct (input _ w) as [answer w']. destruct (confirms answer) eqn:Hc; cbn [result trace final].
  - by apply creations_confirmed_after_yes.
  - by apply creations_confirmed_none.
Qed.

Lemma sound_install_missing self key projects toProcess num :
  dd_api_key self = Some key → sound (install_missing self projects toProcess num).
Proof.
  intros Hkey. unfold install_missing.
  destruct (length toProcess =? 0)%nat; [by destruct (project self)|].
  apply sound_bind; [|intros _; apply sound_bind;
                       [by eapply sound_configure_all
                       |intros _; by destruct (project self)]].
  destruct (project self); [apply sound_ret|].
  intros w. rewrite confirm_run. destruct (input _ w) as [answer w'].
  destruct (confirms answer) eqn:Hc; cbn [result trace final].
  - unfold classified, declined, remote_error, invalid_credential. simpl. by rewrite Hc.
  - unfold classified, declined. simpl. by rewrite Hc.
Qed.

Lemma emits_only_mono {A} (eps eps' : list Endpoint) (m : M A) :
  eps ⊆ eps' → emits (only eps) m → emits (only eps') m.
Proof.
  intros Hsub. apply emits_weaken. intros [ep req out| | |]; simpl; try done.
  rewrite !bool_decide_eq_true. apply Hsub.
Qed.

Lemma emits_install_reconciled self name projects hooks :
  project self = Some name →
  emits (only [ApiSubscriptions]) (install_reconciled self projects hooks).
Proof.
  intros Hproj w.
  destruct (install_reconciled_run self projects hooks w) as (num & prints & Hp & ->).
  cbn [trace]. rewrite forallb_app, (forallb_is_print_only _ _ Hp).
  by apply emits_install_missing with name.
Qed.

Lemma creations_confirmed_install_reconciled self projects hooks w :
  project self = None →
  creations_confirmed (trace (install_reconciled self projects hooks w)).
Proof.
  intros Hproj.
  destruct (install_reconciled_run self projects hooks w) as (num & prints & Hp & ->).
  cbn [trace]. apply creations_confirmed_app.
  - apply (forallb_only_not_creation []); [apply not_elem_of_nil|].
    by apply forallb_is_print_only.
  - by apply creations_confirmed_install_missing.
Qed.

Lemma configure_service_hook_trace (self : Client) (key : string) (project : Project)
    (event_type : string) (w : world) :
  dd_api_key self = Some key →
  ∃ prints out,
    trace (configure_service_hook self project event_type w)
    = prints ++ [EvUrlopen ApiSubscriptions
                   (subscriptions_request self key project event_type) out]
    ∧ forallb is_print prints = true.
Proof.
  intros Hkey. unfold configure_service_hook. rewrite Hkey, bind_run.
  destruct (verbose_print_run self
              ("Configuring " +:+ event_type +:+ " service hook for project "
               +:+ project_name project +:+ "...") w) as (prints & -> & Hp).
  cbn [result trace final]. unfold bind, urlopen.
  destruct (urlopen_subscriptions _ w) as [[status body []|code body] w'];
    cbn [result trace final]; [destruct (negb _)|]; cbn [result trace final];
    exists prints; eexists; (split; [|done]); by rewrite ?app_nil_r.
Qed.

Lemma bind_trace_prefix {A B} (m : M A) (k : A → M B) (w : world) :
  ∃ rest, trace (bind m k w) = trace (m w) ++ rest.
Proof.
  rewrite bind_run. destruct (result (m w)); cbn [trace]; eauto.
  exists []. by rewrite app_nil_r.
Qed.

Lemma configure_all_first self key total i project event_type toProcess w :
  dd_api_key self = Some key →
  ∃ pre out rest,
    trace (configure_all self total i ((project, event_type) :: toProcess) w)
    = pre ++ EvUrlopen ApiSubscriptions
               (subscriptions_request self key project event_type) out :: rest
    ∧ forallb (only []) pre = true.
Proof.
  intros Hkey. unfold configure_all. rewrite for_enumerate_cons.
  match goal with |- context [trace (bind ?m ?k w)] =>
    destruct (bind_trace_prefix m k w) as (rest & ->) end.
  erewrite bind_Return_run by reflexivity. cbn [result trace final].
  destruct (configure_service_hook_trace self key project event_type w Hkey)
    as (vprints & out & -> & Hvp).
  exists (EvProgress (i + 1) total "Configuring service hooks"
            (project_name project +:+ " - " +:+ event_type) :: vprints), out, rest.
  split.
  - simpl. by rewrite <- !app_assoc.
  - simpl. by apply forallb_is_print_only.
Qed.

(** C8 (confirmation before a batch install): with no [--project], every
    creation call of an install run comes after a prompt answered with yes;
    when at least one pair is missing the prompt is the first thing after the
    reconciliation, and any other answer ends the run with [exit(1)] and no
    creation call.  With [--project] the run never prompts, and when a pair
    is missing the first call after the reconciliation creates the first
    missing pair. *)
Theorem install_confirmation_prompt (depth : nat) (self : Client) (w : world) :
  (project self = None → creations_confirmed (trace (install_hooks depth self w)))
  ∧ (∀ name, project self = Some name →
       forallb (λ ev, negb (is_input ev)) (trace (install_hooks depth self w)) = true)
  ∧ (∀ projects hooks w',
       to_process projects hooks ≠ [] →
       let r := install_reconciled self projects hooks w' in
       (project self = None →
          ∃ prints prompt answer rest,
            trace r = prints ++ EvInput prompt answer :: rest
            ∧ forallb is_print prints = true
            ∧ (confirms answer = false →
                 result r = Raise (SystemExit 1) ∧ rest = [EvPrint "Exiting."]))
       ∧ (∀ name key, project self = Some name → dd_api_key self = Some key →
            ∃ pre out rest pair,
              head (to_process projects hooks) = Some pair
              ∧ trace r = pre ++ EvUrlopen ApiSubscriptions
                                   (subscriptions_request self key pair.1 pair.2) out :: rest
              ∧ forallb (only []) pre = true)).
Proof.
  split_and!.
  - intros Hproj. unfold install_hooks.
    eapply creations_confirmed_bind;
      [|apply emits_validate_dd_api_key|]; [compute_done|]. intros _ w1.
    eapply creations_confirmed_bind;
      [|apply emits_list_projects|]; [compute_done|]. intros projects w2.
    destruct (length (in_scope self projects) =? 0)%nat.
    + rewrite Hproj. by apply creations_confirmed_none.
    + eapply creations_confirmed_bind;
        [|apply emits_get_existing_hooks|]; [compute_done|]. intros hooks w3.
      by apply creations_confirmed_install_reconciled.
  - intros name Hproj.
    assert (Hem : emits (only [ApiValidate; ApiProjects; ApiSubscriptionsQuery;
                               ApiSubscriptions]) (install_hooks depth self)).
    { unfold install_hooks.
      apply emits_bind;
        [eapply emits_only_mono; [|apply emits_validate_dd_api_key]; compute_done|].
      intros _. apply emits_bind;
        [eapply emits_only_mono; [|apply emits_list_projects]; compute_done|].
      intros projects. destruct (length (in_scope self projects) =? 0)%nat.
      - rewrite Hproj. by apply emits_emit.
      - apply emits_bind;
          [eapply emits_only_mono; [|apply emits_get_existing_hooks]; compute_done|].
        intros hooks. eapply emits_only_mono; [|by eapply emits_install_reconciled].
        compute_done. }
    specialize (Hem w). rewrite forallb_forall in *. intros ev Hev.
    specialize (Hem ev Hev). by destruct ev.
  - intros projects hooks w' Hne r. subst r.
    destruct (install_reconciled_run self projects hooks w') as (num & prints & Hp & ->).
    cbn [result trace final].
    destruct (to_process projects hooks) as [|[project event_type] toProcess] eqn:Htp; [done|].
    split.
    + intros Hproj. unfold install_missing.
      rewrite Hproj, length_eqb_cons, bind_run, confirm_run.
      destruct (input _ w') as [answer w1]. destruct (confirms answer) eqn:Hc;
        cbn [result trace final]; eexists prints, _, answer, _;
        (split; [reflexivity|]); (split; [done|]);
        [intros ?; congruence | intros _; by split].
    + intros name key Hproj Hkey. unfold install_missing.
      rewrite Hproj, length_eqb_cons.
      erewrite bind_Return_run by reflexivity.
      cbn [result trace final app].
      match goal with |- context [trace (bind ?m ?k w')] =>
        destruct (bind_trace_prefix m k w') as (rest1 & ->) end.
      destruct (configure_all_first self key (length ((project, event_type) :: toProcess))
                  0 project event_type toProcess w' Hkey) as (pre & out & rest & -> & Hpre).
      exists (prints ++ pre), out, (rest ++ rest1), (project, event_type).
      split; [done|]. split.
      * by rewrite <- !app_assoc.
      * by rewrite forallb_app, Hpre, forallb_is_print_only.
Qed.

(** ** Idempotence *)

Lemma filter_nil_iff {A} (f : A → bool) (l : list A) :
  List.filter f l = [] ↔ ∀ x, x ∈ l → f x = false.
Proof.
  induction l as [|x l IH]; simpl.
  - split; [by intros _ x ?%elem_of_nil | done].
  - destruct (f x) eqn:Hx.
    + split; [done|]. intros H. specialize (H x (list_elem_of_here _ _)). congruence.
    + rewrite IH. split.
      * intros H y [->|Hy]%elem_of_cons; auto.
      * intros H y Hy. apply H. by right.
Qed.

Lemma missing_false (hooks : list Hook) (p : Project) (e : string) :
  missing hooks (p, e) = false ↔ (project_id p, e) ∈ hook_key <$> hooks.
Proof.
  unfold missing. rewrite bool_decide_eq_false. simpl.
  split; [apply dec_stable | by intros ? ?].
Qed.

(** Once every key of the old hooks and every pair that was missing has a
    hook, nothing is missing. *)
Lemma to_process_covered (projects : list Project) (hooks hooks' : list Hook) :
  Forall (λ k, k ∈ hook_key <$> hooks')
    ((hook_key <$> hooks)
     ++ ((λ pair, (project_id pair.1, pair.2)) <$> to_process projects hooks)) →
  to_process projects hooks' = [].
Proof.
  rewrite Forall_app, !Forall_forall. intros [Hold Hnew].
  unfold to_process at 1. apply filter_nil_iff. intros [p e] Hin.
  apply missing_false.
  destruct (missing hooks (p, e)) eqn:Hm.
  - apply Hnew. apply (list_elem_of_fmap_2 (λ pair, (project_id pair.1, pair.2)) _ (p, e)).
    unfold to_process. rewrite list_elem_of_In, filter_In, <- list_elem_of_In. done.
  - apply Hold. by apply missing_false.
Qed.

(** C3 (a second install creates nothing): let the hooks the second run
    fetches hold a hook for every key the first run found and for every pair
    it computed as missing.  Then the second run computes an empty missing
    list, returns without a single creation call and, unless no project is in
    scope, ends by printing that the hooks are already configured. *)
Theorem install_twice_creates_nothing
    (depth : nat) (self : Client) (all_projects : list Project) (hooks hooks' : list Hook)
    (w w1 w2 w3 : world) (tr1 tr2 tr3 : list Event) :
  Forall (λ k, k ∈ hook_key <$> hooks')
    ((hook_key <$> hooks)
     ++ ((λ pair, (project_id pair.1, pair.2))
           <$> to_process (in_scope self all_projects) hooks)) →
  validate_dd_api_key self w = mkRan (Return tt) tr1 w1 →
  list_projects depth self None w1 = mkRan (Return all_projects) tr2 w2 →
  get_existing_hooks self w2 = mkRan (Return hooks') tr3 w3 →
  let projects := in_scope self all_projects in
  let r := install_hooks depth self w in
  to_process projects hooks' = []
  ∧ result r = Return tt
  ∧ requests_to ApiSubscriptions (trace r) = []
  ∧ (projects ≠ [] →
     final r = w3
     ∧ last (trace r)
       = Some (EvPrint match project self with
                       | None =>
                           "All " +:+ str_nat (length projects) +:+ " projects in "
                           +:+ py_str (az_devops_org self)
                           +:+ " already have Datadog service hooks correctly configured!"
                       | Some name =>
                           "The project " +:+ name
                           +:+ " already has Datadog service hooks correctly configured!"
                       end)).
Proof.
  intros Hcover Hval Hlist Hhooks projects r.
  pose proof (to_process_covered _ _ _ Hcover) as Hnone. fold projects in Hnone.
  assert (Hq1 : requests_to ApiSubscriptions tr1 = []).
  { pose proof (emits_validate_dd_api_key self w) as H. rewrite Hval in H.
    eapply requests_to_only; [|exact H]. compute_done. }
  assert (Hq2 : requests_to ApiSubscriptions tr2 = []).
  { pose proof (emits_list_projects depth self None w1) as H. rewrite Hlist in H.
    eapply requests_to_only; [|exact H]. compute_done. }
  assert (Hq3 : requests_to ApiSubscriptions tr3 = []).
  { pose proof (emits_get_existing_hooks self w2) as H. rewrite Hhooks in H.
    eapply requests_to_only; [|exact H]. compute_done. }
  subst r. unfold install_hooks.
  erewrite bind_Return_run by exact Hval.
  erewrite bind_Return_run by exact Hlist.
  cbv beta zeta. fold projects.
  destruct projects as [|p ps] eqn:Hps.
  - cbn [length Nat.eqb result trace final].
    split_and!; [done| by destruct (project self) | |done].
    rewrite !requests_to_app, Hq1, Hq2. by destruct (project self).
  - rewrite length_eqb_cons.
    erewrite bind_Return_run by exact Hhooks.
    destruct (install_reconciled_run self (p :: ps) hooks' w3) as (num & prints & Hp & ->).
    rewrite Hnone, install_missing_nothing. cbn [result trace final].
    split_and!; [done|done| |].
    + rewrite !requests_to_app, Hq1, Hq2, Hq3.
      rewrite (requests_to_only _ [] prints); [done|apply not_elem_of_nil|].
      by apply forallb_is_print_only.
    + intros _. split; [done|]. by rewrite !app_assoc, last_snoc.
Qed.

(** ** The single-project scope *)

Lemma in_scope_spec (self : Client) (name : string) (projects : list Project) (p : Project) :
  project self = Some name →
  p ∈ in_scope self projects ↔ p ∈ projects ∧ project_name p = name.
Proof.
  intros Hproj. unfold in_scope. rewrite Hproj.
  by rewrite list_elem_of_In, filter_In, <- list_elem_of_In, String.eqb_eq.
Qed.

(** C10 (the single-project scope keeps every namesake): with [--project]
    the scope is every listed project of that name, in listing order, and may
    hold more than one; the install then runs without a prompt, every missing
    pair of every such project is selected, and a run that returns has sent
    one creation request for each selected pair. *)
Theorem single_project_scope_keeps_all_namesakes (self : Client) (name : string) :
  project self = Some name →
  (∀ projects p, p ∈ in_scope self projects ↔ p ∈ projects ∧ project_name p = name)
  ∧ (∀ projects,
       in_scope self projects = List.filter (λ p, String.eqb (project_name p) name) projects)
  ∧ (∃ projects p q,
       in_scope self projects = [p; q] ∧ p ≠ q ∧ project_name p = project_name q)
  ∧ (∀ projects hooks p e,
       p ∈ projects → project_name p = name → e ∈ EVENT_TYPES →
       (¬ ∃ hook, hook ∈ hooks ∧ hook_projectId hook = project_id p
                  ∧ hook_eventType hook = e) →
       (p, e) ∈ to_process (in_scope self projects) hooks)
  ∧ (∀ projects hooks w,
       let r := install_reconciled self (in_scope self projects) hooks w in
       forallb (λ ev, negb (is_input ev)) (trace r) = true
       ∧ (∀ key, dd_api_key self = Some key → result r = Return tt →
            requests_to ApiSubscriptions (trace r)
            = map (λ pair, subscriptions_request self key pair.1 pair.2)
                (to_process (in_scope self projects) hooks))).
Proof.
  intros Hproj. split_and!.
  - intros projects p. by apply in_scope_spec.
  - intros projects. unfold in_scope. by rewrite Hproj.
  - exists [mkProject "1" name; mkProject "2" name], (mkProject "1" name), (mkProject "2" name).
    unfold in_scope. rewrite Hproj. simpl. rewrite String.eqb_refl. by split_and!.
  - intros projects hooks p e Hp Hname He Hnone.
    apply to_process_spec. split_and!; [|done..]. by apply (in_scope_spec self name).
  - intros projects hooks w r. subst r. split.
    + pose proof (emits_install_reconciled self name (in_scope self projects) hooks Hproj w)
        as Hem.
      rewrite forallb_forall in *. intros ev Hev. specialize (Hem ev Hev). by destruct ev.
    + intros key Hkey.
      destruct (install_reconciled_run self (in_scope self projects) hooks w)
        as (num & prints & Hp & ->).
      cbn [result trace final]. rewrite requests_to_app.
      rewrite (requests_to_only _ [] prints);
        [|apply not_elem_of_nil|by apply forallb_is_print_only].
      unfold install_missing. rewrite Hproj.
      destruct (to_process (in_scope self projects) hooks) as [|pair toProcess] eqn:Htp;
        [done|].
      rewrite length_eqb_cons. erewrite bind_Return_run by reflexivity.
      cbn [result trace final app]. rewrite bind_run.
      destruct (result (configure_all _ _ _ _ w)) as [[]|e] eqn:Hres; cbn [result trace];
        [|done].
      intros _. rewrite requests_to_app.
      rewrite (configure_all_requests self key _ _ _ w Hkey Hres).
      apply app_nil_r.
Qed.

(** ** Pagination *)

Lemma list_projects_serves (self : Client) (pages : list ProjectsPage) (w_end : world) :
  ∀ (depth : nat) (token : option string) (w : world),
    serves self token w pages w_end →
    (length pages ≤ depth)%nat →
    result (list_projects depth self token w) = Return (concat (page_value <$> pages))
    ∧ final (list_projects depth self token w) = w_end
    ∧ length (requests_to ApiProjects (trace (list_projects depth self token w)))
      = length pages.
Proof.
  induction pages as [|page rest IH]; intros depth token w Hserves Hdepth; [done|].
  destruct depth as [|depth]; [simpl in Hdepth; lia|].
  destruct Hserves as (body & w' & Hreq & Hrest).
  cbn [list_projects]. rewrite bind_run. unfold urlopen. rewrite Hreq.
  cbn [result trace final outcome_of]. change (negb (200 =? 200)%Z) with false. cbv iota.
  destruct rest as [|page' rest'].
  - destruct Hrest as [-> ->]. cbn [fmap list_fmap concat]. by rewrite app_nil_r.
  - destruct Hrest as [-> Hrest]. rewrite bind_run.
    destruct (IH depth _ w' Hrest) as (Hres & Hfin & Hlen); [simpl in *; lia|].
    rewrite Hres. cbn [result trace final]. split_and!; [done..|].
    rewrite app_nil_r. simpl. by rewrite Hlen.
Qed.


(** ** Uninstall *)

(** C7 (uninstall with a single-project scope is rejected up front): when
    [--uninstall] comes with [--project], the run only prints: it sends no
    request, lists and deletes no subscription, asks nothing, and leaves the
    world as it was; [uninstall_hooks] prints the rejection and returns. *)
Theorem uninstall_rejects_single_project
    (depth : nat) (environ : Environ) (args : Args) (name : string) (w : world) :
  args_uninstall args = true →
  args_project args = Some name →
  let r := main depth environ args w in
  forallb is_print (trace r) = true
  ∧ forallb (λ ev, negb (is_urlopen ev)) (trace r) = true
  ∧ final r = w
  ∧ uninstall_hooks (make_client environ args) w
    = mkRan (Return tt)
        [EvPrint "Specifying a single project is not supported for the uninstallation command."]
        w
  ∧ (not_set (AZURE_DEVOPS_TOKEN environ) = false →
     result r = Return tt
     ∧ trace r
       = [EvPrint "Specifying a single project is not supported for the uninstallation command."]).
Proof.
  intros Hun Hproj r. subst r. unfold main. rewrite Hun.
  assert (Hrun : uninstall_hooks (make_client environ args) w
                 = mkRan (Return tt)
                     [EvPrint "Specifying a single project is not supported for the uninstallation command."]
                     w).
  { unfold uninstall_hooks, make_client. cbn [project]. by rewrite Hproj. }
  destruct (not_set (AZURE_DEVOPS_TOKEN environ)).
  - by split_and!.
  - cbn [negb andb]. unfold try_except. rewrite Hrun. by split_and!.
Qed.

(** ** The exit status *)

Lemma prints_clean (prints : list Event) :
  forallb is_print prints = true →
  declined prints = false ∧ remote_error prints = false ∧ invalid_credential prints = false.
Proof.
  induction prints as [|ev prints IH]; [done|]. simpl.
  intros [Hev Hp]%andb_true_iff. destruct ev; try done. simpl. by apply IH.
Qed.

Lemma sound_print (line : string) : sound (print line).
Proof. by apply sound_emit. Qed.

Lemma sound_install_reconciled self key projects hooks :
  dd_api_key self = Some key → sound (install_reconciled self projects hooks).
Proof.
  intros Hkey w.
  destruct (install_reconciled_run self projects hooks w) as (num & prints & Hp & ->).
  cbn [result trace]. destruct (prints_clean prints Hp) as (H1 & H2 & H3).
  apply classified_app; [done..|]. by eapply sound_install_missing.
Qed.

Lemma sound_install_hooks depth self key :
  dd_api_key self = Some key → sound (install_hooks depth self).
Proof.
  intros Hkey. unfold install_hooks.
  apply sound_bind; [by eapply sound_validate_dd_api_key|]. intros _.
  apply sound_bind; [apply sound_list_projects|]. intros projects.
  destruct (length (in_scope self projects) =? 0)%nat.
  - destruct (project self); apply sound_print.
  - apply sound_bind; [apply sound_get_existing_hooks|]. intros hooks.
    by eapply sound_install_reconciled.
Qed.

Lemma sound_delete_all self total i hooks : sound (delete_all self total i hooks).
Proof.
  apply sound_for_enumerate. intros j hook.
  apply sound_bind; [by apply sound_emit|]. intros _. apply sound_delete_service_hook.
Qed.

Lemma sound_confirm (prompt : string) :
  sound (bind (py_input prompt)
           (λ yesno, if negb (confirms yesno)
                     then bind (print "Exiting.") (λ _, exit (A:=unit) 1)
                     else ret tt)).
Proof.
  intros w. rewrite confirm_run. destruct (input prompt w) as [answer w'].
  destruct (confirms answer) eqn:Hc; cbn [result trace final].
  - unfold classified, declined, remote_error, invalid_credential. simpl. by rewrite Hc.
  - unfold classified, declined. simpl. by rewrite Hc.
Qed.

Lemma sound_uninstall_hooks self : sound (uninstall_hooks self).
Proof.
  unfold uninstall_hooks. destruct (project self); [apply sound_print|].
  apply sound_bind; [apply sound_get_existing_hooks|]. intros hooks.
  destruct (length hooks =? 0)%nat; [apply sound_print|].
  apply sound_bind; [apply sound_print|]. intros _.
  apply sound_bind; [apply sound_confirm|]. intros _.
  apply sound_bind; [apply sound_delete_all|]. intros _. apply sound_print.
Qed.

Lemma not_set_false (v : option string) :
  not_set v = false → ∃ s, v = Some s.
Proof. destruct v; [eauto|done]. Qed.

(** The workflow [main] runs inside its [try]. *)
Lemma sound_workflow depth environ args :
  missing_environment environ args = false →
  sound (if args_uninstall args
         then uninstall_hooks (make_client environ args)
         else install_hooks depth (make_client environ args)).
Proof.
  unfold missing_environment. intros [_ Hkey]%orb_false_iff.
  destruct (args_uninstall args); [apply sound_uninstall_hooks|].
  destruct (not_set_false (DD_API_KEY environ)) as [key Hk]; [by simpl in Hkey|].
  by apply sound_install_hooks with key.
Qed.

Lemma main_run depth environ args w :
  missing_environment environ args = false →
  main depth environ args w
  = try_except
      (if args_uninstall args
       then uninstall_hooks (make_client environ args)
       else install_hooks depth (make_client environ args))
      (λ _ _, raise (AttributeError "status_code")) w.
Proof.
  unfold missing_environment, main. intros [-> ->]%orb_false_iff. reflexivity.
Qed.

(** ** Where a [RecursionError] comes from *)

Lemma no_recursion_error_ret {A} (a : A) : no_recursion_error (ret a).
Proof. by intros w. Qed.

Lemma no_recursion_error_raise {A} (e : Exc) :
  e ≠ RecursionError → no_recursion_error (raise (A:=A) e).
Proof. intros He w. simpl. congruence. Qed.

Lemma no_recursion_error_emit (ev : Event) : no_recursion_error (emit ev).
Proof. by intros w. Qed.

Lemma no_recursion_error_py_input (prompt : string) : no_recursion_error (py_input prompt).
Proof. intros w. unfold py_input. by destruct (input prompt w). Qed.

Lemma no_recursion_error_urlopen {A} ep (server : Request → world → HttpResult A * world) req :
  no_recursion_error (urlopen ep server req).
Proof. intros w. unfold urlopen. by destruct (server req w). Qed.

Lemma no_recursion_error_bind {A B} (m : M A) (k : A → M B) :
  no_recursion_error m → (∀ a, no_recursion_error (k a)) → no_recursion_error (bind m k).
Proof.
  intros Hm Hk w. rewrite bind_run. specialize (Hm w).
  destruct (result (m w)) as [a|e]; cbn [result]; [apply Hk|]. congruence.
Qed.

Lemma no_recursion_error_for_each {A S} (l : list A) (body : A → S → M S) :
  (∀ x s, no_recursion_error (body x s)) → ∀ s, no_recursion_error (for_each l body s).
Proof.
  intros Hbody. induction l as [|x l IH]; intros s; simpl.
  - apply no_recursion_error_ret.
  - apply no_recursion_error_bind; auto.
Qed.

Lemma no_recursion_error_for_enumerate {A} (l : list A) (body : nat → A → M unit) :
  (∀ i x, no_recursion_error (body i x)) → ∀ i, no_recursion_error (for_enumerate i l body).
Proof.
  intros Hbody. induction l as [|x l IH]; intros i; simpl.
  - apply no_recursion_error_ret.
  - apply no_recursion_error_bind; auto.
Qed.

(** Takes a computation built from the steps above apart. *)
Ltac no_recursion_with known :=
  repeat first
    [ known
    | apply no_recursion_error_ret
    | apply no_recursion_error_emit
    | apply no_recursion_error_py_input
    | apply no_recursion_error_urlopen
    | apply no_recursion_error_raise; discriminate
    | apply no_recursion_error_bind; [|intros ?]
    | apply no_recursion_error_for_each; intros ? ?
    | apply no_recursion_error_for_enumerate; intros ? ?
    | progress cbv beta
    | match goal with
      | |- no_recursion_error (if ?b then _ else _) => destruct b
      | |- no_recursion_error (match ?x with _ => _ end) => destruct x
      end ].

Ltac no_recursion := no_recursion_with fail.

Lemma no_recursion_error_validate_dd_api_key self :
  no_recursion_error (validate_dd_api_key self).
Proof. unfold validate_dd_api_key. no_recursion. Qed.

Lemma no_recursion_error_get_existing_hooks self :
  no_recursion_error (get_existing_hooks self).
Proof. unfold get_existing_hooks. no_recursion. Qed.

Lemma no_recursion_error_configure_service_hook self project event_type :
  no_recursion_error (configure_service_hook self project event_type).
Proof. unfold configure_service_hook, verbose_print. no_recursion. Qed.

Lemma no_recursion_error_delete_service_hook self hook :
  no_recursion_error (delete_service_hook self hook).
Proof. unfold delete_service_hook, verbose_print. no_recursion. Qed.

Lemma no_recursion_error_install_reconciled self projects hooks :
  no_recursion_error (install_reconciled self projects hooks).
Proof.
  unfold install_reconciled, find_missing, install_missing, configure_all, verbose_print,
    progress, print.
  generalize EVENT_TYPES as types. intros types.
  no_recursion_with ltac:(apply no_recursion_error_configure_service_hook).
Qed.

Lemma no_recursion_error_uninstall_hooks self : no_recursion_error (uninstall_hooks self).
Proof.
  unfold uninstall_hooks, delete_all, progress, print.
  no_recursion_with ltac:(apply no_recursion_error_delete_service_hook).
Qed.

(** The listing raises [RecursionError] only after as many requests as the
    recursion depth allows. *)
Lemma list_projects_recursion depth self token w :
  result (list_projects depth self token w) = Raise RecursionError →
  length (requests_to ApiProjects (trace (list_projects depth self token w))) = depth.
Proof.
  revert token w. induction depth as [|depth IH]; intros token w; [done|].
  cbn [list_projects]. rewrite bind_run. unfold urlopen.
  destruct (urlopen_projects _ w) as [[status body data|code body] w']; cbn [result trace final];
    [|done].
  destruct (negb (status =? 200)%Z); [done|].
  destruct (truthy (page_continuation_token data)); [|done].
  rewrite bind_run. specialize (IH (page_continuation_token data) w').
  destruct (result (list_projects depth self (page_continuation_token data) w')) as [more|e];
    cbn [result trace final]; [done|].
  intros [= ->]. rewrite requests_to_app. cbn [requests_to].
  rewrite bool_decide_eq_true_2 by done. cbn [app length]. f_equal. by apply IH.
Qed.

(** A [RecursionError] leaves [install_hooks] from the listing: the key was
    validated and [depth] pages were fetched. *)
Lemma install_hooks_recursion depth self w :
  result (install_hooks depth self w) = Raise RecursionError →
  length (requests_to ApiProjects (trace (install_hooks depth self w))) = depth.
Proof.
  unfold install_hooks. rewrite bind_run.
  pose proof (no_recursion_error_validate_dd_api_key self w) as Hv.
  pose proof (emits_validate_dd_api_key self w) as Hev.
  destruct (result (validate_dd_api_key self w)) as [[]|e]; cbn [result trace final];
    [|congruence].
  rewrite bind_run.
  pose proof (list_projects_recursion depth self None (final (validate_dd_api_key self w)))
    as Hlist.
  destruct (result (list_projects depth self None _)) as [projects|e] eqn:Hres;
    cbn [result trace final].
  - intros Hrec. exfalso. revert Hrec.
    match goal with |- result (?m _) = _ → _ => assert (Hm : no_recursion_error m) end.
    { no_recursion_with
        ltac:(first [apply no_recursion_error_get_existing_hooks
                    |apply no_recursion_error_install_reconciled]). }
    apply Hm.
  - intros [= ->]. rewrite requests_to_app, length_app, Hlist by done.
    rewrite (requests_to_only ApiProjects [ApiValidate]); [done|compute_done|done].
Qed.


(** ** More on the reconciliation *)

(** The loop with its counter: the projects counted are those with a missing
    pair. *)
Lemma find_missing_run_count (self : Client) (projects : list Project) (hooks : list Hook)
    (w : world) :
  ∃ prints,
    find_missing self projects (existing_hooks_by_project_type hooks) w
    = mkRan (Return (to_process projects hooks, length (projects_missing projects hooks)))
        prints w
    ∧ forallb is_print prints = true.
Proof.
  unfold find_missing, to_process, projects_missing.
  generalize EVENT_TYPES as types. intros types.
  match goal with |- context [for_each projects ?body _ _] => set (outer := body) end.
  assert (Hinner : ∀ project events acc flag,
            ∃ prints,
              for_each events
                (λ event_type '(toProcess, missingAtLeastOne),
                   if bool_decide (existing_hooks_by_project_type hooks
                                     !! (project_id project, event_type) = None)
                   then ret (toProcess ++ [(project, event_type)], true)
                   else
                     bind (verbose_print self
                             (event_type +:+ " service hook is already configured for project "
                              +:+ project_name project))
                       (λ _, ret (toProcess, missingAtLeastOne)))
                (acc, flag) w
              = mkRan (Return (acc ++ List.filter (missing hooks) (map (pair project) events),
                               flag || existsb (λ e, missing hooks (project, e)) events))
                  prints w
              ∧ forallb is_print prints = true).
  { intros project. induction events as [|event events IHe]; intros acc flag.
    - exists []. simpl. by rewrite app_nil_r, orb_false_r.
    - rewrite for_each_cons. cbv beta iota. rewrite not_in_dict_missing.
      simpl map. simpl List.filter. simpl existsb.
      destruct (missing hooks (project, event)) eqn:Hm.
      + destruct (IHe (acc ++ [(project, event)]) true) as (prints & Hrun & Hp).
        erewrite bind_Return_run by reflexivity. rewrite Hrun.
        exists prints. simpl. by rewrite <- app_assoc, orb_true_r.
      + destruct (verbose_print_run self
                    (event +:+ " service hook is already configured for project "
                     +:+ project_name project) w) as (prints0 & Hrun0 & Hp0).
        destruct (IHe acc flag) as (prints & Hrun & Hp).
        erewrite bind_Return_run; [|erewrite bind_Return_run by exact Hrun0; reflexivity].
        cbv beta. simpl (final (ret _ _)). rewrite Hrun. eexists. split; [reflexivity|].
        simpl. by rewrite ?forallb_app, Hp0, Hp. }
  assert (Hgen : ∀ projects acc n,
            ∃ prints,
              for_each projects outer (acc, n) w
              = mkRan (Return (acc ++ List.filter (missing hooks) (list_prod projects types),
                               (n + length (List.filter
                                   (λ p, existsb (λ e, missing hooks (p, e)) types)
                                   projects))%nat)) prints w
              ∧ forallb is_print prints = true).
  { clear projects. induction projects as [|project projects IH]; intros acc n.
    - exists []. simpl. by rewrite app_nil_r, Nat.add_0_r.
    - rewrite for_each_cons.
      destruct (Hinner project types acc false) as (prints & Hrun & Hp).
      simpl orb in Hrun.
      destruct (IH (acc ++ List.filter (missing hooks) (map (pair project) types))
                  (if existsb (λ e, missing hooks (project, e)) types then S n else n))
        as (prints' & Hrun' & Hp').
      erewrite bind_Return_run;
        [|unfold outer; erewrite bind_Return_run by exact Hrun; reflexivity].
      cbv beta. simpl (final (ret _ _)). rewrite Hrun'. simpl list_prod.
      rewrite List.filter_app, app_assoc.
      assert (Hn : ((if existsb (λ e, missing hooks (project, e)) types then S n else n)
                    + length (List.filter
                                (λ p, existsb (λ e, missing hooks (p, e)) types) projects)
                    = n + length (List.filter
                                    (λ p, existsb (λ e, missing hooks (p, e)) types)
                                    (project :: projects)))%nat).
      { simpl List.filter. destruct (existsb _ types); simpl; lia. }
      rewrite Hn. eexists. split; [reflexivity|].
      simpl. by rewrite ?forallb_app, Hp, Hp'. }
  apply (Hgen projects [] 0%nat).
Qed.

Lemma projects_missing_spec (projects : list Project) (hooks : list Hook) (p : Project) :
  p ∈ projects_missing projects hooks
  ↔ p ∈ projects ∧ ∃ e, (p, e) ∈ to_process projects hooks.
Proof.
  unfold projects_missing.
  rewrite list_elem_of_In, filter_In, <- list_elem_of_In, existsb_exists.
  split.
  - intros (Hp & e & He & Hm). split; [done|]. exists e.
    unfold to_process. rewrite list_elem_of_In, filter_In, in_prod_iff, <- list_elem_of_In.
    done.
  - intros (Hp & e & He). split; [done|]. exists e.
    unfold to_process in He.
    rewrite list_elem_of_In, filter_In, in_prod_iff in He. tauto.
Qed.

(** X1 (the count the prompt shows): the reconciliation loop returns, next
    to the missing pairs, the number of projects in scope that lack at least
    one hook; that number is zero exactly when nothing is missing and never
    exceeds the number of projects; the loop only prints and leaves the
    remote world alone. *)
Theorem find_missing_counts_projects
    (self : Client) (projects : list Project) (hooks : list Hook) (w : world) :
  let r := find_missing self projects (existing_hooks_by_project_type hooks) w in
  result r = Return (to_process projects hooks, length (projects_missing projects hooks))
  ∧ final r = w
  ∧ forallb is_print (trace r) = true
  ∧ (∀ p, p ∈ projects_missing projects hooks
          ↔ p ∈ projects ∧ ∃ e, (p, e) ∈ to_process projects hooks)
  ∧ (length (projects_missing projects hooks) = 0%nat ↔ to_process projects hooks = [])
  ∧ (length (projects_missing projects hooks) ≤ length projects)%nat.
Proof.
  intros r. subst r.
  destruct (find_missing_run_count self projects hooks w) as (prints & -> & Hp).
  split_and!; [done..| | |].
  - apply projects_missing_spec.
  - rewrite length_zero_iff_nil. split.
    + intros Hnil. destruct (to_process projects hooks) as [|[p e] l] eqn:Htp; [done|].
      assert (Hin : p ∈ projects_missing projects hooks).
      { apply projects_missing_spec.
        assert (Hpe : (p, e) ∈ to_process projects hooks) by (rewrite Htp; by left).
        split; [|by exists e]. apply to_process_spec in Hpe. tauto. }
      rewrite Hnil in Hin. by apply elem_of_nil in Hin.
    + intros Hnil. destruct (projects_missing projects hooks) as [|p l] eqn:Hpm; [done|].
      assert (Hin : p ∈ projects_missing projects hooks) by (rewrite Hpm; by left).
      apply projects_missing_spec in Hin as (_ & e & He).
      rewrite Hnil in He. by apply elem_of_nil in He.
  - unfold projects_missing. apply filter_length_le.
Qed.

Lemma existing_hooks_snoc (hooks : list Hook) (hook : Hook) :
  existing_hooks_by_project_type (hooks ++ [hook])
  = <[hook_key hook := hook]> (existing_hooks_by_project_type hooks).
Proof. unfold existing_hooks_by_project_type. by rewrite foldl_snoc. Qed.

(** X2 (the last hook of a key wins): looking a key up in
    [existing_hooks_by_project_type] gives the last fetched hook with that
    project id and event type, and nothing when no hook has them; the dict
    has one entry per distinct key, so never more entries than hooks. *)
Theorem existing_hooks_last_wins (hooks : list Hook) (k : string * string) :
  existing_hooks_by_project_type hooks !! k
  = last (List.filter (λ hook, bool_decide (hook_key hook = k)) hooks)
  ∧ (existing_hooks_by_project_type hooks !! k = None ↔ k ∉ hook_key <$> hooks)
  ∧ (∀ hook, existing_hooks_by_project_type hooks !! k = Some hook →
       hook ∈ hooks ∧ hook_key hook = k)
  ∧ dom (existing_hooks_by_project_type hooks) = list_to_set (hook_key <$> hooks)
  ∧ (size (existing_hooks_by_project_type hooks) ≤ length hooks)%nat.
Proof.
  assert (Hlast : ∀ hooks,
            existing_hooks_by_project_type hooks !! k
            = last (List.filter (λ hook, bool_decide (hook_key hook = k)) hooks)).
  { clear hooks. induction hooks as [|hook hooks IH] using rev_ind; [done|].
    rewrite existing_hooks_snoc, List.filter_app. simpl.
    case_bool_decide as Hk.
    - subst k. by rewrite lookup_insert_eq, last_snoc.
    - by rewrite lookup_insert_ne, app_nil_r. }
  assert (Hdom : ∀ hooks,
            dom (existing_hooks_by_project_type hooks)
            = (list_to_set (hook_key <$> hooks) : gset (string * string))).
  { clear hooks. induction hooks as [|hook hooks IH] using rev_ind; [done|].
    rewrite existing_hooks_snoc, dom_insert_L, IH, fmap_app, list_to_set_app_L.
    simpl. rewrite (right_id_L ∅ (∪)). apply (comm_L (∪)). }
  assert (Hsize : ∀ hooks, (size (existing_hooks_by_project_type hooks) ≤ length hooks)%nat).
  { clear hooks. induction hooks as [|hook hooks IH] using rev_ind; [done|].
    rewrite existing_hooks_snoc, map_size_insert, length_app. simpl.
    destruct (_ !! _); simpl; lia. }
  split_and!.
  - apply Hlast.
  - apply existing_hooks_lookup_None.
  - intros hook Hsome. rewrite Hlast in Hsome.
    apply last_Some_elem_of in Hsome.
    rewrite list_elem_of_In, filter_In, <- list_elem_of_In, bool_decide_eq_true in Hsome.
    done.
  - apply Hdom.
  - apply Hsize.
Qed.

(** Two loops whose bodies run alike run alike. *)
Lemma for_each_ext {A S} (l : list A) (body1 body2 : A → S → M S) :
  (∀ x s w, body1 x s w = body2 x s w) →
  ∀ s w, for_each l body1 s w = for_each l body2 s w.
Proof.
  intros Hbody. induction l as [|x l IH]; intros s w; [done|].
  rewrite !for_each_cons, !bind_run, Hbody.
  destruct (result (body2 x s w)); [|done]. by rewrite !IH.
Qed.

Lemma bind_ext_l {A B} (m1 m2 : M A) (k : A → M B) (w : world) :
  m1 w = m2 w → bind m1 k w = bind m2 k w.
Proof. intros Hm. unfold bind. by rewrite Hm. Qed.

(** The reconciliation loop asks the dict only whether a key is in it. *)
Lemma find_missing_same_keys (self : Client) (projects : list Project)
    (existing1 existing2 : gmap (string * string) Hook) (w : world) :
  (∀ k, existing1 !! k = None ↔ existing2 !! k = None) →
  find_missing self projects existing1 w = find_missing self projects existing2 w.
Proof.
  intros Hkeys. unfold find_missing. generalize EVENT_TYPES as types. intros types.
  apply for_each_ext. intros project [toProcess num] w'.
  apply bind_ext_l. apply for_each_ext. intros event_type [toProcess' flag] w''.
  by rewrite (bool_decide_ext _ _ (Hkeys (project_id project, event_type))).
Qed.

(** X3 (only the keys of the hooks matter): when two lists of existing
    hooks have the same (projectId, eventType) keys, whatever their order,
    their ids and their duplicates, the reconciliation loop over the dict
    built from either runs alike, and so does the install from there on: the
    same result, the same prints, prompt and creation requests, the same
    remote world afterwards. *)
Theorem install_depends_on_hook_keys_only
    (self : Client) (projects : list Project) (hooks1 hooks2 : list Hook) (w : world) :
  Forall (λ k, k ∈ hook_key <$> hooks2) (hook_key <$> hooks1) →
  Forall (λ k, k ∈ hook_key <$> hooks1) (hook_key <$> hooks2) →
  find_missing self projects (existing_hooks_by_project_type hooks1) w
  = find_missing self projects (existing_hooks_by_project_type hooks2) w
  ∧ install_reconciled self projects hooks1 w = install_reconciled self projects hooks2 w.
Proof.
  rewrite !Forall_forall. intros H12 H21.
  assert (Hkeys : ∀ k, existing_hooks_by_project_type hooks1 !! k = None
                       ↔ existing_hooks_by_project_type hooks2 !! k = None).
  { intros k. rewrite !existing_hooks_lookup_None.
    split; intros Hn Hin; apply Hn; auto. }
  split; [by apply find_missing_same_keys|].
  unfold install_reconciled. apply bind_ext_l. by apply find_missing_same_keys.
Qed.

Lemma NoDup_list_prod {A B} (l : list A) (k : list B) :
  NoDup l → NoDup k → NoDup (list_prod l k).
Proof.
  intros Hl Hk. induction Hl as [|x l Hx Hl IH]; simpl; [constructor|].
  apply NoDup_app. split_and!.
  - by apply (NoDup_fmap_2 (pair x)).
  - intros [a b] [b' [[= -> ->] Hb]]%list_elem_of_fmap Hin.
    apply list_elem_of_In, in_prod_iff in Hin as [Hin _]. by apply list_elem_of_In in Hin.
  - done.
Qed.

Lemma NoDup_filter_list {A} (f : A → bool) (l : list A) :
  NoDup l → NoDup (List.filter f l).
Proof.
  induction 1 as [|x l Hx Hl IH]; simpl; [constructor|].
  destruct (f x); [|done]. constructor; [|done].
  rewrite list_elem_of_In, filter_In, <- list_elem_of_In. tauto.
Qed.

(** The requests of the creation loop are those of a prefix of its list. *)
Lemma configure_all_requests_prefix self key total i toProcess w :
  dd_api_key self = Some key →
  ∃ k, (k ≤ length toProcess)%nat
       ∧ requests_to ApiSubscriptions (trace (configure_all self total i toProcess w))
         = map (λ pair, subscriptions_request self key pair.1 pair.2) (take k toProcess)
       ∧ (result (configure_all self total i toProcess w) = Return tt →
          k = length toProcess).
Proof.
  intros Hkey. unfold configure_all. revert i w.
  induction toProcess as [|[project event_type] toProcess IH]; intros i w.
  - exists 0%nat. by split_and!.
  - rewrite for_enumerate_cons, bind_run.
    match goal with |- context [result (?m w)] => set (body := m) end.
    assert (Hbody : requests_to ApiSubscriptions (trace (body w))
                    = [subscriptions_request self key project event_type]).
    { unfold body. rewrite bind_run. simpl.
      by apply configure_service_hook_requests. }
    destruct (result (body w)) as [[]|e] eqn:Hres; cbn [result trace final].
    + destruct (IH (S i) (final (body w))) as (k & Hk & Hreq & Hret).
      exists (S k). split_and!.
      * simpl. lia.
      * rewrite requests_to_app, Hbody, Hreq. done.
      * intros Hr. simpl. by rewrite (Hret Hr).
    + exists 1%nat. split_and!; [simpl; lia| |done].
      rewrite Hbody. simpl. by destruct toProcess.
Qed.

Lemma install_missing_requests_prefix self key projects toProcess num w :
  dd_api_key self = Some key →
  ∃ k, (k ≤ length toProcess)%nat
       ∧ requests_to ApiSubscriptions (trace (install_missing self projects toProcess num w))
         = map (λ pair, subscriptions_request self key pair.1 pair.2) (take k toProcess)
       ∧ (result (install_missing self projects toProcess num w) = Return tt →
          k = length toProcess).
Proof.
  intros Hkey. unfold install_missing.
  destruct toProcess as [|pair toProcess].
  { exists 0%nat. split_and!; [done| |done]. by destruct (project self). }
  rewrite length_eqb_cons.
  match goal with |- context [bind ?a ?k w] => set (ask := a); set (rest := k) end.
  assert (Hask : requests_to ApiSubscriptions (trace (ask w)) = []).
  { unfold ask. destruct (project self); [done|]. rewrite confirm_run.
    destruct (input _ w) as [answer w']. by destruct (confirms answer). }
  rewrite bind_run. destruct (result (ask w)) as [[]|e]; cbn [result trace final].
  - rewrite requests_to_app, Hask. unfold rest. rewrite bind_run.
    destruct (configure_all_requests_prefix self key (length (pair :: toProcess)) 0
                (pair :: toProcess) (final (ask w)) Hkey) as (k & Hk & Hreq & Hret).
    exists k. destruct (result (configure_all _ _ _ _ _)) as [[]|e] eqn:Hres;
      cbn [result trace final].
    + rewrite requests_to_app, Hreq. split_and!; [done| |by intros; apply Hret].
      destruct (project self); simpl; by rewrite app_nil_r.
    + by split_and!.
  - exists 0%nat. split_and!; [lia|by rewrite Hask|done].
Qed.

(** X4 (creations follow the plan): the creation requests an install sends
    after the reconciliation are those of a prefix of the missing pairs, in
    order, all of them when the run returns; so no request is for a pair that
    already has a hook, there are at most nine per project in scope, and none
    is sent twice when the projects are distinct.  With no existing hook the
    plan is every pair. *)
Theorem creations_follow_the_plan
    (self : Client) (key : string) (projects : list Project) (hooks : list Hook) (w : world) :
  dd_api_key self = Some key →
  let r := install_reconciled self projects hooks w in
  (∃ k, (k ≤ length (to_process projects hooks))%nat
        ∧ requests_to ApiSubscriptions (trace r)
          = map (λ pair, subscriptions_request self key pair.1 pair.2)
              (take k (to_process projects hooks))
        ∧ (result r = Return tt → k = length (to_process projects hooks)))
  ∧ (length (requests_to ApiSubscriptions (trace r)) ≤ 9 * length projects)%nat
  ∧ (NoDup projects → NoDup (to_process projects hooks))
  ∧ to_process projects [] = list_prod projects EVENT_TYPES.
Proof.
  intros Hkey r.
  assert (Hlen : (length (to_process projects hooks) ≤ 9 * length projects)%nat).
  { unfold to_process. etrans; [apply filter_length_le|].
    rewrite length_prod. simpl. lia. }
  assert (Hprefix : ∃ k, (k ≤ length (to_process projects hooks))%nat
        ∧ requests_to ApiSubscriptions (trace r)
          = map (λ pair, subscriptions_request self key pair.1 pair.2)
              (take k (to_process projects hooks))
        ∧ (result r = Return tt → k = length (to_process projects hooks))).
  { subst r.
    destruct (install_reconciled_run self projects hooks w) as (num & prints & Hp & ->).
    cbn [result trace final]. rewrite requests_to_app.
    rewrite (requests_to_only _ [] prints);
      [|apply not_elem_of_nil|by apply forallb_is_print_only].
    by apply install_missing_requests_prefix. }
  split_and!; [exact Hprefix | | |].
  - destruct Hprefix as (k & Hk & -> & _). rewrite length_map, length_take. lia.
  - intros Hnd. unfold to_process. apply NoDup_filter_list, NoDup_list_prod; [done|].
    compute_done.
  - unfold to_process. induction (list_prod projects EVENT_TYPES) as [|pair l IH]; [done|].
    simpl. by rewrite IH.
Qed.

(** ** More on the install workflow *)

Lemma forallb_only_mono (eps eps' : list Endpoint) (tr : list Event) :
  eps ⊆ eps' → forallb (only eps) tr = true → forallb (only eps') tr = true.
Proof.
  intros Hsub. rewrite !forallb_forall. intros H ev Hev. specialize (H ev Hev).
  destruct ev; simpl in *; try done. rewrite bool_decide_eq_true in *. auto.
Qed.

(** X5 (an empty scope ends the install): when the listing returns no
    project, or no project with the name given by [--project], [install_hooks]
    prints that no project was found and returns; it has sent the validation
    and listing calls only: no subscription query, no creation, no prompt. *)
Theorem install_with_empty_scope
    (depth : nat) (self : Client) (all_projects : list Project)
    (w w1 w2 : world) (tr1 tr2 : list Event) :
  validate_dd_api_key self w = mkRan (Return tt) tr1 w1 →
  list_projects depth self None w1 = mkRan (Return all_projects) tr2 w2 →
  match project self with
  | None => all_projects = []
  | Some name => ∀ p, p ∈ all_projects → project_name p ≠ name
  end →
  install_hooks depth self w
  = mkRan (Return tt)
      (tr1 ++ tr2
       ++ [EvPrint match project self with
                   | None => "No projects found in " +:+ py_str (az_devops_org self) +:+ "."
                   | Some name =>
                       "Project " +:+ name +:+ " not found in "
                       +:+ py_str (az_devops_org self)
                   end]) w2
  ∧ forallb (only [ApiValidate; ApiProjects]) (trace (install_hooks depth self w)) = true.
Proof.
  intros Hval Hlist Hnone.
  assert (Hscope : in_scope self all_projects = []).
  { unfold in_scope. destruct (project self) as [name|]; [|done].
    apply filter_nil_iff. intros p Hp. apply String.eqb_neq. by apply Hnone. }
  assert (Hrun : install_hooks depth self w
    = mkRan (Return tt)
      (tr1 ++ tr2
       ++ [EvPrint match project self with
                   | None => "No projects found in " +:+ py_str (az_devops_org self) +:+ "."
                   | Some name =>
                       "Project " +:+ name +:+ " not found in "
                       +:+ py_str (az_devops_org self)
                   end]) w2).
  { unfold install_hooks.
    erewrite bind_Return_run by exact Hval.
    erewrite bind_Return_run by exact Hlist. cbv beta zeta. rewrite Hscope.
    by destruct (project self). }
  split; [exact Hrun|]. rewrite Hrun. cbn [trace].
  pose proof (emits_validate_dd_api_key self w) as H1. rewrite Hval in H1.
  pose proof (emits_list_projects depth self None w1) as H2. rewrite Hlist in H2.
  cbn [trace] in H1, H2. rewrite !forallb_app. simpl.
  rewrite andb_true_r. apply andb_true_iff. split.
  - revert H1. apply forallb_only_mono. compute_done.
  - revert H2. apply forallb_only_mono. compute_done.
Qed.

(** X6 (a rejected API key stops the install at once): when the validation
    call returns a status other than 200 or raises an [HTTPError],
    [install_hooks] raises a plain [Exception] after that single call, without
    contacting Azure DevOps; [main] does not catch it, so the process ends
    with status 1 and the same trace. *)
Theorem install_stops_on_invalid_api_key
    (depth : nat) (environ : Environ) (args : Args) (w : world) :
  missing_environment environ args = false →
  args_uninstall args = false →
  let self := make_client environ args in
  let req :=
    mkRequest "GET" ("https://api." +:+ py_str (dd_site self) +:+ "/api/v1/validate") []
      [("DD-API-KEY", py_str (dd_api_key self))] NoPayload in
  let out := outcome_of (urlopen_validate req w).1 in
  call_failed ApiValidate out = true →
  (∃ message, result (install_hooks depth self w) = Raise (Exception message))
  ∧ trace (install_hooks depth self w) = [EvUrlopen ApiValidate req out]
  ∧ main depth environ args w = install_hooks depth self w
  ∧ exit_status (result (main depth environ args w)) = 1.
Proof.
  intros Hmiss Hun self req out Hfail.
  assert (Hkey : ∃ key, dd_api_key self = Some key).
  { unfold missing_environment in Hmiss. apply orb_false_iff in Hmiss as [_ Hk].
    rewrite Hun in Hk. simpl in Hk. by apply not_set_false. }
  destruct Hkey as [key Hkey].
  assert (Hreq : req = mkRequest "GET"
            ("https://api." +:+ py_str (dd_site self) +:+ "/api/v1/validate") []
            [("DD-API-KEY", key)] NoPayload).
  { unfold req. by rewrite Hkey. }
  assert (Hinstall : (∃ message, result (install_hooks depth self w) = Raise (Exception message))
                     ∧ trace (install_hooks depth self w) = [EvUrlopen ApiValidate req out]).
  { unfold install_hooks. rewrite bind_run.
    unfold validate_dd_api_key. rewrite Hkey, bind_run. unfold urlopen.
    subst out. rewrite Hreq in *.
    destruct (urlopen_validate _ w) as [[status body []|code body] w']; simpl in *.
    - destruct (negb (status =? 200)%Z); [|done]. simpl. eauto.
    - eauto. }
  destruct Hinstall as ([message Hres] & Htr).
  assert (Hmain : main depth environ args w = install_hooks depth self w).
  { rewrite main_run by done. rewrite Hun. unfold try_except. fold self. by rewrite Hres. }
  split_and!; [by exists message | done | done |]. by rewrite Hmain, Hres.
Qed.

(** ** Which endpoints a workflow calls *)

Lemma only_calls_only (eps eps' : list Endpoint) (ev : Event) :
  eps ⊆ eps' → only eps ev = true → calls_only eps' ev = true.
Proof.
  intros Hsub. destruct ev; simpl; try done. rewrite !bool_decide_eq_true. apply Hsub.
Qed.

Lemma emits_only_calls_only {A} (eps eps' : list Endpoint) (m : M A) :
  eps ⊆ eps' → emits (only eps) m → emits (calls_only eps') m.
Proof. intros Hsub. apply emits_weaken. intros ev. by apply only_calls_only. Qed.

Lemma emits_calls_only_mono {A} (eps eps' : list Endpoint) (m : M A) :
  eps ⊆ eps' → emits (calls_only eps) m → emits (calls_only eps') m.
Proof.
  intros Hsub. apply emits_weaken. intros [ep req out| | |]; simpl; try done.
  rewrite !bool_decide_eq_true. apply Hsub.
Qed.

Lemma requests_to_calls_only (ep : Endpoint) (eps : list Endpoint) (tr : list Event) :
  ep ∉ eps → forallb (calls_only eps) tr = true → requests_to ep tr = [].
Proof.
  intros Hep. induction tr as [|ev tr IH]; [done|]. simpl.
  intros [Hev Htr]%andb_true_iff.
  destruct ev as [ep' req out| | |]; simpl in *; try done; auto.
  apply bool_decide_eq_true in Hev. case_bool_decide as Heq; [|auto]. by subst.
Qed.

Lemma emits_confirm P (prompt : string) :
  (∀ answer, P (EvInput prompt answer) = true) → P (EvPrint "Exiting.") = true →
  emits P (bind (py_input prompt)
             (λ yesno, if negb (confirms yesno)
                       then bind (print "Exiting.") (λ _, exit (A:=unit) 1)
                       else ret tt)).
Proof.
  intros Hin Hpr w. rewrite confirm_run. destruct (input prompt w) as [answer w'].
  destruct (confirms answer); simpl; by rewrite ?Hin, ?Hpr.
Qed.

Lemma emits_try_except {A} P (m : M A) (handler : string → ResponseObj → M A) :
  emits P m → (∀ message response, emits P (handler message response)) →
  emits P (try_except m handler).
Proof.
  intros Hm Hh w. unfold try_except. specialize (Hm w).
  destruct (result (m w)) as [a|[]]; try done.
  cbn [trace]. rewrite forallb_app, Hm. apply Hh.
Qed.

Lemma emits_calls_install_hooks depth self :
  emits (calls_only [ApiValidate; ApiProjects; ApiSubscriptionsQuery; ApiSubscriptions])
    (install_hooks depth self).
Proof.
  unfold install_hooks.
  apply emits_bind;
    [eapply emits_only_calls_only; [|apply emits_validate_dd_api_key]; compute_done|].
  intros _. apply emits_bind;
    [eapply emits_only_calls_only; [|apply emits_list_projects]; compute_done|].
  intros projects. destruct (length (in_scope self projects) =? 0)%nat.
  { destruct (project self); by apply emits_emit. }
  apply emits_bind;
    [eapply emits_only_calls_only; [|apply emits_get_existing_hooks]; compute_done|].
  intros hooks w.
  destruct (install_reconciled_run self (in_scope self projects) hooks w)
    as (num & prints & Hp & ->).
  cbn [trace]. rewrite forallb_app. apply andb_true_iff. split.
  { revert Hp. rewrite !forallb_forall. intros H ev Hev. specialize (H ev Hev).
    by destruct ev. }
  revert w. change (emits (calls_only [ApiValidate; ApiProjects; ApiSubscriptionsQuery;
                                       ApiSubscriptions])
                      (install_missing self (in_scope self projects)
                         (to_process (in_scope self projects) hooks) num)).
  unfold install_missing. destruct (length _ =? 0)%nat.
  { destruct (project self); by apply emits_emit. }
  apply emits_bind.
  { destruct (project self); [apply emits_ret|]. by apply emits_confirm. }
  intros _. apply emits_bind.
  { eapply emits_only_calls_only; [|apply emits_configure_all]. compute_done. }
  intros _. destruct (project self); by apply emits_emit.
Qed.

Lemma emits_delete_all self total i hooks :
  emits (only [ApiDelete]) (delete_all self total i hooks).
Proof.
  apply emits_for_enumerate. intros j hook.
  apply emits_bind; [by apply emits_emit|]. intros _.
  unfold delete_service_hook. apply emits_bind; [by apply emits_verbose_print|].
  intros _. apply emits_bind; [by apply emits_urlopen|].
  intros [status body []|code body]; destruct (negb _); by intros w.
Qed.

Lemma emits_calls_uninstall_hooks self :
  emits (calls_only [ApiSubscriptionsQuery; ApiDelete]) (uninstall_hooks self).
Proof.
  unfold uninstall_hooks. destruct (project self); [by apply emits_emit|].
  apply emits_bind;
    [eapply emits_only_calls_only; [|apply emits_get_existing_hooks]; compute_done|].
  intros hooks. destruct (length hooks =? 0)%nat; [by apply emits_emit|].
  apply emits_bind; [by apply emits_emit|]. intros _.
  apply emits_bind; [by apply emits_confirm|]. intros _.
  apply emits_bind;
    [eapply emits_only_calls_only; [|apply emits_delete_all]; compute_done|].
  intros _. by apply emits_emit.
Qed.

Lemma emits_main P depth environ args :
  (∀ line, P (EvPrint line) = true) →
  emits P (if args_uninstall args
           then uninstall_hooks (make_client environ args)
           else install_hooks depth (make_client environ args)) →
  emits P (main depth environ args).
Proof.
  intros Hpr Hbody. unfold main.
  destruct (not_set (AZURE_DEVOPS_TOKEN environ)).
  { apply emits_bind; [by apply emits_emit | intros; apply emits_raise]. }
  destruct (negb (args_uninstall args) && not_set (DD_API_KEY environ))%bool.
  { apply emits_bind; [by apply emits_emit | intros; apply emits_raise]. }
  apply emits_try_except; [done|]. intros message response. by intros w.
Qed.

(** X7 (install and uninstall keep to their endpoints): a run of [main]
    with [--uninstall] calls nothing but the subscription query and the
    deletion, so it never validates the API key, lists projects or creates a
    hook; a run without it never deletes a hook. *)
Theorem workflows_keep_to_their_endpoints
    (depth : nat) (environ : Environ) (args : Args) (w : world) :
  let tr := trace (main depth environ args w) in
  forallb (calls_only (if args_uninstall args
                       then [ApiSubscriptionsQuery; ApiDelete]
                       else [ApiValidate; ApiProjects; ApiSubscriptionsQuery;
                             ApiSubscriptions])) tr = true
  ∧ (args_uninstall args = true →
     requests_to ApiValidate tr = [] ∧ requests_to ApiProjects tr = []
     ∧ requests_to ApiSubscriptions tr = [])
  ∧ (args_uninstall args = false → requests_to ApiDelete tr = []).
Proof.
  intros tr.
  assert (Hem : forallb (calls_only (if args_uninstall args
                       then [ApiSubscriptionsQuery; ApiDelete]
                       else [ApiValidate; ApiProjects; ApiSubscriptionsQuery;
                             ApiSubscriptions])) tr = true).
  { apply emits_main; [done|]. destruct (args_uninstall args).
    - apply emits_calls_uninstall_hooks.
    - apply emits_calls_install_hooks. }
  split_and!; [done| |].
  - intros Hun. rewrite Hun in Hem.
    split_and!; (eapply requests_to_calls_only; [|exact Hem]); compute_done.
  - intros Hun. rewrite Hun in Hem.
    eapply requests_to_calls_only; [|exact Hem]. compute_done.
Qed.

(** ** More on the uninstall workflow *)

Lemma deletions_confirmed_cons (ev : Event) (tr : list Event) :
  is_deletion ev = false → deletions_confirmed tr → deletions_confirmed (ev :: tr).
Proof.
  intros Hev Htr [|ev' pre] req out post; simpl; intros [= -> Heq]; [done|].
  destruct (Htr pre req out post Heq) as (prompt & answer & Hin & Hc).
  exists prompt, answer. split; [by right|done].
Qed.

Lemma deletions_confirmed_after_yes (prompt answer : string) (tr : list Event) :
  confirms answer = true → deletions_confirmed (EvInput prompt answer :: tr).
Proof.
  intros Hc [|ev' pre] req out post; simpl; intros [= <- Heq].
  exists prompt, answer. split; [by left|done].
Qed.

Lemma deletions_confirmed_app (tr1 tr2 : list Event) :
  forallb (λ ev, negb (is_deletion ev)) tr1 = true →
  deletions_confirmed tr2 → deletions_confirmed (tr1 ++ tr2).
Proof.
  induction tr1 as [|ev tr1 IH]; simpl; [done|].
  intros [Hev Htr1]%andb_true_iff Htr2.
  apply deletions_confirmed_cons; [by apply negb_true_iff | auto].
Qed.

Lemma deletions_confirmed_none (tr : list Event) :
  forallb (λ ev, negb (is_deletion ev)) tr = true → deletions_confirmed tr.
Proof.
  intros Htr. rewrite <- (app_nil_r tr).
  apply deletions_confirmed_app; [done|].
  intros [|? ?] ? ? ? ?; discriminate.
Qed.

Lemma forallb_calls_not_deletion (eps : list Endpoint) (tr : list Event) :
  ApiDelete ∉ eps → forallb (calls_only eps) tr = true →
  forallb (λ ev, negb (is_deletion ev)) tr = true.
Proof.
  intros Hep. rewrite !forallb_forall. intros H ev Hev. specialize (H ev Hev).
  destruct ev as [[] req out| | |]; try done. by apply bool_decide_eq_true in H.
Qed.

Lemma only_not_declined (eps : list Endpoint) (tr : list Event) :
  forallb (only eps) tr = true → declined tr = false.
Proof.
  unfold declined. induction tr as [|ev tr IH]; [done|]. simpl.
  intros [Hev Htr]%andb_true_iff. rewrite (IH Htr). by destruct ev.
Qed.

Lemma delete_service_hook_requests (self : Client) (hook : Hook) (w : world) :
  requests_to ApiDelete (trace (delete_service_hook self hook w)) = [delete_request self hook].
Proof.
  unfold delete_service_hook, bind, verbose_print, urlopen.
  destruct (verbose self); simpl;
    destruct (urlopen_delete _ w) as [[status body []|status body] w']; simpl;
    destruct (negb _); reflexivity.
Qed.

(** The requests of the deletion loop are those of a prefix of its list. *)
Lemma delete_all_requests_prefix self total i hooks w :
  ∃ k, (k ≤ length hooks)%nat
       ∧ requests_to ApiDelete (trace (delete_all self total i hooks w))
         = map (delete_request self) (take k hooks)
       ∧ (result (delete_all self total i hooks w) = Return tt → k = length hooks).
Proof.
  unfold delete_all. revert i w.
  induction hooks as [|hook hooks IH]; intros i w.
  - exists 0%nat. by split_and!.
  - rewrite for_enumerate_cons, bind_run.
    match goal with |- context [result (?m w)] => set (body := m) end.
    assert (Hbody : requests_to ApiDelete (trace (body w)) = [delete_request self hook]).
    { unfold body. rewrite bind_run. simpl. apply delete_service_hook_requests. }
    destruct (result (body w)) as [[]|e] eqn:Hres; cbn [result trace final].
    + destruct (IH (S i) (final (body w))) as (k & Hk & Hreq & Hret).
      exists (S k). split_and!.
      * simpl. lia.
      * rewrite requests_to_app, Hbody, Hreq. done.
      * intros Hr. simpl. by rewrite (Hret Hr).
    + exists 1%nat. split_and!; [simpl; lia| |done].
      rewrite Hbody. simpl. by destruct hooks.
Qed.

(** [uninstall_hooks] once the hooks are fetched and there is at least one. *)
Lemma uninstall_hooks_run (self : Client) (hooks : list Hook) (w w1 : world)
    (tr : list Event) :
  project self = None →
  get_existing_hooks self w = mkRan (Return hooks) tr w1 →
  hooks ≠ [] →
  let project_count := size (list_to_set (hook_projectId <$> hooks) : gset string) in
  let found :=
    EvPrint ("Found " +:+ str_nat (length hooks) +:+ " Datadog service hooks among "
             +:+ str_nat project_count +:+ " projects in "
             +:+ py_str (az_devops_org self) +:+ ".") in
  let prompt :=
    "Are you sure you want to uninstall these " +:+ str_nat project_count
    +:+ " Datadog service hooks ? This will break the integration with Datadog. (yes/no): " in
  let done_ :=
    print (nl +:+ "Successfully uninstalled " +:+ str_nat (length hooks)
           +:+ " Datadog service hooks among " +:+ str_nat project_count
           +:+ " projects in " +:+ py_str (az_devops_org self) +:+ "!") in
  uninstall_hooks self w
  = let '(answer, w2) := input prompt w1 in
    if confirms answer
    then
      let r := bind (delete_all self (length hooks) 0 hooks) (λ _, done_) w2 in
      mkRan (result r) (tr ++ found :: EvInput prompt answer :: trace r) (final r)
    else
      mkRan (Raise (SystemExit 1))
        (tr ++ [found; EvInput prompt answer; EvPrint "Exiting."]) w2.
Proof.
  intros Hproj Hhooks Hne. cbv zeta. unfold uninstall_hooks. rewrite Hproj.
  erewrite bind_Return_run by exact Hhooks. cbv beta.
  destruct hooks as [|hook hooks']; [done|]. rewrite length_eqb_cons.
  erewrite bind_Return_run by reflexivity. cbv beta.
  rewrite bind_run, confirm_run.
  destruct (input _ w1) as [answer w2]. destruct (confirms answer); reflexivity.
Qed.

Lemma uninstall_hooks_guarded (self : Client) (w : world) :
  deletions_confirmed (trace (uninstall_hooks self w))
  ∧ (declined (trace (uninstall_hooks self w)) = true →
     requests_to ApiDelete (trace (uninstall_hooks self w)) = []).
Proof.
  destruct (project self) as [name|] eqn:Hproj.
  { unfold uninstall_hooks. rewrite Hproj. split; [|done].
    by apply deletions_confirmed_none. }
  pose proof (emits_get_existing_hooks self w) as Hem.
  assert (Hnd : forallb (λ ev, negb (is_deletion ev)) (trace (get_existing_hooks self w))
                = true).
  { apply (forallb_calls_not_deletion [ApiSubscriptionsQuery]); [compute_done|].
    apply (emits_only_calls_only [ApiSubscriptionsQuery] [ApiSubscriptionsQuery]);
      [done | apply emits_get_existing_hooks]. }
  assert (Hnr : requests_to ApiDelete (trace (get_existing_hooks self w)) = []).
  { eapply requests_to_only; [|exact Hem]. compute_done. }
  pose proof (only_not_declined _ _ Hem) as Hd.
  destruct (get_existing_hooks self w) as [[hooks|e] tr w1] eqn:Hget; cbn [trace] in *.
  2:{ unfold uninstall_hooks. rewrite Hproj, bind_run, Hget. cbn [result trace].
      split; [by apply deletions_confirmed_none|done]. }
  destruct hooks as [|hook hooks'].
  { unfold uninstall_hooks. rewrite Hproj.
    erewrite bind_Return_run by exact Hget. cbn [length Nat.eqb result trace final].
    split.
    - apply deletions_confirmed_app; [done|]. by apply deletions_confirmed_none.
    - intros _. by rewrite requests_to_app, Hnr. }
  rewrite (uninstall_hooks_run self (hook :: hooks') w w1 tr Hproj Hget) by done.
  destruct (input _ w1) as [answer w2]. destruct (confirms answer) eqn:Hc;
    cbn [result trace final].
  - split.
    + apply deletions_confirmed_app; [done|].
      apply deletions_confirmed_cons; [done|].
      by apply deletions_confirmed_after_yes.
    + intros Hdecl. exfalso. revert Hdecl.
      match goal with |- context [trace (bind ?m ?k w2)] =>
        assert (Hb : forallb (only [ApiDelete]) (trace (bind m k w2)) = true)
          by (apply emits_bind; [apply emits_delete_all | intros; by apply emits_emit])
      end.
      apply only_not_declined in Hb.
      unfold declined in *. rewrite existsb_app, Hd. cbn [existsb]. by rewrite Hc, Hb.
  - split.
    + apply deletions_confirmed_app; [done|]. by apply deletions_confirmed_none.
    + intros _. by rewrite requests_to_app, Hnr.
Qed.

(** X8 (no deletion without a yes): in every run of [uninstall_hooks], and
    in every run of [main], each deletion call comes after a prompt that was
    answered with yes or y; an uninstall whose prompt gets another answer
    sends no deletion at all. *)
Theorem deletions_need_confirmation
    (depth : nat) (environ : Environ) (args : Args) (self : Client) (w : world) :
  deletions_confirmed (trace (uninstall_hooks self w))
  ∧ deletions_confirmed (trace (main depth environ args w))
  ∧ (declined (trace (uninstall_hooks self w)) = true →
     requests_to ApiDelete (trace (uninstall_hooks self w)) = []).
Proof.
  split_and!; [apply uninstall_hooks_guarded | | apply uninstall_hooks_guarded].
  unfold main.
  destruct (not_set (AZURE_DEVOPS_TOKEN environ)); [by apply deletions_confirmed_none|].
  destruct (negb (args_uninstall args) && not_set (DD_API_KEY environ))%bool;
    [by apply deletions_confirmed_none|].
  unfold try_except.
  set (body := if args_uninstall args then _ else _).
  assert (Hbody : deletions_confirmed (trace (body w))).
  { unfold body. destruct (args_uninstall args); [apply uninstall_hooks_guarded|].
    apply deletions_confirmed_none.
    eapply forallb_calls_not_deletion; [|apply emits_calls_install_hooks]. compute_done. }
  destruct (result (body w)) as [a|[]]; try done.
  cbn [trace].
  assert (Happ : ∀ tr1 tr2, deletions_confirmed tr1 →
            forallb (λ ev, negb (is_deletion ev)) tr2 = true →
            deletions_confirmed (tr1 ++ tr2)).
  { clear. intros tr1 tr2 H1 H2 pre req out post Heq.
    apply app_eq_inv in Heq as [(k & -> & Hk)|(k & -> & Hk)].
    - destruct k as [|ev k].
      + simpl in Hk. rewrite <- Hk in H2. simpl in H2. done.
      + simpl in Hk. injection Hk as <- ->. by eapply H1.
    - exfalso. rewrite Hk, forallb_app in H2. simpl in H2.
      by rewrite andb_false_r in H2. }
  apply Happ; [done|]. done.
Qed.

Lemma size_list_to_set_le_length (l : list string) :
  (size (list_to_set l : gset string) ≤ length l)%nat.
Proof.
  induction l as [|x l IH]; [done|]. simpl.
  rewrite size_union_alt, size_singleton.
  assert (size (list_to_set l ∖ {[x]} : gset string) ≤ size (list_to_set l : gset string))%nat.
  { apply subseteq_size. by apply subseteq_difference_l. }
  lia.
Qed.

(** X9 (uninstall deletes what it fetched, in order): with no [--project],
    the deletion requests of [uninstall_hooks] are those for a prefix of the
    hooks the query returned, in the order returned, each addressed by the
    hook's id; when the run returns, every fetched hook has been requested
    once.  Before it prompts the run prints the number of hooks and the number
    of distinct project ids, and it is the latter that the prompt shows. *)
Theorem uninstall_deletes_fetched_hooks
    (self : Client) (hooks : list Hook) (w w1 : world) (tr : list Event) :
  project self = None →
  get_existing_hooks self w = mkRan (Return hooks) tr w1 →
  let r := uninstall_hooks self w in
  let project_count := size (list_to_set (hook_projectId <$> hooks) : gset string) in
  (∃ k, (k ≤ length hooks)%nat
        ∧ requests_to ApiDelete (trace r) = map (delete_request self) (take k hooks)
        ∧ (result r = Return tt → k = length hooks))
  ∧ (hooks ≠ [] →
     ∃ answer rest,
       trace r
       = tr ++ EvPrint ("Found " +:+ str_nat (length hooks)
                        +:+ " Datadog service hooks among " +:+ str_nat project_count
                        +:+ " projects in " +:+ py_str (az_devops_org self) +:+ ".")
            :: EvInput ("Are you sure you want to uninstall these "
                        +:+ str_nat project_count
                        +:+ " Datadog service hooks ? This will break the integration with Datadog. (yes/no): ")
                 answer
            :: rest)
  ∧ (project_count ≤ length hooks)%nat
  ∧ (hooks ≠ [] → (1 ≤ project_count)%nat).
Proof.
  intros Hproj Hget r project_count.
  assert (Hnr : requests_to ApiDelete tr = []).
  { pose proof (emits_get_existing_hooks self w) as Hem. rewrite Hget in Hem.
    eapply requests_to_only; [|exact Hem]. compute_done. }
  split_and!.
  - subst r. destruct hooks as [|hook hooks'].
    { exists 0%nat. unfold uninstall_hooks. rewrite Hproj.
      erewrite bind_Return_run by exact Hget. cbn [length Nat.eqb result trace final].
      split_and!; [done| |done]. by rewrite requests_to_app, Hnr. }
    rewrite (uninstall_hooks_run self (hook :: hooks') w w1 tr Hproj Hget) by done.
    destruct (input _ w1) as [answer w2]. destruct (confirms answer) eqn:Hc;
      cbn [result trace final].
    + rewrite requests_to_app, Hnr. cbn [app requests_to]. rewrite bind_run.
      destruct (delete_all_requests_prefix self (length (hook :: hooks')) 0
                  (hook :: hooks') w2) as (k & Hk & Hreq & Hret).
      exists k. destruct (result (delete_all _ _ _ _ _)) as [[]|e] eqn:Hres;
        cbn [result trace final].
      * rewrite requests_to_app, Hreq. split_and!; [done| |by intros; apply Hret].
        apply app_nil_r.
      * by split_and!.
    + exists 0%nat. split_and!; [lia| |done]. by rewrite requests_to_app, Hnr.
  - intros Hne. subst r.
    rewrite (uninstall_hooks_run self hooks w w1 tr Hproj Hget Hne).
    destruct (input _ w1) as [answer w2]. destruct (confirms answer);
      cbn [trace]; eauto.
  - unfold project_count. etrans; [apply size_list_to_set_le_length|].
    by rewrite length_fmap.
  - intros Hne. unfold project_count. destruct hooks as [|hook hooks']; [done|].
    simpl. rewrite size_union_alt, size_singleton. lia.
Qed.

(** X10 (nothing to uninstall): when the query returns no hook,
    [uninstall_hooks] prints that none was found and returns, without a prompt
    and without a deletion. *)
Theorem uninstall_with_no_hooks (self : Client) (w w1 : world) (tr : list Event) :
  project self = None →
  get_existing_hooks self w = mkRan (Return []) tr w1 →
  uninstall_hooks self w
  = mkRan (Return tt) (tr ++ [EvPrint "No Datadog service hooks found."]) w1
  ∧ forallb (only [ApiSubscriptionsQuery]) (trace (uninstall_hooks self w)) = true.
Proof.
  intros Hproj Hget.
  assert (Hrun : uninstall_hooks self w
                 = mkRan (Return tt) (tr ++ [EvPrint "No Datadog service hooks found."]) w1).
  { unfold uninstall_hooks. rewrite Hproj. by erewrite bind_Return_run by exact Hget. }
  split; [done|]. rewrite Hrun. cbn [trace].
  pose proof (emits_get_existing_hooks self w) as Hem. rewrite Hget in Hem.
  cbn [trace] in Hem. by rewrite forallb_app, Hem.
Qed.

(** ** Failing fast *)

Lemma fail_fast_no_failure (tr : list Event) :
  forallb (λ ev, negb (is_failed_call ev)) tr = true → fail_fast tr.
Proof.
  intros Htr pre ev post -> Hev. rewrite forallb_app in Htr. simpl in Htr.
  rewrite Hev in Htr. simpl in Htr. by rewrite andb_false_r in Htr.
Qed.

Lemma fail_fast_app_clean (tr1 tr2 : list Event) :
  forallb (λ ev, negb (is_failed_call ev)) tr1 = true →
  fail_fast tr2 → fail_fast (tr1 ++ tr2).
Proof.
  intros H1 H2 pre ev post Heq Hev.
  apply app_eq_inv in Heq as [(k & -> & Hk)|(k & -> & Hk)].
  - destruct k as [|ev' k]; simpl in Hk.
    + by apply (H2 [] ev post).
    + injection Hk as <- ->. exfalso.
      rewrite !forallb_app in H1. simpl in H1. rewrite Hev in H1. simpl in H1.
      by rewrite andb_false_r in H1.
  - by apply (H2 k ev post).
Qed.

Lemma fail_fast_app_prints (tr prints : list Event) :
  fail_fast tr → forallb is_print prints = true → fail_fast (tr ++ prints).
Proof.
  intros H1 H2 pre ev post Heq Hev.
  apply app_eq_inv in Heq as [(k & -> & Hk)|(k & -> & Hk)].
  - destruct k as [|ev' k]; simpl in Hk.
    + exfalso. rewrite <- Hk in H2. simpl in H2. by destruct ev.
    + injection Hk as <- ->. specialize (H1 pre ev k eq_refl Hev).
      by rewrite forallb_app, H1, H2.
  - exfalso. rewrite Hk, forallb_app in H2. simpl in H2.
    destruct ev; try done. simpl in H2. by rewrite andb_false_r in H2.
Qed.

Lemma fails_fast_clean {A} (m : M A) :
  emits (λ ev, negb (is_failed_call ev)) m → fails_fast m.
Proof. intros Hm w. split; [by apply fail_fast_no_failure | by intros]. Qed.

Lemma fails_fast_bind {A B} (m : M A) (k : A → M B) :
  fails_fast m → (∀ a, fails_fast (k a)) → fails_fast (bind m k).
Proof.
  intros Hm Hk w. rewrite bind_run. destruct (Hm w) as [Hff Hret].
  destruct (result (m w)) as [a|e]; cbn [result trace].
  - destruct (Hk a (final (m w))) as [Hff' Hret']. split.
    + apply fail_fast_app_clean; [by eapply Hret | done].
    + intros b Hb. rewrite forallb_app, (Hret a eq_refl). by eapply Hret'.
  - split; [done|]. by intros.
Qed.

Lemma fails_fast_for_enumerate {A} (l : list A) (body : nat → A → M unit) :
  (∀ i x, fails_fast (body i x)) → ∀ i, fails_fast (for_enumerate i l body).
Proof.
  intros Hbody. induction l as [|x l IH]; intros i; simpl.
  - by apply fails_fast_clean.
  - apply fails_fast_bind; auto.
Qed.

(** A call whose failure makes the continuation raise at once. *)
Lemma fails_fast_urlopen {A B} ep (server : Request → world → HttpResult A * world) req
    (k : HttpResult A → M B) :
  (∀ r, call_failed ep (outcome_of r) = true → ∃ e, k r = raise e) →
  (∀ r, call_failed ep (outcome_of r) = false → fails_fast (k r)) →
  fails_fast (bind (urlopen ep server req) k).
Proof.
  intros Hbad Hok w. unfold bind, urlopen.
  destruct (server req w) as [r w']. cbn [result trace final].
  destruct (call_failed ep (outcome_of r)) eqn:Hf.
  - destruct (Hbad r Hf) as [e ->]. cbn [raise result trace]. split.
    + intros [|ev' pre] ev post; simpl; intros [= <- Heq] Hev.
      * by rewrite <- Heq.
      * by destruct pre.
    + by intros.
  - destruct (Hok r Hf w') as [Hff Hret]. split.
    + apply (fail_fast_app_clean [_]); [simpl; by rewrite Hf | done].
    + intros b Hb. simpl. rewrite Hf. simpl. by eapply Hret.
Qed.

Lemma fails_fast_emit ev : is_failed_call ev = false → fails_fast (emit ev).
Proof. intros Hev. apply fails_fast_clean. apply emits_emit. by rewrite Hev. Qed.

Lemma fails_fast_verbose_print self line : fails_fast (verbose_print self line).
Proof. apply fails_fast_clean. by apply emits_verbose_print. Qed.

Lemma fails_fast_validate_dd_api_key self : fails_fast (validate_dd_api_key self).
Proof.
  unfold validate_dd_api_key. destruct (dd_api_key self); [|by apply fails_fast_clean].
  apply fails_fast_urlopen.
  - intros [status body []|code body] Hf; simpl in Hf; [rewrite Hf|]; eauto.
  - intros [status body []|code body] Hf; simpl in Hf; [rewrite Hf|done].
    by apply fails_fast_clean.
Qed.

Lemma fails_fast_list_projects depth self token : fails_fast (list_projects depth self token).
Proof.
  revert token. induction depth as [|depth IH]; intros token; simpl;
    [by apply fails_fast_clean|].
  apply fails_fast_urlopen.
  - intros [status body data|code body] Hf; simpl in Hf; [rewrite Hf|]; eauto.
  - intros [status body data|code body] Hf; simpl in Hf; [rewrite Hf|done].
    destruct (truthy _); [|by apply fails_fast_clean].
    apply fails_fast_bind; [apply IH|]. intros. by apply fails_fast_clean.
Qed.

Lemma fails_fast_get_existing_hooks self : fails_fast (get_existing_hooks self).
Proof.
  unfold get_existing_hooks. apply fails_fast_urlopen.
  - intros [status body data|code body] Hf; simpl in Hf; [rewrite Hf|]; eauto.
  - intros [status body data|code body] Hf; simpl in Hf; [rewrite Hf|done].
    by apply fails_fast_clean.
Qed.

Lemma fails_fast_configure_service_hook self project event_type :
  fails_fast (configure_service_hook self project event_type).
Proof.
  unfold configure_service_hook.
  apply fails_fast_bind; [apply fails_fast_verbose_print|]. intros _.
  destruct (dd_api_key self); [|by apply fails_fast_clean].
  apply fails_fast_urlopen.
  - intros [status body []|code body] Hf; simpl in Hf; [rewrite Hf|]; eauto.
  - intros [status body []|code body] Hf; simpl in Hf; [rewrite Hf|done].
    by apply fails_fast_clean.
Qed.

Lemma fails_fast_delete_service_hook self hook :
  fails_fast (delete_service_hook self hook).
Proof.
  unfold delete_service_hook.
  apply fails_fast_bind; [apply fails_fast_verbose_print|]. intros _.
  apply fails_fast_urlopen.
  - intros [status body []|code body] Hf; simpl in Hf; rewrite Hf; eauto.
  - intros [status body []|code body] Hf; simpl in Hf; rewrite Hf;
      by apply fails_fast_clean.
Qed.

Lemma fails_fast_confirm (prompt : string) :
  fails_fast (bind (py_input prompt)
                (λ yesno, if negb (confirms yesno)
                          then bind (print "Exiting.") (λ _, exit (A:=unit) 1)
                          else ret tt)).
Proof. apply fails_fast_clean. by apply emits_confirm. Qed.

Lemma fails_fast_install_hooks depth self : fails_fast (install_hooks depth self).
Proof.
  unfold install_hooks.
  apply fails_fast_bind; [apply fails_fast_validate_dd_api_key|]. intros _.
  apply fails_fast_bind; [apply fails_fast_list_projects|]. intros projects.
  destruct (length (in_scope self projects) =? 0)%nat.
  { destruct (project self); by apply fails_fast_emit. }
  apply fails_fast_bind; [apply fails_fast_get_existing_hooks|]. intros hooks.
  unfold install_reconciled. apply fails_fast_bind.
  { apply fails_fast_clean. intros w.
    destruct (find_missing_run self (in_scope self projects) hooks w)
      as (num & prints & -> & Hp).
    cbn [trace]. revert Hp. rewrite !forallb_forall. intros H ev Hev.
    specialize (H ev Hev). by destruct ev. }
  intros [toProcess num]. unfold install_missing.
  destruct (length toProcess =? 0)%nat.
  { destruct (project self); by apply fails_fast_emit. }
  apply fails_fast_bind.
  { destruct (project self); [by apply fails_fast_clean | apply fails_fast_confirm]. }
  intros _. apply fails_fast_bind.
  { apply fails_fast_for_enumerate. intros i [project event_type].
    apply fails_fast_bind; [by apply fails_fast_emit|]. intros _.
    apply fails_fast_configure_service_hook. }
  intros _. destruct (project self); by apply fails_fast_emit.
Qed.

Lemma fails_fast_uninstall_hooks self : fails_fast (uninstall_hooks self).
Proof.
  unfold uninstall_hooks. destruct (project self); [by apply fails_fast_emit|].
  apply fails_fast_bind; [apply fails_fast_get_existing_hooks|]. intros hooks.
  destruct (length hooks =? 0)%nat; [by apply fails_fast_emit|].
  apply fails_fast_bind; [by apply fails_fast_emit|]. intros _.
  apply fails_fast_bind; [apply fails_fast_confirm|]. intros _.
  apply fails_fast_bind.
  { apply fails_fast_for_enumerate. intros i hook.
    apply fails_fast_bind; [by apply fails_fast_emit|]. intros _.
    apply fails_fast_delete_service_hook. }
  intros _. by apply fails_fast_emit.
Qed.

(** X11 (the first failed call is the last call): in every run of [main],
    once a call ends in a way its gateway method rejects, nothing follows but
    prints: no further request, no prompt, no progress; so a run has at most
    one failed call, none before it, and a run that returns has none. *)
Theorem main_fails_fast (depth : nat) (environ : Environ) (args : Args) (w : world) :
  let r := main depth environ args w in
  (∀ pre ev post,
     trace r = pre ++ ev :: post → is_failed_call ev = true →
     forallb is_print post = true
     ∧ forallb (λ ev, negb (is_failed_call ev)) pre = true)
  ∧ (result r = Return tt →
     forallb (λ ev, negb (is_failed_call ev)) (trace r) = true).
Proof.
  intros r.
  assert (Hmain : fail_fast (trace r)
                  ∧ (result r = Return tt →
                     forallb (λ ev, negb (is_failed_call ev)) (trace r) = true)).
  { subst r. unfold main.
    destruct (not_set (AZURE_DEVOPS_TOKEN environ));
      [split; [by apply fail_fast_no_failure | done]|].
    destruct (negb (args_uninstall args) && not_set (DD_API_KEY environ))%bool;
      [split; [by apply fail_fast_no_failure | done]|].
    unfold try_except.
    set (body := if args_uninstall args then _ else _).
    assert (Hbody : fails_fast body).
    { unfold body. destruct (args_uninstall args);
        [apply fails_fast_uninstall_hooks | apply fails_fast_install_hooks]. }
    destruct (Hbody w) as [Hff Hret].
    destruct (result (body w)) as [[]|[code|message response|message| | |name]] eqn:Hres;
      try (split; [exact Hff
                  | intros Hr; rewrite ?Hres in Hr; first [discriminate | by eapply Hret]]).
    cbn [result trace]. split.
    - by apply fail_fast_app_prints.
    - done. }
  destruct Hmain as [Hff Hret]. split; [|done].
  intros pre ev post Heq Hev. split; [by eapply Hff|].
  apply forallb_forall. intros ev' Hin. apply negb_true_iff.
  destruct (is_failed_call ev') eqn:Hev'; [exfalso|done].
  apply in_split in Hin as (pre1 & pre2 & ->).
  rewrite <- app_assoc in Heq. simpl in Heq.
  specialize (Hff pre1 ev' (pre2 ++ ev :: post) Heq Hev').
  rewrite forallb_app in Hff. simpl in Hff.
  destruct ev; try done. simpl in Hff. by rewrite andb_false_r in Hff.
Qed.

(** ** Where the requests go *)

Lemma append_assoc (s1 s2 s3 : string) : (s1 +:+ s2) +:+ s3 = s1 +:+ s2 +:+ s3.
Proof.
  induction s1 as [|c s1 IH]; [done|]. by rewrite !append_String, IH.
Qed.

Lemma emits_addressed_list_projects depth self token :
  emits (well_addressed self) (list_projects depth self token).
Proof.
  revert token. induction depth as [|depth IH]; intros token; simpl; [apply emits_raise|].
  apply emits_bind.
  { apply emits_urlopen. intros out. unfold well_addressed, projects_request. cbn [req_url req_headers].
    apply andb_true_iff. split.
    - apply startswith_spec. exists "projects". by rewrite append_assoc.
    - apply bool_decide_eq_true. by left. }
  intros [status body data|code body]; [|apply emits_raise].
  destruct (negb _); [apply emits_raise|].
  destruct (truthy _); [|apply emits_ret].
  apply emits_bind; [apply IH | intros; apply emits_ret].
Qed.

Lemma emits_addressed_get_existing_hooks self :
  emits (well_addressed self) (get_existing_hooks self).
Proof.
  unfold get_existing_hooks. apply emits_bind.
  { apply emits_urlopen. intros out. unfold well_addressed. cbn [req_url req_headers].
    apply andb_true_iff. split.
    - apply startswith_spec. exists "hooks/subscriptionsquery?api-version=7.1".
      by rewrite append_assoc.
    - apply bool_decide_eq_true. by left. }
  intros [status body data|code body]; [destruct (negb _)|]; by intros w.
Qed.

Lemma emits_addressed_configure_service_hook self project event_type :
  emits (well_addressed self) (configure_service_hook self project event_type).
Proof.
  unfold configure_service_hook. apply emits_bind; [by apply emits_verbose_print|].
  intros _. destruct (dd_api_key self); [|apply emits_raise].
  apply emits_bind.
  { apply emits_urlopen. intros out. unfold well_addressed, subscriptions_request.
    cbn [req_url req_headers].
    apply andb_true_iff. split.
    - apply startswith_spec. exists "hooks/subscriptions?api-version=7.1".
      by rewrite append_assoc.
    - apply bool_decide_eq_true. by left. }
  intros [status body []|code body]; [destruct (negb _)|]; by intros w.
Qed.

Lemma emits_addressed_delete_service_hook self hook :
  emits (well_addressed self) (delete_service_hook self hook).
Proof.
  unfold delete_service_hook. apply emits_bind; [by apply emits_verbose_print|].
  intros _. apply emits_bind.
  { apply emits_urlopen. intros out. unfold well_addressed, delete_request.
    cbn [req_url req_headers].
    apply andb_true_iff. split.
    - apply startswith_spec.
      exists ("hooks/subscriptions/" +:+ hook_id hook +:+ "?api-version=7.1").
      by rewrite append_assoc.
    - apply bool_decide_eq_true. by left. }
  intros [status body []|code body]; destruct (negb _); by intros w.
Qed.

Lemma emits_addressed_validate_dd_api_key self :
  emits (well_addressed self) (validate_dd_api_key self).
Proof.
  unfold validate_dd_api_key. destruct (dd_api_key self) as [key|] eqn:Hkey;
    [|apply emits_raise].
  apply emits_bind.
  { apply emits_urlopen. intros out. unfold well_addressed. cbn [req_url req_headers].
    rewrite Hkey. simpl. by rewrite !bool_decide_eq_true_2. }
  intros [status body []|code body]; [destruct (negb _)|]; by intros w.
Qed.

Lemma emits_addressed_install_hooks depth self :
  emits (well_addressed self) (install_hooks depth self).
Proof.
  unfold install_hooks.
  apply emits_bind; [apply emits_addressed_validate_dd_api_key|]. intros _.
  apply emits_bind; [apply emits_addressed_list_projects|]. intros projects.
  destruct (length (in_scope self projects) =? 0)%nat.
  { destruct (project self); by apply emits_emit. }
  apply emits_bind; [apply emits_addressed_get_existing_hooks|]. intros hooks.
  unfold install_reconciled. apply emits_bind.
  { intros w. destruct (find_missing_run self (in_scope self projects) hooks w)
      as (num & prints & -> & Hp).
    cbn [trace]. revert Hp. rewrite !forallb_forall. intros H ev Hev.
    specialize (H ev Hev). by destruct ev. }
  intros [toProcess num]. unfold install_missing.
  destruct (length toProcess =? 0)%nat.
  { destruct (project self); by apply emits_emit. }
  apply emits_bind.
  { destruct (project self); [apply emits_ret | by apply emits_confirm]. }
  intros _. apply emits_bind.
  { apply emits_for_enumerate. intros i [project event_type].
    apply emits_bind; [by apply emits_emit|]. intros _.
    apply emits_addressed_configure_service_hook. }
  intros _. destruct (project self); by apply emits_emit.
Qed.

Lemma emits_addressed_uninstall_hooks self :
  emits (well_addressed self) (uninstall_hooks self).
Proof.
  unfold uninstall_hooks. destruct (project self); [by apply emits_emit|].
  apply emits_bind; [apply emits_addressed_get_existing_hooks|]. intros hooks.
  destruct (length hooks =? 0)%nat; [by apply emits_emit|].
  apply emits_bind; [by apply emits_emit|]. intros _.
  apply emits_bind; [by apply emits_confirm|]. intros _.
  apply emits_bind.
  { apply emits_for_enumerate. intros i hook.
    apply emits_bind; [by apply emits_emit|]. intros _.
    apply emits_addressed_delete_service_hook. }
  intros _. by apply emits_emit.
Qed.

(** X12 (where the credentials go): in every run of [main], each call to
    Azure DevOps goes to a URL under the organization's
    [https://dev.azure.com/{org}/_apis/] and carries the bearer token, and the
    key validation goes to [https://api.{site}/api/v1/validate] with the
    Datadog API key as its only header, so the Azure DevOps token is never
    sent to Datadog. *)
Theorem requests_are_well_addressed
    (depth : nat) (environ : Environ) (args : Args) (w : world) :
  let self := make_client environ args in
  let tr := trace (main depth environ args w) in
  forallb (well_addressed self) tr = true
  ∧ (∀ ep req out, EvUrlopen ep req out ∈ tr → ep ≠ ApiValidate →
       (∃ path, req_url req
                = "https://dev.azure.com/" +:+ py_str (args_az_devops_org args)
                  +:+ "/_apis/" +:+ path)
       ∧ ("Authorization", "Bearer " +:+ py_str (AZURE_DEVOPS_TOKEN environ))
         ∈ req_headers req)
  ∧ (∀ req out, EvUrlopen ApiValidate req out ∈ tr →
       req_url req = "https://api." +:+ py_str (args_dd_site args) +:+ "/api/v1/validate"
       ∧ req_headers req = [("DD-API-KEY", py_str (DD_API_KEY environ))]).
Proof.
  intros self tr.
  assert (Hem : forallb (well_addressed self) tr = true).
  { apply emits_main; [done|]. destruct (args_uninstall args).
    - apply emits_addressed_uninstall_hooks.
    - apply emits_addressed_install_hooks. }
  split_and!; [done| |].
  - intros ep req out Hin Hep. rewrite forallb_forall in Hem.
    specialize (Hem _ (proj1 (list_elem_of_In _ _) Hin)).
    destruct ep; try done; simpl in Hem;
      apply andb_true_iff in Hem as [Hurl Hhdr];
      apply startswith_spec in Hurl as [path Hurl];
      apply bool_decide_eq_true in Hhdr;
      (split; [exists path; rewrite Hurl; unfold _az_base_url; cbn [make_client az_devops_org];
               by rewrite !append_assoc
              | done]).
  - intros req out Hin. rewrite forallb_forall in Hem.
    specialize (Hem _ (proj1 (list_elem_of_In _ _) Hin)). simpl in Hem.
    apply andb_true_iff in Hem as [Hurl Hhdr].
    by rewrite !bool_decide_eq_true in *.
Qed.

(** ** The verbose flag *)

Lemma quiet_app (tr1 tr2 : list Event) : quiet (tr1 ++ tr2) = quiet tr1 ++ quiet tr2.
Proof. apply List.filter_app. Qed.

Lemma quietly_equal_refl {A} (m : M A) : quietly_equal m m.
Proof. by intros w. Qed.

Lemma quietly_equal_bind {A B} (m1 m2 : M A) (k1 k2 : A → M B) :
  quietly_equal m1 m2 → (∀ a, quietly_equal (k1 a) (k2 a)) →
  quietly_equal (bind m1 k1) (bind m2 k2).
Proof.
  intros Hm Hk w. rewrite !bind_run. destruct (Hm w) as (Hr & Hf & Hq).
  rewrite <- Hr, <- Hf. destruct (result (m1 w)) as [a|e]; cbn [result trace final].
  - destruct (Hk a (final (m1 w))) as (Hr' & Hf' & Hq').
    by rewrite !quiet_app, Hq, Hq'.
  - done.
Qed.

Lemma quietly_equal_for_each {A S} (l : list A) (body1 body2 : A → S → M S) :
  (∀ x s, quietly_equal (body1 x s) (body2 x s)) →
  ∀ s, quietly_equal (for_each l body1 s) (for_each l body2 s).
Proof.
  intros Hbody. induction l as [|x l IH]; intros s; simpl.
  - apply quietly_equal_refl.
  - apply quietly_equal_bind; auto.
Qed.

Lemma quietly_equal_for_enumerate {A} (l : list A) (body1 body2 : nat → A → M unit) :
  (∀ i x, quietly_equal (body1 i x) (body2 i x)) →
  ∀ i, quietly_equal (for_enumerate i l body1) (for_enumerate i l body2).
Proof.
  intros Hbody. induction l as [|x l IH]; intros i; simpl.
  - apply quietly_equal_refl.
  - apply quietly_equal_bind; auto.
Qed.

Lemma quietly_equal_try_except {A} (m1 m2 : M A) (handler : string → ResponseObj → M A) :
  quietly_equal m1 m2 → quietly_equal (try_except m1 handler) (try_except m2 handler).
Proof.
  intros Hm w. unfold try_except. destruct (Hm w) as (Hr & Hf & Hq).
  rewrite <- Hr, <- Hf. destruct (result (m1 w)) as [a|[]] eqn:Hres; rewrite ?Hres; try done.
  cbn [result trace final]. by rewrite !quiet_app, Hq.
Qed.

Lemma quietly_equal_verbose_print self flag line :
  quietly_equal (verbose_print self line) (verbose_print (with_verbose flag self) line).
Proof. intros w. unfold verbose_print. simpl. by destruct (verbose self), flag. Qed.

Lemma quietly_equal_list_projects depth self flag token :
  quietly_equal (list_projects depth self token)
    (list_projects depth (with_verbose flag self) token).
Proof.
  revert token. induction depth as [|depth IH]; intros token; simpl;
    [apply quietly_equal_refl|].
  apply quietly_equal_bind; [apply quietly_equal_refl|].
  intros [status body data|code body]; [|apply quietly_equal_refl].
  destruct (negb _); [apply quietly_equal_refl|].
  destruct (truthy _); [|apply quietly_equal_refl].
  apply quietly_equal_bind; [apply IH | intros; apply quietly_equal_refl].
Qed.

Lemma quietly_equal_configure_service_hook self flag project event_type :
  quietly_equal (configure_service_hook self project event_type)
    (configure_service_hook (with_verbose flag self) project event_type).
Proof.
  unfold configure_service_hook.
  apply quietly_equal_bind; [apply quietly_equal_verbose_print|].
  intros _. apply quietly_equal_refl.
Qed.

Lemma quietly_equal_delete_service_hook self flag hook :
  quietly_equal (delete_service_hook self hook)
    (delete_service_hook (with_verbose flag self) hook).
Proof.
  unfold delete_service_hook.
  apply quietly_equal_bind; [apply quietly_equal_verbose_print|].
  intros _. apply quietly_equal_refl.
Qed.

Lemma quietly_equal_find_missing self flag projects existing :
  quietly_equal (find_missing self projects existing)
    (find_missing (with_verbose flag self) projects existing).
Proof.
  unfold find_missing. apply quietly_equal_for_each.
  intros project [toProcess num].
  apply quietly_equal_bind; [|intros; apply quietly_equal_refl].
  apply quietly_equal_for_each. intros event_type [toProcess' flag'].
  destruct (bool_decide _); [apply quietly_equal_refl|].
  apply quietly_equal_bind; [apply quietly_equal_verbose_print|].
  intros; apply quietly_equal_refl.
Qed.

Lemma quietly_equal_install_hooks depth self flag :
  quietly_equal (install_hooks depth self) (install_hooks depth (with_verbose flag self)).
Proof.
  unfold install_hooks.
  apply quietly_equal_bind; [apply quietly_equal_refl|]. intros _.
  apply quietly_equal_bind; [apply quietly_equal_list_projects|]. intros projects.
  change (in_scope (with_verbose flag self) projects) with (in_scope self projects).
  destruct (length (in_scope self projects) =? 0)%nat; [apply quietly_equal_refl|].
  apply quietly_equal_bind; [apply quietly_equal_refl|]. intros hooks.
  unfold install_reconciled.
  apply quietly_equal_bind; [apply quietly_equal_find_missing|].
  intros [toProcess num]. unfold install_missing.
  destruct (length toProcess =? 0)%nat; [apply quietly_equal_refl|].
  apply quietly_equal_bind; [apply quietly_equal_refl|]. intros _.
  apply quietly_equal_bind; [|intros; apply quietly_equal_refl].
  apply quietly_equal_for_enumerate. intros i [project event_type].
  apply quietly_equal_bind; [apply quietly_equal_refl|]. intros _.
  apply quietly_equal_configure_service_hook.
Qed.

Lemma quietly_equal_uninstall_hooks self flag :
  quietly_equal (uninstall_hooks self) (uninstall_hooks (with_verbose flag self)).
Proof.
  unfold uninstall_hooks.
  change (project (with_verbose flag self)) with (project self).
  destruct (project self); [apply quietly_equal_refl|].
  apply quietly_equal_bind; [apply quietly_equal_refl|]. intros hooks.
  destruct (length hooks =? 0)%nat; [apply quietly_equal_refl|].
  apply quietly_equal_bind; [apply quietly_equal_refl|]. intros _.
  apply quietly_equal_bind; [apply quietly_equal_refl|]. intros _.
  apply quietly_equal_bind; [|intros; apply quietly_equal_refl].
  apply quietly_equal_for_enumerate. intros i hook.
  apply quietly_equal_bind; [apply quietly_equal_refl|]. intros _.
  apply quietly_equal_delete_service_hook.
Qed.

(** X13 (verbose only adds prints): running [main] with or without
    [--verbose] gives the same result and exit status, leaves the remote world
    in the same state, and produces the same trace once the prints are taken
    out: the same requests with the same outcomes, the same prompts and
    answers, the same progress events. *)
Theorem verbose_only_adds_prints
    (depth : nat) (environ : Environ) (args : Args) (flag : bool) (w : world) :
  let r1 := main depth environ args w in
  let r2 := main depth environ (args_with_verbose flag args) w in
  result r1 = result r2
  ∧ exit_status (result r1) = exit_status (result r2)
  ∧ final r1 = final r2
  ∧ quiet (trace r1) = quiet (trace r2)
  ∧ (∀ ep, requests_to ep (trace r1) = requests_to ep (trace r2)).
Proof.
  intros r1 r2.
  assert (Hq : quietly_equal (main depth environ args)
                 (main depth environ (args_with_verbose flag args))).
  { unfold main. cbn [args_with_verbose args_uninstall].
    destruct (not_set (AZURE_DEVOPS_TOKEN environ)); [apply quietly_equal_refl|].
    destruct (negb (args_uninstall args) && not_set (DD_API_KEY environ))%bool;
      [apply quietly_equal_refl|].
    apply quietly_equal_try_except.
    change (make_client environ (args_with_verbose flag args))
      with (with_verbose flag (make_client environ args)).
    destruct (args_uninstall args).
    - apply quietly_equal_uninstall_hooks.
    - apply quietly_equal_install_hooks. }
  destruct (Hq w) as (Hr & Hf & Htr). fold r1 r2 in Hr, Hf, Htr.
  split_and!; [done | by rewrite Hr | done | done |].
  intros ep.
  assert (Hreq : ∀ tr, requests_to ep tr = requests_to ep (quiet tr)).
  { clear. induction tr as [|ev tr IH]; [done|].
    destruct ev; simpl; try done. case_bool_decide; simpl; by rewrite IH. }
  by rewrite (Hreq (trace r1)), (Hreq (trace r2)), Htr.
Qed.

(** ** Answers to a prompt *)

Lemma lower_ascii_letter (c : ascii) :
  (lower_ascii c = "y"%char ↔ c = "y"%char ∨ c = "Y"%char)
  ∧ (lower_ascii c = "e"%char ↔ c = "e"%char ∨ c = "E"%char)
  ∧ (lower_ascii c = "s"%char ↔ c = "s"%char ∨ c = "S"%char).
Proof.
  destruct c as [[] [] [] [] [] [] [] []];
    (split_and!;
     (split;
      [intros H; vm_compute in H;
       first [discriminate H | left; reflexivity | right; reflexivity]
      |intros [H|H]; first [discriminate H | vm_compute; reflexivity]])).
Qed.

Lemma lower_eq_y (s : string) : lower s = "y" ↔ s = "y" ∨ s = "Y".
Proof.
  destruct s as [|a [|b s]]; simpl.
  - split; [done | by intros [|]].
  - pose proof (proj1 (lower_ascii_letter a)) as Ha. split.
    + intros [= H]. apply Ha in H as [->| ->]; auto.
    + intros [[= ->]|[= ->]]; reflexivity.
  - split; [done | by intros [|]].
Qed.

Lemma lower_eq_yes (s : string) :
  lower s = "yes"
  ↔ ∃ a b c, s = String a (String b (String c ""))
             ∧ (a = "y"%char ∨ a = "Y"%char) ∧ (b = "e"%char ∨ b = "E"%char)
             ∧ (c = "s"%char ∨ c = "S"%char).
Proof.
  split.
  - destruct s as [|a [|b [|c [|d s]]]]; simpl; try done.
    intros [= Ha Hb Hc]. exists a, b, c. split; [done|].
    split_and!; by apply lower_ascii_letter.
  - intros (a & b & c & -> & Ha & Hb & Hc). simpl.
    apply lower_ascii_letter in Ha, Hb, Hc. by rewrite Ha, Hb, Hc.
Qed.

(** X14 (what counts as yes): a prompt is confirmed exactly by "yes" or "y"
    in any mix of upper and lower case; the answer is not trimmed, so an empty
    line, a padded "yes " or any other text declines. *)
Theorem confirms_yes_in_any_case (answer : string) :
  (confirms answer = true
   ↔ answer ∈ ["yes"; "yeS"; "yEs"; "yES"; "Yes"; "YeS"; "YEs"; "YES"; "y"; "Y"])
  ∧ confirms "" = false
  ∧ (confirms answer = true → confirms (answer +:+ " ") = false)
  ∧ (confirms answer = true → confirms (" " +:+ answer) = false)
  ∧ (confirms answer = true → (String.length answer ≤ 3)%nat).
Proof.
  assert (Hiff : ∀ answer, confirms answer = true
   ↔ answer ∈ ["yes"; "yeS"; "yEs"; "yES"; "Yes"; "YeS"; "YEs"; "YES"; "y"; "Y"]).
  { clear. intros answer. unfold confirms. rewrite bool_decide_eq_true.
    rewrite !elem_of_cons, !elem_of_nil, lower_eq_y, lower_eq_yes. split.
    - intros [(a & b & c & -> & [->| ->] & [->| ->] & [->| ->])|[[->| ->]|[]]]; tauto.
    - intros H. repeat (destruct H as [->|H]);
        first [ left; eexists _, _, _; split; [reflexivity|]; tauto
              | right; left; tauto
              | done ]. }
  split_and!; [apply Hiff | done | | |].
  - intros H%Hiff. apply not_true_is_false. intros H'%Hiff. revert H H'.
    rewrite !elem_of_cons, !elem_of_nil.
    intros H. repeat (destruct H as [->|H]); try done;
      intros H'; repeat (destruct H' as [H'|H']);
      first [by destruct H' | (vm_compute in H'; discriminate H')].
  - intros H%Hiff. apply not_true_is_false. intros H'%Hiff. revert H H'.
    rewrite !elem_of_cons, !elem_of_nil.
    intros H. repeat (destruct H as [->|H]); try done;
      intros H'; repeat (destruct H' as [H'|H']);
      first [by destruct H' | (vm_compute in H'; discriminate H')].
  - intros H%Hiff. revert H. rewrite !elem_of_cons, !elem_of_nil.
    intros H. repeat (destruct H as [->|H]); try done; simpl; lia.
Qed.

(** ** The progress bar *)

Lemma length_append (s1 s2 : string) :
  String.length (s1 +:+ s2) = (String.length s1 + String.length s2)%nat.
Proof. induction s1 as [|c s1 IH]; [done|]. rewrite append_String. simpl. by rewrite IH. Qed.

Lemma append_nil_r (s : string) : s +:+ "" = s.
Proof. induction s as [|c s IH]; [done|]. by rewrite append_String, IH. Qed.

Lemma length_repeat_string (s : string) (n : Z) :
  String.length (repeat_string s n) = (Z.to_nat n * String.length s)%nat.
Proof.
  unfold repeat_string. induction (Z.to_nat n) as [|k IH]; [done|].
  simpl. rewrite length_append, IH. lia.
Qed.

Lemma filled_length_bounds (iteration total width : Z) :
  (0 < total)%Z → (0 ≤ iteration ≤ total)%Z → (0 ≤ width)%Z →
  (0 ≤ filled_length iteration total width ≤ width)%Z.
Proof.
  intros Htotal Hiter Hlen. unfold filled_length. split.
  - apply Z.div_pos; nia.
  - apply Z.div_le_upper_bound; nia.
Qed.

(** X15 (the progress bar keeps its width): for a step between 0 and the
    total, as the two loops call it, the bar [progress] draws has exactly
    [width] characters, the filled part growing with the step from none at
    step 0 to all of them at the last step. *)
Theorem progress_bar_keeps_its_width (iteration total width : Z) (fill : string) :
  (0 < total)%Z → (0 ≤ iteration ≤ total)%Z → (0 ≤ width)%Z →
  String.length fill = 1%nat →
  String.length (progress_bar iteration total width fill) = Z.to_nat width
  ∧ (0 ≤ filled_length iteration total width ≤ width)%Z
  ∧ (iteration = total → progress_bar iteration total width fill = repeat_string fill width)
  ∧ (iteration = 0%Z → progress_bar iteration total width fill = repeat_string "-" width)
  ∧ (∀ earlier, (0 ≤ earlier ≤ iteration)%Z →
       (filled_length earlier total width ≤ filled_length iteration total width)%Z).
Proof.
  intros Htotal Hiter Hlen Hfill.
  pose proof (filled_length_bounds iteration total width Htotal Hiter Hlen) as Hb.
  split; [|split; [exact Hb|split; [|split]]].
  - unfold progress_bar. rewrite length_append, !length_repeat_string, Hfill. simpl. lia.
  - intros ->. unfold progress_bar, filled_length.
    rewrite Z.div_mul by lia. rewrite Z.sub_diag. apply append_nil_r.
  - intros ->. unfold progress_bar, filled_length.
    by rewrite Z.mul_0_r, Z.div_0_l, Z.sub_0_r by lia.
  - intros earlier He. unfold filled_length. apply Z.div_le_mono; nia.
Qed.

(** ** The requests of the listing *)

Lemma truthy_Some (token : option string) :
  truthy token = true → ∃ t, token = Some t ∧ t ≠ "".
Proof.
  destruct token as [t|]; [|done]. simpl. intros Ht%negb_true_iff.
  apply String.eqb_neq in Ht. eauto.
Qed.

Lemma list_projects_requests depth self token w :
  ∃ rest,
    requests_to ApiProjects (trace (list_projects (S depth) self token w))
    = projects_request self token :: rest
    ∧ Forall (λ req, ∃ t, t ≠ "" ∧ req = projects_request self (Some t)) rest.
Proof.
  revert token w. induction depth as [|depth IH]; intros token w.
  - cbn [list_projects]. rewrite bind_run. unfold urlopen.
    destruct (urlopen_projects _ w) as [[status body data|code body] w'];
      cbn [result trace final outcome_of]; [|by exists []].
    destruct (negb _); [by exists []|].
    destruct (truthy _); by exists [].
  - remember (S depth) as d eqn:Hd. cbn [list_projects]. rewrite bind_run. unfold urlopen.
    destruct (urlopen_projects _ w) as [[status body data|code body] w'];
      cbn [result trace final outcome_of]; [|by exists []].
    destruct (negb _); [by exists []|].
    destruct (truthy (page_continuation_token data)) eqn:Htok; [|by exists []].
    subst d. destruct (IH (page_continuation_token data) w') as (rest & Hreq & Hrest).
    destruct (truthy_Some _ Htok) as (t & Ht & Hne).
    rewrite bind_run.
    exists (projects_request self (page_continuation_token data) :: rest). split.
    + rewrite requests_to_app.
      change (requests_to ApiProjects [EvUrlopen ApiProjects (projects_request self token)
                                         (Returned status)])
        with [projects_request self token].
      cbn [app]. f_equal.
      destruct (result (list_projects (S depth) self (page_continuation_token data) w'));
        cbn [trace]; rewrite ?requests_to_app, Hreq; by rewrite ?app_nil_r.
    + constructor; [|done]. exists t. by rewrite Ht.
Qed.

(** X16 (what the listing asks for): the first request of [list_projects]
    carries the parameter [api-version=7.1] and nothing else; every later
    request carries only the [continuationToken] of the page before, a
    non-empty string, and no [api-version]; all go to the same URL with the
    bearer token. *)
Theorem list_projects_request_parameters (depth : nat) (self : Client) (w : world) :
  ∃ rest,
    requests_to ApiProjects (trace (list_projects (S depth) self None w))
    = mkRequest "GET" (_az_base_url self +:+ "/_apis/projects") [("api-version", "7.1")]
        (_az_auth_headers self) NoPayload
      :: rest
    ∧ Forall (λ req, ∃ t, t ≠ ""
                ∧ req = mkRequest "GET" (_az_base_url self +:+ "/_apis/projects")
                          [("continuationToken", t)] (_az_auth_headers self) NoPayload) rest
    ∧ (length rest ≤ depth)%nat.
Proof.
  destruct (list_projects_requests depth self None w) as (rest & Hreq & Hrest).
  exists rest. split_and!; [done| |].
  - eapply Forall_impl; [exact Hrest|]. intros req (t & Hne & ->). exists t. split; [done|].
    unfold projects_request. simpl. apply String.eqb_neq in Hne. by rewrite Hne.
  - assert (Hlen : ∀ d token w,
              (length (requests_to ApiProjects (trace (list_projects d self token w))) ≤ d)%nat).
    { clear. induction d as [|d IH]; intros token w; [done|].
      cbn [list_projects]. rewrite bind_run. unfold urlopen.
      destruct (urlopen_projects _ w) as [[status body data|code body] w'];
        cbn [result trace final outcome_of]; [|simpl; lia].
      destruct (negb _); [simpl; lia|].
      destruct (truthy _); [|simpl; lia].
      rewrite bind_run. specialize (IH (page_continuation_token data) w').
      destruct (result (list_projects d self (page_continuation_token data) w'));
        cbn [trace]; rewrite ?requests_to_app; simpl; rewrite ?app_nil_r, ?length_app;
        simpl; lia. }
    specialize (Hlen (S depth) None w). rewrite Hreq in Hlen. simpl in Hlen. lia.
Qed.

(** ** The phases of an install *)

Lemma emits_calls_install_reconciled self projects hooks :
  emits (calls_only [ApiSubscriptions]) (install_reconciled self projects hooks).
Proof.
  intros w.
  destruct (install_reconciled_run self projects hooks w) as (num & prints & Hp & ->).
  cbn [trace]. rewrite forallb_app. apply andb_true_iff. split.
  { revert Hp. rewrite !forallb_forall. intros H ev Hev. specialize (H ev Hev).
    by destruct ev. }
  revert w. change (emits (calls_only [ApiSubscriptions])
                      (install_missing self projects (to_process projects hooks) num)).
  unfold install_missing. destruct (length _ =? 0)%nat.
  { destruct (project self); by apply emits_emit. }
  apply emits_bind.
  { destruct (project self); [apply emits_ret|]. by apply emits_confirm. }
  intros _. apply emits_bind.
  { eapply emits_only_calls_only; [|apply emits_configure_all]. done. }
  intros _. destruct (project self); by apply emits_emit.
Qed.

Lemma length_requests_to (ep : Endpoint) (tr : list Event) :
  (length (requests_to ep tr) ≤ length tr)%nat.
Proof.
  induction tr as [|ev tr IH]; [done|].
  destruct ev; simpl; try lia. case_bool_decide; simpl; lia.
Qed.

Lemma validate_one_call self w : (length (trace (validate_dd_api_key self w)) ≤ 1)%nat.
Proof.
  unfold validate_dd_api_key. destruct (dd_api_key self); [|simpl; lia].
  unfold bind, urlopen.
  destruct (urlopen_validate _ w) as [[status body []|code body] w']; simpl;
    try destruct (negb _); simpl; lia.
Qed.

Lemma get_existing_hooks_one_call self w :
  (length (trace (get_existing_hooks self w)) ≤ 1)%nat.
Proof.
  unfold get_existing_hooks, bind, urlopen.
  destruct (urlopen_subscriptionsquery _ w) as [[status body data|code body] w']; simpl;
    try destruct (negb _); simpl; lia.
Qed.

(** X17 (an install goes through its phases in order): the trace of
    [install_hooks] is the key validation, then the project listing, then the
    subscription query, then the prompt and the creations, each phase possibly
    cut short or absent; the key is validated by at most one call and the
    subscriptions are queried by at most one call. *)
Theorem install_phases_in_order (depth : nat) (self : Client) (w : world) :
  let tr := trace (install_hooks depth self w) in
  (∃ tv tp tq tc,
     tr = tv ++ tp ++ tq ++ tc
     ∧ forallb (only [ApiValidate]) tv = true
     ∧ forallb (only [ApiProjects]) tp = true
     ∧ forallb (only [ApiSubscriptionsQuery]) tq = true
     ∧ forallb (calls_only [ApiSubscriptions]) tc = true
     ∧ (length tv ≤ 1)%nat ∧ (length tq ≤ 1)%nat)
  ∧ (length (requests_to ApiValidate tr) ≤ 1)%nat
  ∧ (length (requests_to ApiSubscriptionsQuery tr) ≤ 1)%nat.
Proof.
  intros tr.
  assert (Hsplit : ∃ tv tp tq tc,
     tr = tv ++ tp ++ tq ++ tc
     ∧ forallb (only [ApiValidate]) tv = true
     ∧ forallb (only [ApiProjects]) tp = true
     ∧ forallb (only [ApiSubscriptionsQuery]) tq = true
     ∧ forallb (calls_only [ApiSubscriptions]) tc = true
     ∧ (length tv ≤ 1)%nat ∧ (length tq ≤ 1)%nat).
  { subst tr. unfold install_hooks. rewrite bind_run.
    pose proof (emits_validate_dd_api_key self w) as Hv.
    pose proof (validate_one_call self w) as Hv1.
    destruct (result (validate_dd_api_key self w)) as [[]|e]; cbn [result trace final].
    2:{ exists (trace (validate_dd_api_key self w)), [], [], [].
        rewrite !app_nil_r. split_and!; try done; simpl; lia. }
    set (w1 := final (validate_dd_api_key self w)).
    rewrite bind_run.
    pose proof (emits_list_projects depth self None w1) as Hl.
    destruct (result (list_projects depth self None w1)) as [projects|e];
      cbn [result trace final].
    2:{ exists (trace (validate_dd_api_key self w)),
          (trace (list_projects depth self None w1)), [], [].
        rewrite !app_nil_r. split_and!; try done; simpl; lia. }
    set (w2 := final (list_projects depth self None w1)).
    destruct (length (in_scope self projects) =? 0)%nat.
    { eexists (trace (validate_dd_api_key self w)),
        (trace (list_projects depth self None w1)), [], _.
      split; [reflexivity|]. split_and!; try done; [by destruct (project self)|simpl; lia]. }
    rewrite bind_run.
    pose proof (emits_get_existing_hooks self w2) as Hq.
    pose proof (get_existing_hooks_one_call self w2) as Hq1.
    destruct (result (get_existing_hooks self w2)) as [hooks|e]; cbn [result trace final].
    2:{ exists (trace (validate_dd_api_key self w)),
          (trace (list_projects depth self None w1)),
          (trace (get_existing_hooks self w2)), [].
        rewrite !app_nil_r. split_and!; try done; simpl; lia. }
    eexists (trace (validate_dd_api_key self w)),
      (trace (list_projects depth self None w1)),
      (trace (get_existing_hooks self w2)), _.
    split; [reflexivity|]. split_and!; try done.
    apply emits_calls_install_reconciled. }
  split; [exact Hsplit|].
  destruct Hsplit as (tv & tp & tq & tc & -> & Hv & Hp & Hq & Hc & Hv1 & Hq1).
  rewrite !requests_to_app.
  split.
  - rewrite (requests_to_only ApiValidate [ApiProjects] tp) by (done || compute_done).
    rewrite (requests_to_only ApiValidate [ApiSubscriptionsQuery] tq)
      by (done || compute_done).
    rewrite (requests_to_calls_only ApiValidate [ApiSubscriptions] tc)
      by (done || compute_done).
    rewrite !app_nil_r. etrans; [apply length_requests_to|done].
  - rewrite (requests_to_only ApiSubscriptionsQuery [ApiValidate] tv)
      by (done || compute_done).
    rewrite (requests_to_only ApiSubscriptionsQuery [ApiProjects] tp)
      by (done || compute_done).
    rewrite (requests_to_calls_only ApiSubscriptionsQuery [ApiSubscriptions] tc)
      by (done || compute_done).
    rewrite !app_nil_r. simpl. etrans; [apply length_requests_to|done].
Qed.

(** ** The steps of the progress bar *)

Lemma only_no_progress_in_range (tr : list Event) :
  forallb is_print tr = true → forallb progress_in_range tr = true.
Proof. rewrite !forallb_forall. intros H ev Hev. specialize (H ev Hev). by destruct ev. Qed.

Lemma emits_calls_validate_dd_api_key P self :
  (∀ ep req out, P (EvUrlopen ep req out) = true) → emits P (validate_dd_api_key self).
Proof.
  intros HP. unfold validate_dd_api_key. destruct (dd_api_key self); [|apply emits_raise].
  apply emits_bind; [by apply emits_urlopen|].
  intros [status body []|code body]; [destruct (negb _)|]; by intros w.
Qed.

Lemma emits_calls_list_projects P depth self token :
  (∀ ep req out, P (EvUrlopen ep req out) = true) →
  emits P (list_projects depth self token).
Proof.
  intros HP. revert token.
  induction depth as [|depth IH]; intros token; simpl; [apply emits_raise|].
  apply emits_bind; [by apply emits_urlopen|].
  intros [status body data|code body]; [|apply emits_raise].
  destruct (negb _); [apply emits_raise|].
  destruct (truthy _); [|apply emits_ret].
  apply emits_bind; [apply IH | intros; apply emits_ret].
Qed.

Lemma emits_calls_get_existing_hooks P self :
  (∀ ep req out, P (EvUrlopen ep req out) = true) → emits P (get_existing_hooks self).
Proof.
  intros HP. unfold get_existing_hooks. apply emits_bind; [by apply emits_urlopen|].
  intros [status body data|code body]; [destruct (negb _)|]; by intros w.
Qed.

Lemma emits_progress_configure_service_hook self project event_type :
  emits progress_in_range (configure_service_hook self project event_type).
Proof.
  unfold configure_service_hook. apply emits_bind; [by apply emits_verbose_print|].
  intros _. destruct (dd_api_key self); [|apply emits_raise].
  apply emits_bind; [by apply emits_urlopen|].
  intros [status body []|code body]; [destruct (negb _)|]; by intros w.
Qed.

Lemma emits_progress_delete_service_hook self hook :
  emits progress_in_range (delete_service_hook self hook).
Proof.
  unfold delete_service_hook. apply emits_bind; [by apply emits_verbose_print|].
  intros _. apply emits_bind; [by apply emits_urlopen|].
  intros [status body []|code body]; destruct (negb _); by intros w.
Qed.

Lemma emits_progress_configure_all self total toProcess :
  ∀ i, (i + length toProcess ≤ total)%nat →
       emits progress_in_range (configure_all self total i toProcess).
Proof.
  unfold configure_all.
  induction toProcess as [|[project event_type] toProcess IH]; intros i Hi.
  - apply emits_ret.
  - rewrite for_enumerate_cons. simpl in Hi. apply emits_bind.
    + apply emits_bind; [|intros; apply emits_progress_configure_service_hook].
      apply emits_emit. cbn [progress_in_range]. apply andb_true_iff.
      split; apply Nat.leb_le; lia.
    + intros _. apply IH. lia.
Qed.

Lemma emits_progress_delete_all self total hooks :
  ∀ i, (i + length hooks ≤ total)%nat →
       emits progress_in_range (delete_all self total i hooks).
Proof.
  unfold delete_all.
  induction hooks as [|hook hooks IH]; intros i Hi.
  - apply emits_ret.
  - rewrite for_enumerate_cons. simpl in Hi. apply emits_bind.
    + apply emits_bind; [|intros; apply emits_progress_delete_service_hook].
      apply emits_emit. cbn [progress_in_range]. apply andb_true_iff.
      split; apply Nat.leb_le; lia.
    + intros _. apply IH. lia.
Qed.

Lemma emits_progress_install_hooks depth self :
  emits progress_in_range (install_hooks depth self).
Proof.
  unfold install_hooks.
  apply emits_bind.
  { by apply emits_calls_validate_dd_api_key. }
  intros _. apply emits_bind.
  { by apply emits_calls_list_projects. }
  intros projects. destruct (length (in_scope self projects) =? 0)%nat.
  { destruct (project self); by apply emits_emit. }
  apply emits_bind.
  { by apply emits_calls_get_existing_hooks. }
  intros hooks. unfold install_reconciled. apply emits_bind.
  { intros w. destruct (find_missing_run self (in_scope self projects) hooks w)
      as (num & prints & -> & Hp).
    by apply only_no_progress_in_range. }
  intros [toProcess num]. unfold install_missing.
  destruct (length toProcess =? 0)%nat.
  { destruct (project self); by apply emits_emit. }
  apply emits_bind.
  { destruct (project self); [apply emits_ret | by apply emits_confirm]. }
  intros _. apply emits_bind; [by apply emits_progress_configure_all|].
  intros _. destruct (project self); by apply emits_emit.
Qed.

Lemma emits_progress_uninstall_hooks self :
  emits progress_in_range (uninstall_hooks self).
Proof.
  unfold uninstall_hooks. destruct (project self); [by apply emits_emit|].
  apply emits_bind.
  { by apply emits_calls_get_existing_hooks. }
  intros hooks. destruct (length hooks =? 0)%nat; [by apply emits_emit|].
  apply emits_bind; [by apply emits_emit|]. intros _.
  apply emits_bind; [by apply emits_confirm|]. intros _.
  apply emits_bind; [by apply emits_progress_delete_all|].
  intros _. by apply emits_emit.
Qed.

(** X18 (the progress bar is always asked for a valid step): in every run
    of [main], each call of [progress] has a step between 1 and its total, so
    the total is never zero and the division in [progress] is defined; the
    steps are those for which the bar keeps its width. *)
Theorem progress_steps_in_range
    (depth : nat) (environ : Environ) (args : Args) (w : world) :
  ∀ iteration total prefix suffix,
    EvProgress iteration total prefix suffix ∈ trace (main depth environ args w) →
    (1 ≤ iteration ≤ total)%nat ∧ (0 < total)%nat.
Proof.
  intros iteration total prefix suffix Hin.
  assert (Hem : forallb progress_in_range (trace (main depth environ args w)) = true).
  { apply emits_main; [done|]. destruct (args_uninstall args).
    - apply emits_progress_uninstall_hooks.
    - apply emits_progress_install_hooks. }
  rewrite forallb_forall in Hem.
  specialize (Hem _ (proj1 (list_elem_of_In _ _) Hin)). cbn [progress_in_range] in Hem.
  apply andb_true_iff in Hem as [H1%Nat.leb_le H2%Nat.leb_le]. lia.
Qed.

End Properties.
(** * Runs against the simulated organization *)

(** A creation endpoint that answers 201 Created makes
    [configure_service_hook] raise. *)
Lemma configure_service_hook_rejects_201 :
  (urlopen_subscriptions (Remote := SimRemote)
     (subscriptions_request (sample_client None) "key" alpha "git.push")
     (world_creating (Response 201 "" tt))).1
  = Response 201 "" tt
  ∧ result (configure_service_hook (R := SimRemote) (sample_client None) alpha "git.push"
              (world_creating (Response 201 "" tt)))
    = Raise (AzureDevOpsException "Error configuring service hook for project Alpha"
               (mkResponseObj 201 ""))
  ∧ result (configure_service_hook (R := SimRemote) (sample_client None) alpha "git.push"
              (world_creating (Response 201 "" tt)))
    ≠ Return tt.
Proof. split_and!; [reflexivity | reflexivity | discriminate]. Qed.

(** A creation endpoint that answers 200 lets it return. *)
Lemma configure_service_hook_succeeds_on_200_only_witness :
  dd_api_key (sample_client None) = Some "key"
  ∧ result (configure_service_hook (R := SimRemote) (sample_client None) alpha "git.push"
              (world_creating (Response 200 "" tt)))
    = Return tt.
Proof.
  split; [reflexivity|].
  apply (configure_service_hook_succeeds_on_200_only (R := SimRemote) (sample_client None)
           "key" alpha
           "git.push" (world_creating (Response 200 "" tt)) eq_refl).
  by exists "".
Defined.

(** Installing twice for all projects: the first run creates the two hooks
    [alpha] lacks and the nine of [beta], the second creates none. *)
Lemma install_twice_creates_nothing_witness :
  let first := install_hooks (R := SimRemote) 10 (sample_client None) two_project_world in
  let second := install_hooks (R := SimRemote) 10 (sample_client None) (final first) in
  length (requests_to ApiSubscriptions (trace first)) = 11%nat
  ∧ result second = Return tt
  ∧ requests_to ApiSubscriptions (trace second) = [].
Proof.
  intros first second. split; [by vm_compute|].
  edestruct (install_twice_creates_nothing (R := SimRemote) 10 (sample_client None)
               [alpha; beta] alpha_hooks (sim_hooks (final first)) (final first))
    as (H1 & H2 & H3 & H4).
  - apply (bool_decide_unpack _). vm_compute. exact I.
  - vm_compute. reflexivity.
  - vm_compute. reflexivity.
  - vm_compute. reflexivity.
  - split; assumption.
Defined.


(** [--uninstall --project Alpha] prints the rejection and nothing else. *)
Lemma uninstall_rejects_single_project_witness :
  args_uninstall (sample_args true (Some "Alpha")) = true
  ∧ args_project (sample_args true (Some "Alpha")) = Some "Alpha"
  ∧ trace (main (R := SimRemote) 10 sample_environ (sample_args true (Some "Alpha"))
             two_project_world)
    = [EvPrint "Specifying a single project is not supported for the uninstallation command."].
Proof.
  split_and!; [reflexivity..|].
  apply (uninstall_rejects_single_project (R := SimRemote) 10 sample_environ
           (sample_args true (Some "Alpha")) "Alpha" two_project_world eq_refl eq_refl).
  reflexivity.
Defined.



(** Both projects named Alpha are in the scope of [--project Alpha]. *)
Lemma single_project_scope_keeps_all_namesakes_witness :
  project (sample_client (Some "Alpha")) = Some "Alpha"
  ∧ alpha ∈ in_scope (sample_client (Some "Alpha")) [alpha; beta; alpha_twin]
  ∧ alpha_twin ∈ in_scope (sample_client (Some "Alpha")) [alpha; beta; alpha_twin].
Proof.
  split; [reflexivity|].
  destruct (single_project_scope_keeps_all_namesakes (R := SimRemote)
              (sample_client (Some "Alpha")) "Alpha" eq_refl) as (Hscope & _).
  split; apply Hscope; (split; [|reflexivity]);
    apply (bool_decide_unpack _); vm_compute; exact I.
Defined.

(** The scenario of the specification: [alpha] has hooks for seven of the nine
    event types; installing for it selects the two missing pairs and sends
    two creation requests, "tfs" with version "1.0" for "git.push" and
    "pipelines" with version "latest" for the run-state event. *)
Example alpha_scenario :
  let r := install_hooks (R := SimRemote) 10 (sample_client (Some "Alpha")) two_project_world in
  to_process [alpha] alpha_hooks
  = [(alpha, "git.push"); (alpha, "ms.vss-pipelines.run-state-changed-event")]
  ∧ result r = Return tt
  ∧ map req_data (requests_to ApiSubscriptions (trace r))
    = [SubscriptionPayload
         (mkSubscription "tfs" "git.push" "1.0" "webHooks" "httpRequest" "id-alpha"
            "https://webhook-intake.datadoghq.com/api/v2/webhook" "dd-api-key: key");
       SubscriptionPayload
         (mkSubscription "pipelines" "ms.vss-pipelines.run-state-changed-event" "latest"
            "webHooks" "httpRequest" "id-alpha"
            "https://webhook-intake.datadoghq.com/api/v2/webhook" "dd-api-key: key")].
Proof. by vm_compute. Qed.

(** The hooks of [alpha] in reverse order and with one of them twice give
    the same install. *)
Lemma install_depends_on_hook_keys_only_witness :
  Forall (λ k, k ∈ hook_key <$> rev alpha_hooks
                     ++ [mkHook "again" "id-alpha" "build.complete"])
    (hook_key <$> alpha_hooks)
  ∧ Forall (λ k, k ∈ hook_key <$> alpha_hooks)
      (hook_key <$> rev alpha_hooks ++ [mkHook "again" "id-alpha" "build.complete"])
  ∧ install_reconciled (R := SimRemote) (sample_client None) [alpha; beta] alpha_hooks
      two_project_world
    = install_reconciled (R := SimRemote) (sample_client None) [alpha; beta]
        (rev alpha_hooks ++ [mkHook "again" "id-alpha" "build.complete"])
        two_project_world.
Proof.
  assert (H1 : Forall (λ k, k ∈ hook_key <$> rev alpha_hooks
                              ++ [mkHook "again" "id-alpha" "build.complete"])
                 (hook_key <$> alpha_hooks))
    by (apply (bool_decide_unpack _); vm_compute; exact I).
  assert (H2 : Forall (λ k, k ∈ hook_key <$> alpha_hooks)
                 (hook_key <$> rev alpha_hooks
                    ++ [mkHook "again" "id-alpha" "build.complete"]))
    by (apply (bool_decide_unpack _); vm_compute; exact I).
  split_and!; [exact H1 | exact H2 |].
  apply (install_depends_on_hook_keys_only (R := SimRemote) (sample_client None)
           [alpha; beta] alpha_hooks
           (rev alpha_hooks ++ [mkHook "again" "id-alpha" "build.complete"])
           two_project_world H1 H2).
Defined.

(** An install whose first creation fails has sent one request, well within
    the bound. *)
Lemma creations_follow_the_plan_witness :
  dd_api_key (sample_client None) = Some "key"
  ∧ (length (requests_to ApiSubscriptions
               (trace (install_reconciled (R := SimRemote) (sample_client None)
                         [alpha; beta] alpha_hooks
                         (world_creating (HTTPError 500 "boom")))))
     ≤ 9 * length [alpha; beta])%nat.
Proof.
  split; [reflexivity|].
  apply (creations_follow_the_plan (R := SimRemote) (sample_client None) "key"
           [alpha; beta] alpha_hooks (world_creating (HTTPError 500 "boom")) eq_refl).
Defined.

(** [--project Gamma] in an organization of Alpha and Beta. *)
Lemma install_with_empty_scope_witness :
  (∀ p, p ∈ [alpha; beta] → project_name p ≠ "Gamma")
  ∧ forallb (only [ApiValidate; ApiProjects])
      (trace (install_hooks (R := SimRemote) 10 (sample_client (Some "Gamma"))
                two_project_world)) = true.
Proof.
  assert (Hnone : ∀ p, p ∈ [alpha; beta] → project_name p ≠ "Gamma").
  { intros p Hp. apply list_elem_of_In in Hp. simpl in Hp.
    destruct Hp as [<-|[<-|[]]]; discriminate. }
  split; [exact Hnone|].
  eapply (install_with_empty_scope (R := SimRemote) 10 (sample_client (Some "Gamma"))
            [alpha; beta] two_project_world).
  - vm_compute. reflexivity.
  - vm_compute. reflexivity.
  - exact Hnone.
Defined.

(** A validation answered with 403 ends the install with status 1. *)
Lemma install_stops_on_invalid_api_key_witness :
  missing_environment sample_environ (sample_args false None) = false
  ∧ args_uninstall (sample_args false None) = false
  ∧ exit_status
      (result (main (R := SimRemote) 10 sample_environ (sample_args false None)
                 (mkSim (Response 403 "Forbidden" tt) (Response 200 "" <$> two_pages) 0 200
                    alpha_hooks (Response 200 "" tt) (Response 204 "" tt) ["yes"])))
    = 1.
Proof.
  split_and!; [reflexivity..|].
  apply (install_stops_on_invalid_api_key (R := SimRemote) 10 sample_environ
           (sample_args false None)
           (mkSim (Response 403 "Forbidden" tt) (Response 200 "" <$> two_pages) 0 200
              alpha_hooks (Response 200 "" tt) (Response 204 "" tt) ["yes"])
           eq_refl eq_refl eq_refl).
Defined.

(** A confirmed uninstall asks for each of the seven hooks of [alpha]. *)
Lemma uninstall_deletes_fetched_hooks_witness :
  project (sample_client None) = None
  ∧ requests_to ApiDelete
      (trace (uninstall_hooks (R := SimRemote) (sample_client None) two_project_world))
    = map (delete_request (sample_client None)) alpha_hooks.
Proof.
  split; [reflexivity|].
  edestruct (uninstall_deletes_fetched_hooks (R := SimRemote) (sample_client None)
               alpha_hooks two_project_world) as ((k & Hk & Hreq & Hret) & _).
  - reflexivity.
  - vm_compute. reflexivity.
  - rewrite Hreq, Hret by (vm_compute; reflexivity). by rewrite firstn_all.
Defined.

(** An organization without hooks has nothing to uninstall. *)
Lemma uninstall_with_no_hooks_witness :
  project (sample_client None) = None
  ∧ result (uninstall_hooks (R := SimRemote) (sample_client None) (sample_world [] [] []))
    = Return tt.
Proof.
  split; [reflexivity|].
  edestruct (uninstall_with_no_hooks (R := SimRemote) (sample_client None)
               (sample_world [] [] [])) as [Hrun _].
  - reflexivity.
  - vm_compute. reflexivity.
  - by rewrite Hrun.
Defined.

(** Step 3 of 10 on the default bar of 30 characters. *)
Lemma progress_bar_keeps_its_width_witness :
  (0 < 10)%Z ∧ (0 ≤ 3 ≤ 10)%Z ∧ (0 ≤ 30)%Z ∧ String.length "#" = 1%nat
  ∧ String.length (progress_bar 3 10 30 "#") = 30%nat.
Proof.
  assert (H1 : (0 < 10)%Z) by lia.
  assert (H2 : (0 ≤ 3 ≤ 10)%Z) by lia.
  assert (H3 : (0 ≤ 30)%Z) by lia.
  split; [exact H1|]. split; [exact H2|]. split; [exact H3|]. split; [reflexivity|].
  apply (progress_bar_keeps_its_width 3 10 30 "#" H1 H2 H3 eq_refl).
Defined.

(** The third of the seven deletions of a confirmed uninstall. *)
Lemma progress_steps_in_range_witness :
  EvProgress 3 7 "Uninstalling service hooks"
    "id-alpha - ms.vss-pipelines.stage-state-changed-event"
  ∈ trace (main (R := SimRemote) 10 sample_environ (sample_args true None)
             two_project_world)
  ∧ (1 ≤ 3 ≤ 7)%nat ∧ (0 < 7)%nat.
Proof.
  assert (Hin : EvProgress 3 7 "Uninstalling service hooks"
                  "id-alpha - ms.vss-pipelines.stage-state-changed-event"
                ∈ trace (main (R := SimRemote) 10 sample_environ (sample_args true None)
                           two_project_world)).
  { apply list_elem_of_In. vm_compute.
    repeat (first [left; reflexivity | right]). }
  split; [exact Hin|].
  apply (progress_steps_in_range (R := SimRemote) 10 sample_environ
           (sample_args true None) two_project_world _ _ _ _ Hin).
Defined.
